(** * AwesomeAgentLogic: the dynamic action-selection loop

    A shallow embedding of [llm/awesome_agent_logic/agent.py] and of the
    scoring function of [llm/awesome_agent_logic/tools.py].

    Conventions.
    - A Python [str] is a [string] holding its UTF-8 bytes.
    - A value that came out of [json.loads] (or that is passed where the
      code accepts [Any]) is a [json]; a [dict] keeps its insertion order
      and is an association list with distinct keys.
    - A [float] is the number it stands for: a decimal literal of a JSON
      text is the exact decimal, and the score, which comes out of
      [math.log], is a real number.  The scoring formula is stated over
      [R]; the rounding of the machine is not modelled.
    - Code that can raise returns a [result]; [try]/[except] is a match on
      it.
    - Everything outside the repository (the language model, the GitHub and
      web gateways, [json.loads], [datetime]) is a field of [World]. *)

From Stdlib Require Import String Ascii List ZArith Lia Bool Arith.
From Stdlib Require Import DecimalString Sorted Reals Lra.
Import ListNotations.

Open Scope string_scope.

#[local] Set Warnings "-register-all".
#[local] Set Warnings "-notation-overridden".
#[local] Set Warnings "-notation-incompatible-prefix".

(* ================================================================== *)
(** * Python values *)

Inductive json : Type :=
| JNull
| JBool (b : bool)
| JInt (z : Z)
| JFloat (m e : Z)            (* the decimal m * 10^e *)
| JStr (s : string)
| JArr (l : list json)
| JObj (kv : list (string * json)).

Definition pydict : Type := list (string * json).

Definition nonempty {A : Type} (l : list A) : bool :=
  match l with [] => false | _ :: _ => true end.

Definition str_truthy (s : string) : bool :=
  match s with EmptyString => false | String _ _ => true end.

(** [bool(v)] *)
Definition truthy (v : json) : bool :=
  match v with
  | JNull => false
  | JBool b => b
  | JInt z => negb (z =? 0)%Z
  | JFloat m _ => negb (m =? 0)%Z
  | JStr s => str_truthy s
  | JArr l => nonempty l
  | JObj kv => nonempty kv
  end.

(** [x or y] *)
Definition py_or (x y : json) : json := if truthy x then x else y.

(** [v == s] for a string constant [s]: only a [str] equals a [str]. *)
Definition eq_str (v : json) (s : string) : bool :=
  match v with JStr s' => String.eqb s' s | _ => false end.

Fixpoint dict_get (d : pydict) (k : string) : option json :=
  match d with
  | [] => None
  | (k', v) :: d' => if String.eqb k' k then Some v else dict_get d' k
  end.

Definition dict_has (d : pydict) (k : string) : bool :=
  match dict_get d k with Some _ => true | None => false end.

(** [d.get(k, default)] *)
Definition dict_get_default (d : pydict) (k : string) (default : json) : json :=
  match dict_get d k with Some v => v | None => default end.

(** [d.get(k)] *)
Definition dict_get_none (d : pydict) (k : string) : json :=
  dict_get_default d k JNull.

(** [d[k] = v]: an existing key keeps its place. *)
Fixpoint dict_set (d : pydict) (k : string) (v : json) : pydict :=
  match d with
  | [] => [(k, v)]
  | (k', v') :: d' =>
      if String.eqb k' k then (k', v) :: d' else (k', v') :: dict_set d' k v
  end.

Definition py_type_name (v : json) : string :=
  match v with
  | JNull => "NoneType"
  | JBool _ => "bool"
  | JInt _ => "int"
  | JFloat _ _ => "float"
  | JStr _ => "str"
  | JArr _ => "list"
  | JObj _ => "dict"
  end.

(* ================================================================== *)
(** * Exceptions *)

Inductive exn : Type :=
| TypeError (msg : string)
| AttributeError (msg : string)
| ValueError (msg : string)
| RecursionError (msg : string)
| ExternalError (msg : string).     (* raised by a collaborator *)

(** [str(e)] *)
Definition exn_str (e : exn) : string :=
  match e with
  | TypeError m | AttributeError m | ValueError m
  | RecursionError m | ExternalError m => m
  end.

Inductive result (A : Type) : Type :=
| Ok (a : A)
| Raise (e : exn).
Arguments Ok {A} a.
Arguments Raise {A} e.

Definition bind {A B : Type} (c : result A) (k : A -> result B) : result B :=
  match c with Ok a => k a | Raise e => Raise e end.

Notation "x <- c ;; k" := (bind c (fun x => k))
  (at level 61, c at next level, right associativity).

(** [v.get(k, default)] on a value that may not be a dict. *)
Definition py_get (v : json) (k : string) (default : json) : result json :=
  match v with
  | JObj d => Ok (dict_get_default d k default)
  | _ => Raise (AttributeError
           ("'" ++ py_type_name v ++ "' object has no attribute 'get'"))
  end.

(* ================================================================== *)
(** * Strings *)

Definition dq : string := String (ascii_of_nat 34) EmptyString.
Definition squote : ascii := ascii_of_nat 39.

(** Test inputs are written with apostrophes; [j] turns every apostrophe
    into a double quote, so [j] of the text {'a': 1} is the JSON text of an object with the key a. *)
Fixpoint j (s : string) : string :=
  match s with
  | EmptyString => EmptyString
  | String c s' =>
      String (if Ascii.eqb c squote then ascii_of_nat 34 else c) (j s')
  end.

Fixpoint contains (sub s : string) : bool :=
  prefix sub s ||
  match s with EmptyString => false | String _ s' => contains sub s' end.

Fixpoint has_char (c : ascii) (s : string) : bool :=
  match s with
  | EmptyString => false
  | String c' s' => Ascii.eqb c' c || has_char c s'
  end.

(** [s.replace(old, new)] for a non-empty [old]: occurrences are replaced
    from left to right and do not overlap.  [skip] counts the characters of
    an occurrence that are still to be passed over. *)
Fixpoint replace_from (old new : string) (skip : nat) (s : string) : string :=
  match s with
  | EmptyString => EmptyString
  | String c s' =>
      match skip with
      | S k => replace_from old new k s'
      | O =>
          if prefix old s
          then new ++ replace_from old new (String.length old - 1) s'
          else String c (replace_from old new 0 s')
      end
  end.

Definition replace (old new s : string) : string := replace_from old new 0 s.

(** [len(s)]: the number of code points, i.e. of bytes that do not continue
    a UTF-8 sequence (10xxxxxx). *)
Fixpoint py_len (s : string) : nat :=
  match s with
  | EmptyString => 0
  | String c s' =>
      let n := nat_of_ascii c in
      (if ((128 <=? n) && (n <? 192))%nat then 0 else 1) + py_len s'
  end.

Definition nat_str (n : nat) : string := NilZero.string_of_uint (Nat.to_uint n).

Fixpoint join (sep : string) (l : list string) : string :=
  match l with
  | [] => ""
  | [x] => x
  | x :: l' => x ++ sep ++ join sep l'
  end.

(* ================================================================== *)
(** * The regular expressions of the Response Interpreter

    The five patterns of [_try_parse_json_from_llm_response] are sequences
    of literals and of greedy repetitions of one character class.  [re]
    backtracks: a repetition first takes as much as it can and gives
    characters back until the rest of the pattern matches; [re.search]
    returns the match that starts leftmost. *)

Inductive atom : Type :=
| Lit (s : string)
| One (cls : ascii -> bool)
| Star (cls : ascii -> bool)
| Spaces.                        (* \s* *)

Definition pattern := list atom.

Fixpoint strip_prefix (p s : string) : option string :=
  match p, s with
  | EmptyString, _ => Some s
  | String a p', String b s' => if Ascii.eqb a b then strip_prefix p' s' else None
  | String _ _, EmptyString => None
  end.

Definition byte_in (lo hi : nat) (c : ascii) : bool :=
  ((lo <=? nat_of_ascii c) && (nat_of_ascii c <=? hi))%nat.

(** One character matched by [\s]: [str.isspace] code points, read in
    UTF-8.  Returns the text after it. *)
Definition strip_space (s : string) : option string :=
  match s with
  | String c r =>
      if byte_in 9 13 c || byte_in 28 32 c then Some r
      else match nat_of_ascii c, r with
      | 194, String c1 r1 =>
          if byte_in 133 133 c1 || byte_in 160 160 c1 then Some r1 else None
      | 225, String c1 (String c2 r2) =>
          if byte_in 154 154 c1 && byte_in 128 128 c2 then Some r2 else None
      | 226, String c1 (String c2 r2) =>
          if byte_in 128 128 c1 &&
             (byte_in 128 138 c2 || byte_in 168 169 c2 || byte_in 175 175 c2)
          then Some r2
          else if byte_in 129 129 c1 && byte_in 159 159 c2 then Some r2
          else None
      | 227, String c1 (String c2 r2) =>
          if byte_in 128 128 c1 && byte_in 128 128 c2 then Some r2 else None
      | _, _ => None
      end
  | EmptyString => None
  end.

Section Matcher.
(** What the rest of the pattern makes of the text that is left: the
    pieces matched by the remaining atoms. *)
Variable rest : string -> option (list string).

Definition give_back (s : string) : option (string * list string) :=
  match rest s with Some ps => Some (EmptyString, ps) | None => None end.

Fixpoint star (cls : ascii -> bool) (s : string)
  : option (string * list string) :=
  match s with
  | String c s' =>
      if cls c then
        match star cls s' with
        | Some (m, ps) => Some (String c m, ps)
        | None => give_back s
        end
      else give_back s
  | EmptyString => give_back s
  end.

Fixpoint spaces (fuel : nat) (s : string) : option (string * list string) :=
  match fuel with
  | O => give_back s
  | S fuel' =>
      match strip_space s with
      | Some s' =>
          match spaces fuel' s' with
          | Some (m, ps) =>
              Some (substring 0 (String.length s - String.length s') s ++ m, ps)
          | None => give_back s
          end
      | None => give_back s
      end
  end.
End Matcher.

(** [match_here p s]: the pieces of a prefix of [s] matched by the atoms of
    [p], one piece per atom. *)
Fixpoint match_here (p : pattern) : string -> option (list string) :=
  match p with
  | [] => fun _ => Some []
  | a :: p' =>
      let rest := match_here p' in
      fun s =>
        match a with
        | Lit l =>
            match strip_prefix l s with
            | Some s' =>
                match rest s' with Some ps => Some (l :: ps) | None => None end
            | None => None
            end
        | One cls =>
            match s with
            | String c s' =>
                if cls c then
                  match rest s' with
                  | Some ps => Some (String c EmptyString :: ps)
                  | None => None
                  end
                else None
            | EmptyString => None
            end
        | Star cls =>
            match star rest cls s with
            | Some (m, ps) => Some (m :: ps)
            | None => None
            end
        | Spaces =>
            match spaces rest (String.length s) s with
            | Some (m, ps) => Some (m :: ps)
            | None => None
            end
        end
  end.

(** [re.search(p, s)]: the pieces of the leftmost match. *)
Fixpoint re_search (p : pattern) (s : string) : option (list string) :=
  match match_here p s with
  | Some ps => Some ps
  | None =>
      match s with
      | String _ s' => re_search p s'
      | EmptyString => None
      end
  end.

(** The text matched by the atoms number [from], ..., [from + len - 1]. *)
Definition pieces (from len : nat) (ps : list string) : string :=
  String.concat "" (firstn len (skipn from ps)).

Definition any_char (c : ascii) : bool := true.
Definition not_char (x : string) (c : ascii) : bool := negb (has_char c x).

(** The pattern (\{.*\}) with re.DOTALL. *)
Definition json_pattern : pattern := [Lit "{"; Star any_char; Lit "}"].

(** The pattern (\{[^{]*QactionQ[^}]*\}) with re.DOTALL, where Q stands
    for the double quote (here and in the two patterns below). *)
Definition action_pattern : pattern :=
  [Lit "{"; Star (not_char "{"); Lit (dq ++ "action" ++ dq);
   Star (not_char "}"); Lit "}"].

(** The pattern QkeyQ\s*:\s*Q([^Q]+)Q: the group is the atoms 5 and 6. *)
Definition string_value_pattern (key : string) : pattern :=
  [Lit (dq ++ key ++ dq); Spaces; Lit ":"; Spaces; Lit dq;
   One (not_char dq); Star (not_char dq); Lit dq].

(** The pattern QparamsQ\s*:\s*(\{[^}]*\}): the group is the atoms 4, 5
    and 6. *)
Definition params_pattern : pattern :=
  [Lit (dq ++ "params" ++ dq); Spaces; Lit ":"; Spaces;
   Lit "{"; Star (not_char "}"); Lit "}"].

(* ================================================================== *)
(** * A reader for JSON text

    [json.loads] belongs to Python's library, and the development takes it
    as a field of [World].  [py_json_loads] is a reader for the concrete
    runs below.  It follows [json.decoder]: white space is space, tab, line
    feed and carriage return; a string may not hold a control character; a
    number is an optional minus sign, then 0 or a digit other than 0 with
    any digits after it, then optionally a point with at least one digit,
    then optionally e or E, a sign and at least one digit; it is a float
    when it has a fraction or an exponent; a repeated key keeps its first
    place and its last value.  The literals NaN, Infinity and -Infinity,
    which Python accepts beyond the JSON grammar, are not read. *)

Definition is_ch (c : ascii) (n : nat) : bool := Nat.eqb (nat_of_ascii c) n.

Definition is_json_ws (c : ascii) : bool :=
  is_ch c 32 || is_ch c 9 || is_ch c 10 || is_ch c 13.

Fixpoint skip_ws (s : string) : string :=
  match s with
  | String c s' => if is_json_ws c then skip_ws s' else s
  | EmptyString => s
  end.

Definition digit_val (c : ascii) : option Z :=
  let n := nat_of_ascii c in
  if ((48 <=? n) && (n <=? 57))%nat then Some (Z.of_nat (n - 48)) else None.

Definition hex_val (c : ascii) : option N :=
  let n := N_of_ascii c in
  if ((48 <=? n) && (n <=? 57))%N then Some (n - 48)%N
  else if ((65 <=? n) && (n <=? 70))%N then Some (n - 55)%N
  else if ((97 <=? n) && (n <=? 102))%N then Some (n - 87)%N
  else None.

(** Digits read into [acc]; returns the number, how many digits were read
    and the text after them. *)
Fixpoint scan_digits (s : string) (acc : Z) (count : nat) : Z * nat * string :=
  match s with
  | String c s' =>
      match digit_val c with
      | Some d => scan_digits s' (10 * acc + d)%Z (S count)
      | None => (acc, count, s)
      end
  | EmptyString => (acc, count, s)
  end.

Definition scan_number (s : string) : option (json * string) :=
  let '(neg, s1) :=
    match s with
    | String c r => if is_ch c 45 then (true, r) else (false, s)
    | EmptyString => (false, s)
    end in
  match s1 with
  | String c r =>
      match digit_val c with
      | None => None
      | Some d =>
          let '(ip, _, s2) :=
            if (d =? 0)%Z then (0%Z, 1%nat, r) else scan_digits r d 1 in
          let '(mant, fdigits, s3) :=
            match s2 with
            | String c2 r2 =>
                if is_ch c2 46 then
                  match scan_digits r2 ip 0 with
                  | (_, O, _) => (ip, O, s2)
                  | (m, n, r3) => (m, n, r3)
                  end
                else (ip, O, s2)
            | EmptyString => (ip, O, s2)
            end in
          let '(ex, has_exp, s4) :=
            match s3 with
            | String c3 r3 =>
                if is_ch c3 101 || is_ch c3 69 then
                  let '(eneg, r4) :=
                    match r3 with
                    | String c4 x =>
                        if is_ch c4 45 then (true, x)
                        else if is_ch c4 43 then (false, x)
                        else (false, r3)
                    | EmptyString => (false, r3)
                    end in
                  match scan_digits r4 0 0 with
                  | (_, O, _) => (0%Z, false, s3)
                  | (v, _, r5) => ((if eneg then - v else v)%Z, true, r5)
                  end
                else (0%Z, false, s3)
            | EmptyString => (0%Z, false, s3)
            end in
          let sm := (if neg then - mant else mant)%Z in
          if negb (Nat.eqb fdigits 0) || has_exp
          then Some (JFloat sm (ex - Z.of_nat fdigits), s4)
          else Some (JInt sm, s4)
      end
  | EmptyString => None
  end.

Definition byte (n : N) : string := String (ascii_of_N n) EmptyString.

(** The UTF-8 bytes of a code point (a lone surrogate is written like any
    other code point of its size). *)
Definition utf8_encode (n : N) : string :=
  (if n <? 128 then byte n
   else if n <? 2048 then byte (192 + n / 64) ++ byte (128 + n mod 64)
   else if n <? 65536 then
     byte (224 + n / 4096) ++ byte (128 + (n / 64) mod 64) ++
     byte (128 + n mod 64)
   else
     byte (240 + n / 262144) ++ byte (128 + (n / 4096) mod 64) ++
     byte (128 + (n / 64) mod 64) ++ byte (128 + n mod 64))%N.

Definition hex4 (s : string) : option (N * string) :=
  match s with
  | String a (String b (String c (String d r))) =>
      match hex_val a, hex_val b, hex_val c, hex_val d with
      | Some x, Some y, Some z, Some w =>
          Some (((x * 16 + y) * 16 + z) * 16 + w, r)%N
      | _, _, _, _ => None
      end
  | _ => None
  end.

Definition simple_escape (c : ascii) : option ascii :=
  let n := nat_of_ascii c in
  if Nat.eqb n 34 || Nat.eqb n 92 || Nat.eqb n 47 then Some c
  else if Nat.eqb n 98 then Some (ascii_of_nat 8)
  else if Nat.eqb n 102 then Some (ascii_of_nat 12)
  else if Nat.eqb n 110 then Some (ascii_of_nat 10)
  else if Nat.eqb n 114 then Some (ascii_of_nat 13)
  else if Nat.eqb n 116 then Some (ascii_of_nat 9)
  else None.

(** The text of a string after its opening quote: the decoded string and
    what follows the closing quote. *)
Fixpoint scan_string (fuel : nat) (s acc : string) : option (string * string) :=
  match fuel with
  | O => None
  | S f =>
      match s with
      | EmptyString => None
      | String c r =>
          if is_ch c 34 then Some (acc, r)
          else if is_ch c 92 then
            match r with
            | String e r' =>
                if is_ch e 117 then
                  match hex4 r' with
                  | Some (u, r1) =>
                      let low :=
                        match r1 with
                        | String b1 (String b2 r2) =>
                            if is_ch b1 92 && is_ch b2 117 then hex4 r2 else None
                        | _ => None
                        end in
                      match low with
                      | Some (u2, r3) =>
                          if ((55296 <=? u) && (u <=? 56319) &&
                              (56320 <=? u2) && (u2 <=? 57343))%N
                          then scan_string f r3
                                 (acc ++ utf8_encode
                                    (65536 + (u - 55296) * 1024 + (u2 - 56320))%N)
                          else scan_string f r1 (acc ++ utf8_encode u)
                      | None => scan_string f r1 (acc ++ utf8_encode u)
                      end
                  | None => None
                  end
                else
                  match simple_escape e with
                  | Some ch => scan_string f r' (acc ++ String ch EmptyString)
                  | None => None
                  end
            | EmptyString => None
            end
          else if (nat_of_ascii c <? 32)%nat then None
          else scan_string f r (acc ++ String c EmptyString)
      end
  end.

Definition scan_quoted (r : string) : option (string * string) :=
  scan_string (S (String.length r)) r EmptyString.

Fixpoint parse_value (fuel : nat) (s : string) : option (json * string) :=
  match fuel with
  | O => None
  | S f =>
      match s with
      | EmptyString => None
      | String c r =>
          if is_ch c 34 then
            match scan_quoted r with
            | Some (str, r') => Some (JStr str, r')
            | None => None
            end
          else if is_ch c 123 then
            match skip_ws r with
            | String c1 r2 =>
                if is_ch c1 125 then Some (JObj [], r2)
                else parse_members f (String c1 r2) []
            | EmptyString => None
            end
          else if is_ch c 91 then
            match skip_ws r with
            | String c1 r2 =>
                if is_ch c1 93 then Some (JArr [], r2)
                else parse_elements f (String c1 r2) []
            | EmptyString => None
            end
          else
            match strip_prefix "null" s with
            | Some r' => Some (JNull, r')
            | None =>
            match strip_prefix "true" s with
            | Some r' => Some (JBool true, r')
            | None =>
            match strip_prefix "false" s with
            | Some r' => Some (JBool false, r')
            | None => scan_number s
            end end end
      end
  end
with parse_elements (fuel : nat) (s : string) (acc : list json)
  : option (json * string) :=
  match fuel with
  | O => None
  | S f =>
      match parse_value f s with
      | Some (v, r) =>
          match skip_ws r with
          | String c r2 =>
              if is_ch c 93 then Some (JArr (rev (v :: acc)), r2)
              else if is_ch c 44 then parse_elements f (skip_ws r2) (v :: acc)
              else None
          | EmptyString => None
          end
      | None => None
      end
  end
with parse_members (fuel : nat) (s : string) (acc : pydict)
  : option (json * string) :=
  match fuel with
  | O => None
  | S f =>
      match s with
      | String c r =>
          if is_ch c 34 then
            match scan_quoted r with
            | Some (k, r1) =>
                match skip_ws r1 with
                | String c2 r2 =>
                    if is_ch c2 58 then
                      match parse_value f (skip_ws r2) with
                      | Some (v, r3) =>
                          match skip_ws r3 with
                          | String c4 r4 =>
                              if is_ch c4 125
                              then Some (JObj (dict_set acc k v), r4)
                              else if is_ch c4 44
                              then parse_members f (skip_ws r4) (dict_set acc k v)
                              else None
                          | EmptyString => None
                          end
                      | None => None
                      end
                    else None
                | EmptyString => None
                end
            | None => None
            end
          else None
      | EmptyString => None
      end
  end.

Inductive loads_result : Type :=
| Loaded (v : json)
| JSONDecodeError
| OtherError (e : exn).       (* e.g. RecursionError on deep nesting *)

Definition py_json_loads (s : string) : loads_result :=
  match parse_value (2 * String.length s + 2) (skip_ws s) with
  | Some (v, r) =>
      match skip_ws r with
      | EmptyString => Loaded v
      | String _ _ => JSONDecodeError
      end
  | None => JSONDecodeError
  end.

(* ================================================================== *)
(** * Work state, history and the outside world *)

(** A ranked repository: [repo_with_score = repo.copy()] with the key
    [score] set. *)
Record ScoredRepo : Type := {
  sr_repo : pydict;
  sr_score : R
}.

(** The [state] dict of [run].  Every key but [web_queries] is set when the
    dict is created; [state.get("web_queries")] on the fresh dict is [None],
    which is falsy like the empty list that stands for it here. *)
Record State : Type := {
  domain : string;
  keywords : list json;
  github_repos : list json;
  web_queries : list json;
  web_search_results : list pydict;
  candidate_repos : list string;
  ranked_repos : list ScoredRepo;
  final_report : string
}.

Definition initial_state (dom : string) : State :=
  {| domain := dom; keywords := []; github_repos := []; web_queries := [];
     web_search_results := []; candidate_repos := []; ranked_repos := [];
     final_report := "" |}.

Definition set_keywords (st : State) (v : list json) : State :=
  {| domain := domain st; keywords := v; github_repos := github_repos st;
     web_queries := web_queries st;
     web_search_results := web_search_results st;
     candidate_repos := candidate_repos st; ranked_repos := ranked_repos st;
     final_report := final_report st |}.

Definition set_github_repos (st : State) (v : list json) : State :=
  {| domain := domain st; keywords := keywords st; github_repos := v;
     web_queries := web_queries st;
     web_search_results := web_search_results st;
     candidate_repos := candidate_repos st; ranked_repos := ranked_repos st;
     final_report := final_report st |}.

Definition set_web_queries (st : State) (v : list json) : State :=
  {| domain := domain st; keywords := keywords st;
     github_repos := github_repos st; web_queries := v;
     web_search_results := web_search_results st;
     candidate_repos := candidate_repos st; ranked_repos := ranked_repos st;
     final_report := final_report st |}.

Definition set_web_search_results (st : State) (v : list pydict) : State :=
  {| domain := domain st; keywords := keywords st;
     github_repos := github_repos st; web_queries := web_queries st;
     web_search_results := v;
     candidate_repos := candidate_repos st; ranked_repos := ranked_repos st;
     final_report := final_report st |}.

Definition set_candidate_repos (st : State) (v : list string) : State :=
  {| domain := domain st; keywords := keywords st;
     github_repos := github_repos st; web_queries := web_queries st;
     web_search_results := web_search_results st;
     candidate_repos := v; ranked_repos := ranked_repos st;
     final_report := final_report st |}.

Definition set_ranked_repos (st : State) (v : list ScoredRepo) : State :=
  {| domain := domain st; keywords := keywords st;
     github_repos := github_repos st; web_queries := web_queries st;
     web_search_results := web_search_results st;
     candidate_repos := candidate_repos st; ranked_repos := v;
     final_report := final_report st |}.

Definition set_final_report (st : State) (v : string) : State :=
  {| domain := domain st; keywords := keywords st;
     github_repos := github_repos st; web_queries := web_queries st;
     web_search_results := web_search_results st;
     candidate_repos := candidate_repos st; ranked_repos := ranked_repos st;
     final_report := v |}.

Record HistoryEntry : Type := {
  h_action : json;
  h_params : json;
  h_result_summary : string
}.

(** The dict [get_repo_details] builds from GitHub's answer; [html_url] is a
    string there. *)
Record RepoDetails : Type := {
  rd_url : string;
  rd_name : json;
  rd_full_name : json;
  rd_description : json;
  rd_stars : json;
  rd_forks : json;
  rd_pushed_at : json;
  rd_created_at : json;
  rd_updated_at : json;
  rd_language : json
}.

Definition details_dict (d : RepoDetails) : pydict :=
  [("url", JStr (rd_url d)); ("name", rd_name d);
   ("full_name", rd_full_name d); ("description", rd_description d);
   ("stars", rd_stars d); ("forks", rd_forks d);
   ("pushed_at", rd_pushed_at d); ("created_at", rd_created_at d);
   ("updated_at", rd_updated_at d); ("language", rd_language d)].

(** The collaborators.  A call made during the loop carries the number of
    the iteration that makes it, so that two calls may be answered
    differently; the model sees the domain, the state and the history, of
    which the prompt is made. *)
Record World : Type := {
  (* Python's library *)
  json_loads : string -> loads_result;
  (* datetime.strptime(s, '%Y-%m-%dT%H:%M:%SZ') in microseconds since the
     epoch; None is its ValueError *)
  strptime : string -> option Z;
  (* datetime.utcnow() in microseconds since the epoch; the readings made
     while one action executes are taken to be the same instant *)
  utcnow : nat -> Z;
  (* the language model *)
  plan_chain : string -> result string;
  llm_invoke : nat -> string -> State -> list HistoryEntry -> result string;
  (* LLMTools: each catches its own errors *)
  generate_keywords : nat -> string -> list json;
  generate_web_queries : nat -> string -> list json;
  generate_final_report : nat -> list ScoredRepo -> string -> string;
  (* GithubTools *)
  github_search : nat -> json -> list json;
  get_repo_details : nat -> json -> option RepoDetails;
  (* WebTools *)
  search_web : nat -> json -> list pydict;
  extract_github_links : nat -> json -> list string
}.

(* ================================================================== *)
(** * GithubTools.calculate_repo_score *)

Definition day_us : Z := 86400000000.

(** The number a value stands for in [v + 1]; [None] where the addition
    raises [TypeError]. *)
Definition as_real (v : json) : option R :=
  match v with
  | JInt z => Some (IZR z)
  | JBool b => Some (if b then 1%R else 0%R)
  | JFloat m e => Some (IZR m * powerRZ 10 e)%R
  | _ => None
  end.

(** [math.log(x)]; [None] is its [ValueError]. *)
Definition math_log (x : R) : option R :=
  if Rlt_dec 0 x then Some (ln x) else None.

Definition recency_score (days_diff : Z) : R :=
  if (days_diff <=? 30)%Z then 1.0%R
  else if (days_diff <=? 180)%Z then 0.8%R
  else if (days_diff <=? 365)%Z then 0.5%R
  else if (days_diff <=? 730)%Z then 0.2%R
  else 0.05%R.

(** The value of [recency_score] after the [if pushed_at:] block; [None]
    when [strptime] raises. *)
Definition recency_of (w : World) (t : nat) (pushed_at : json) : option R :=
  if truthy pushed_at then
    match pushed_at with
    | JStr s =>
        match strptime w s with
        | Some pushed_date =>
            Some (recency_score ((utcnow w t - pushed_date) / day_us))
        | None => None
        end
    | _ => None
    end
  else Some 0.1%R.

(** The body of the [try]; [None] when it raises. *)
Definition score_of (w : World) (t : nat) (repo : pydict) : option R :=
  let stars := py_or (dict_get_default repo "stars" (JInt 0))
                     (dict_get_default repo "stargazers_count" (JInt 0)) in
  let forks := py_or (dict_get_default repo "forks" (JInt 0))
                     (dict_get_default repo "forks_count" (JInt 0)) in
  let pushed_at := dict_get_default repo "pushed_at" (JStr "") in
  match recency_of w t pushed_at with
  | None => None
  | Some recency =>
      match as_real stars, as_real forks with
      | Some s, Some f =>
          match math_log (s + 1), math_log (f + 1) with
          | Some ls, Some lf => Some ((0.7 * ls + 0.3 * lf) * recency)%R
          | _, _ => None
          end
      | _, _ => None
      end
  end.

Definition calculate_repo_score (w : World) (t : nat) (repo : pydict) : R :=
  match score_of w t repo with
  | Some score => score
  | None => 0.0%R        (* except Exception: return 0.0 *)
  end.

(* ================================================================== *)
(** * Response Interpreter: _try_parse_json_from_llm_response *)

Definition fence : string := "```".

Definition strip_fences (text : string) : string :=
  replace fence "" (replace (fence ++ "json") "" text).

Definition unescape_braces (text : string) : string :=
  replace "}}" "}" (replace "{{" "{" text).

(** Methods 2 and 3: [re.search], then [json.loads] of group 1 (all the
    atoms of the pattern).  [None] when the method passes to the next one:
    no match, or an exception the method catches. *)
Definition search_and_load (w : World) (p : pattern) (text : string)
  : option (result json) :=
  match re_search p text with
  | None => None
  | Some ps =>
      match json_loads w (pieces 0 (List.length p) ps) with
      | Loaded v => Some (Ok v)
      | JSONDecodeError => None
      | OtherError (AttributeError _) => None
      | OtherError e => Some (Raise e)
      end
  end.

(** Method 5.  [None] when it passes to method 6: no action is found, or
    something raised ([except Exception]). *)
Definition extract_by_regex (w : World) (cleaned_text : string) : option json :=
  match re_search (string_value_pattern "action") cleaned_text with
  | None => None
  | Some ps =>
      let action := pieces 5 2 ps in
      let params : result json :=
        match re_search params_pattern cleaned_text with
        | Some qs =>
            match json_loads w (unescape_braces (pieces 4 3 qs)) with
            | Loaded v => Ok v
            | JSONDecodeError => Ok (JObj [])
            | OtherError e => Raise e
            end
        | None => Ok (JObj [])
        end in
      match params with
      | Raise _ => None
      | Ok params =>
          let reasoning :=
            match re_search (string_value_pattern "reasoning") cleaned_text with
            | Some rs => pieces 5 2 rs
            | None => "通过正则表达式提取的决策"
            end in
          Some (JObj [("action", JStr action); ("params", params);
                      ("reasoning", JStr reasoning)])
      end
  end.

(** Method 6 and the final [return {}]. *)
Definition last_resort (last_action : option json) : json :=
  match last_action with
  | Some a =>
      if eq_str a "GENERATE_KEYWORDS" then
        JObj [("action", JStr "SEARCH_GITHUB"); ("params", JObj []);
              ("reasoning", JStr "关键词已生成，需要执行GitHub搜索")]
      else if eq_str a "SEARCH_GITHUB" then
        JObj [("action", JStr "CALCULATE_SCORES"); ("params", JObj []);
              ("reasoning", JStr "GitHub搜索已完成，需要计算仓库评分")]
      else JObj []
  | None => JObj []
  end.

Definition try_parse_json_from_llm_response
    (w : World) (text : string) (last_action : option json) : result json :=
  let cleaned_text := strip_fences text in
  (* method 1 *)
  match json_loads w cleaned_text with
  | Loaded v => Ok v
  | OtherError e => Raise e
  | JSONDecodeError =>
  (* method 2 *)
  match search_and_load w json_pattern cleaned_text with
  | Some r => r
  | None =>
  (* method 3 *)
  match search_and_load w action_pattern cleaned_text with
  | Some r => r
  | None =>
  (* method 4 *)
  match json_loads w (unescape_braces cleaned_text) with
  | Loaded v => Ok v
  | OtherError e => Raise e
  | JSONDecodeError =>
  (* method 5 *)
  match extract_by_regex w cleaned_text with
  | Some v => Ok v
  | None =>
  (* method 6 *)
  Ok (last_resort last_action)
  end end end end end.

(* ================================================================== *)
(** * Decision Engine: _decide_next_action *)

Definition ACTIONS : list string :=
  ["GENERATE_KEYWORDS"; "SEARCH_GITHUB"; "GENERATE_WEB_QUERIES"; "SEARCH_WEB";
   "EXTRACT_GITHUB_LINKS"; "GET_REPO_DETAILS"; "CALCULATE_SCORES";
   "GENERATE_REPORT"; "COMPLETE"].

(** The tuple [(action, params)]. *)
Inductive decision : Type :=
| Decision (action params : json).

(** [', '.join(keywords[:5])]: the only call of [_format_state_summary]
    that can raise.  The summary text goes into the prompt and is not
    modelled; what the caller sees is whether the call returns. *)
Fixpoint join_check (i : nat) (l : list json) : result unit :=
  match l with
  | [] => Ok tt
  | JStr _ :: l' => join_check (S i) l'
  | v :: _ =>
      Raise (TypeError ("sequence item " ++ nat_str i ++
                        ": expected str instance, " ++ py_type_name v ++
                        " found"))
  end.

Definition format_state_summary (st : State) : result unit :=
  join_check 0 (firstn 5 (keywords st)).

(** [params.items()] under [if params:] is the only call of
    [_format_history_summary] that can raise. *)
Definition items_check (params : json) : result unit :=
  if truthy params then
    match params with
    | JObj _ => Ok tt
    | _ => Raise (AttributeError
             ("'" ++ py_type_name params ++ "' object has no attribute 'items'"))
    end
  else Ok tt.

Fixpoint format_history_summary (history : list HistoryEntry) : result unit :=
  match history with
  | [] => Ok tt
  | entry :: rest =>
      _ <- items_check (h_params entry) ;;
      format_history_summary rest
  end.

(** ["action" in decision] *)
Definition py_contains_action (decision : json) : result bool :=
  match decision with
  | JObj d => Ok (dict_has d "action")
  | JArr l => Ok (existsb (fun v => eq_str v "action") l)
  | JStr s => Ok (contains "action" s)
  | _ => Raise (TypeError
           ("argument of type '" ++ py_type_name decision ++ "' is not iterable"))
  end.

(** The [try] block: [Ok (Some d)] when it returns [d], [Ok None] when it
    ends with a warning, [Raise] when something in it raises. *)
Definition model_decision (w : World) (t : nat) (dom : string) (st : State)
    (history : list HistoryEntry) (last_action : option json)
  : result (option decision) :=
  content <- llm_invoke w t dom st history ;;
  decision <- try_parse_json_from_llm_response w content last_action ;;
  if truthy decision then
    has_action <- py_contains_action decision ;;
    if has_action : bool then
      action <- py_get decision "action" (JStr "") ;;
      params <- py_get decision "params" (JObj []) ;;
      _ <- py_get decision "reasoning" (JStr "未提供推理") ;;
      if negb (eq_str action "GENERATE_REPORT") || nonempty (ranked_repos st)
      then Ok (Some (Decision action params))
      else Ok None
    else Ok None
  else Ok None.

(** The decision tree after the [try].  [None] is the end of the function
    reached without a [return]: Python returns [None]. *)
Definition fallback_decision (st : State) : option decision :=
  if negb (nonempty (keywords st)) then
    Some (Decision (JStr "GENERATE_KEYWORDS") (JObj []))
  else if negb (nonempty (github_repos st)) && nonempty (keywords st) then
    Some (Decision (JStr "SEARCH_GITHUB")
                   (JObj [("keywords", JArr (keywords st))]))
  else if negb (nonempty (web_queries st)) && nonempty (keywords st) then
    Some (Decision (JStr "GENERATE_WEB_QUERIES") (JObj []))
  else if negb (nonempty (web_search_results st)) && nonempty (web_queries st)
  then
    match web_queries st with
    | q :: _ => Some (Decision (JStr "SEARCH_WEB") (JObj [("query", q)]))
    | [] =>
        Some (Decision (JStr "SEARCH_WEB")
                (JObj [("query",
                        JStr ("best github repositories for " ++ domain st))]))
    end
  else if nonempty (web_search_results st) && negb (nonempty (candidate_repos st))
  then
    match web_search_results st with
    | first :: _ =>
        match dict_get first "url" with
        | Some url =>
            Some (Decision (JStr "EXTRACT_GITHUB_LINKS") (JObj [("url", url)]))
        | None => None
        end
    | [] => None
    end
  else if (nonempty (github_repos st) || nonempty (candidate_repos st))
          && negb (nonempty (ranked_repos st)) then
    Some (Decision (JStr "CALCULATE_SCORES") (JObj []))
  else if nonempty (ranked_repos st) && negb (str_truthy (final_report st)) then
    Some (Decision (JStr "GENERATE_REPORT") (JObj []))
  else
    Some (Decision (JStr "COMPLETE") (JObj [])).

Definition decide_next_action (w : World) (t : nat) (dom : string) (st : State)
    (history : list HistoryEntry) (last_action : option json)
  : result (option decision) :=
  _ <- format_state_summary st ;;
  _ <- format_history_summary history ;;
  match model_decision w t dom st history last_action with
  | Ok (Some d) => Ok (Some d)
  | Ok None | Raise _ => Ok (fallback_decision st)
  end.

(* ================================================================== *)
(** * _execute_action *)

(** What an action returns. *)
Inductive action_result : Type :=
| RNone
| RValues (l : list json)            (* keywords, queries, search items *)
| RWeb (l : list pydict)             (* web search results *)
| RLinks (l : list string)           (* repository URLs *)
| RDetails (d : option RepoDetails)  (* None is the empty dict *)
| RRanked (l : list ScoredRepo)
| RText (s : string).

(** [bool(result)] *)
Definition result_truthy (r : action_result) : bool :=
  match r with
  | RNone => false
  | RValues l => nonempty l
  | RWeb l => nonempty l
  | RLinks l => nonempty l
  | RDetails d => match d with Some _ => true | None => false end
  | RRanked l => nonempty l
  | RText s => str_truthy s
  end.

(** [search_github_repositories]: the loop over [keywords] is outside the
    [try] of its body, so a value that cannot be iterated raises. *)
Definition search_github_repositories (w : World) (t : nat) (kw : json)
  : result (list json) :=
  match kw with
  | JStr _ | JArr _ | JObj _ => Ok (github_search w t kw)
  | _ => Raise (TypeError ("'" ++ py_type_name kw ++ "' object is not iterable"))
  end.

Fixpoint first_truthy_url (results : list pydict) (url : json) : json :=
  match results with
  | [] => url
  | r :: rest =>
      if truthy (dict_get_none r "url") then dict_get_none r "url"
      else first_truthy_url rest url
  end.

(** The normalised record built from a GitHub search item. *)
Definition normalize_repo (repo : pydict) (html_url : json) : pydict :=
  [("url", html_url);
   ("name", dict_get_default repo "name" (JStr ""));
   ("full_name", dict_get_default repo "full_name" (JStr ""));
   ("description", dict_get_default repo "description" (JStr ""));
   ("stars", dict_get_default repo "stargazers_count" (JInt 0));
   ("forks", dict_get_default repo "forks_count" (JInt 0));
   ("pushed_at", dict_get_default repo "pushed_at" (JStr ""));
   ("language", dict_get_default repo "language" (JStr ""))].

Fixpoint from_github (repos : list json) : list pydict :=
  match repos with
  | [] => []
  | JObj repo :: rest =>
      let html_url := dict_get_none repo "html_url" in
      if truthy html_url then normalize_repo repo html_url :: from_github rest
      else from_github rest
  | _ :: rest => from_github rest
  end.

Fixpoint add_candidates (w : World) (t : nat) (urls : list string)
    (candidate_repos : list pydict) : list pydict :=
  match urls with
  | [] => candidate_repos
  | repo_url :: rest =>
      if existsb (fun repo => eq_str (dict_get_none repo "url") repo_url)
                 candidate_repos
      then add_candidates w t rest candidate_repos
      else
        match get_repo_details w t (JStr repo_url) with
        | Some details =>
            add_candidates w t rest (candidate_repos ++ [details_dict details])
        | None => add_candidates w t rest candidate_repos
        end
  end.

(** [list.sort(key=score, reverse=True)] is stable: an element is placed
    after the elements that do not score less. *)
Fixpoint insert_desc (x : ScoredRepo) (l : list ScoredRepo) : list ScoredRepo :=
  match l with
  | [] => [x]
  | y :: l' =>
      if Rlt_dec (sr_score y) (sr_score x) then x :: l
      else y :: insert_desc x l'
  end.

Definition sort_desc (l : list ScoredRepo) : list ScoredRepo :=
  fold_left (fun acc x => insert_desc x acc) l [].

Definition score_repo (w : World) (t : nat) (repo : pydict) : ScoredRepo :=
  {| sr_repo := repo; sr_score := calculate_repo_score w t repo |}.

Definition calculate_scores (w : World) (t : nat) (st : State)
  : list ScoredRepo :=
  let candidate_repos :=
    add_candidates w t (candidate_repos st) (from_github (github_repos st)) in
  if negb (nonempty candidate_repos) then []
  else firstn 10 (sort_desc (map (score_repo w t) candidate_repos)).

Definition no_repos_message (dom : string) : string :=
  "未能为领域 '" ++ dom ++
  "' 找到相关的GitHub仓库。请尝试使用其他关键词或领域名称。".

(** The body of the [try]. *)
Definition execute_body (w : World) (t : nat) (action params : json)
    (st : State) : result action_result :=
  if eq_str action "GENERATE_KEYWORDS" then
    Ok (RValues (generate_keywords w t (domain st)))
  else if eq_str action "SEARCH_GITHUB" then
    kw <- py_get params "keywords" (JArr (keywords st)) ;;
    if negb (truthy kw) then Ok (RValues [])
    else
      repos <- search_github_repositories w t kw ;;
      Ok (RValues repos)
  else if eq_str action "GENERATE_WEB_QUERIES" then
    Ok (RValues (generate_web_queries w t (domain st)))
  else if eq_str action "SEARCH_WEB" then
    query <- py_get params "query" (JStr "") ;;
    let query :=
      if negb (truthy query) && nonempty (web_queries st)
      then hd JNull (web_queries st) else query in
    let query :=
      if negb (truthy query)
      then JStr ("best github repositories for " ++ domain st) else query in
    Ok (RWeb (search_web w t query))
  else if eq_str action "EXTRACT_GITHUB_LINKS" then
    url <- py_get params "url" (JStr "") ;;
    let url :=
      if negb (truthy url) && nonempty (web_search_results st)
      then first_truthy_url (web_search_results st) url else url in
    if negb (truthy url) then Ok (RLinks [])
    else Ok (RLinks (extract_github_links w t url))
  else if eq_str action "GET_REPO_DETAILS" then
    repo_url <- py_get params "repo_url" (JStr "") ;;
    if negb (truthy repo_url) then Ok (RDetails None)
    else Ok (RDetails (get_repo_details w t repo_url))
  else if eq_str action "CALCULATE_SCORES" then
    Ok (RRanked (calculate_scores w t st))
  else if eq_str action "GENERATE_REPORT" then
    if negb (nonempty (ranked_repos st)) then
      Ok (RText (no_repos_message (domain st)))
    else Ok (RText (generate_final_report w t (ranked_repos st) (domain st)))
  else if eq_str action "COMPLETE" then Ok RNone
  else Ok RNone.

Definition execute_action (w : World) (t : nat) (action params : json)
    (st : State) : action_result :=
  match execute_body w t action params st with
  | Ok r => r
  | Raise _ => RNone       (* except Exception: return None *)
  end.

(* ================================================================== *)
(** * _update_state and _summarize_result *)

(** The loop of the EXTRACT_GITHUB_LINKS branch. *)
Fixpoint merge_links (candidate_repos : list string) (links : list string)
  : list string :=
  match links with
  | [] => candidate_repos
  | url :: rest =>
      if str_truthy url && negb (existsb (String.eqb url) candidate_repos)
      then merge_links (candidate_repos ++ [url]) rest
      else merge_links candidate_repos rest
  end.

(** Every branch asks for [action == ... and result].  An action stores a
    result of its own shape; [_execute_action] returns no other shape for
    it (lemma [execute_action_shape]). *)
Definition update_state (st : State) (action : json) (r : action_result)
  : State :=
  if eq_str action "GENERATE_KEYWORDS" && result_truthy r then
    match r with RValues l => set_keywords st l | _ => st end
  else if eq_str action "SEARCH_GITHUB" && result_truthy r then
    match r with RValues l => set_github_repos st l | _ => st end
  else if eq_str action "GENERATE_WEB_QUERIES" && result_truthy r then
    match r with RValues l => set_web_queries st l | _ => st end
  else if eq_str action "SEARCH_WEB" && result_truthy r then
    match r with RWeb l => set_web_search_results st l | _ => st end
  else if eq_str action "EXTRACT_GITHUB_LINKS" && result_truthy r then
    match r with
    | RLinks l => set_candidate_repos st (merge_links (candidate_repos st) l)
    | _ => st
    end
  else if eq_str action "GET_REPO_DETAILS" && result_truthy r then
    match r with
    | RDetails (Some d) =>
        let url := rd_url d in
        if str_truthy url && negb (existsb (String.eqb url) (candidate_repos st))
        then set_candidate_repos st (candidate_repos st ++ [url])
        else st
    | _ => st
    end
  else if eq_str action "CALCULATE_SCORES" && result_truthy r then
    match r with RRanked l => set_ranked_repos st l | _ => st end
  else if eq_str action "GENERATE_REPORT" && result_truthy r then
    match r with RText s => set_final_report st s | _ => st end
  else st.

Definition summarize_result (r : action_result) : string :=
  let items (n : nat) := "获取了 " ++ nat_str n ++ " 个项目" in
  match r with
  | RNone => "无结果"
  | RValues l => items (List.length l)
  | RWeb l => items (List.length l)
  | RLinks l => items (List.length l)
  | RRanked l => items (List.length l)
  | RDetails d =>
      let keys := match d with
                  | Some d => map fst (details_dict d)
                  | None => []
                  end in
      "获取了包含 " ++ join ", " (firstn 3 keys) ++
      (if (3 <? List.length keys)%nat then " 等" else "") ++ " 的对象"
  | RText s =>
      if (100 <? py_len s)%nat
      then "生成了一段长文本 (" ++ nat_str (py_len s) ++ " 字符)"
      else "结果: " ++ s
  end.

(* ================================================================== *)
(** * Orchestration Loop: run *)

Definition max_iterations : nat := 10.

(** What the loop carries from one iteration to the next. *)
Record LoopState : Type := {
  ls_state : State;
  ls_history : list HistoryEntry;
  ls_last_action : option json;
  ls_iterations : nat;
  ls_dispatched : nat       (* calls of _execute_action so far *)
}.

(** A Decision Engine: [_decide_next_action] at an iteration, as a
    function of what the agent holds. *)
Definition Engine : Type :=
  nat -> State -> list HistoryEntry -> option json -> result (option decision).

Inductive step : Type :=
| Continue (ls : LoopState)
| Break (ls : LoopState)
| Abort (e : exn).

(** One pass of the body of the [while]. *)
Definition loop_body (w : World) (engine : Engine) (ls : LoopState) : step :=
  let iterations := S (ls_iterations ls) in
  match engine iterations (ls_state ls) (ls_history ls) (ls_last_action ls) with
  | Raise e => Abort e
  | Ok None =>
      (* action, params = None *)
      Abort (TypeError "cannot unpack non-iterable NoneType object")
  | Ok (Some (Decision action params)) =>
      if eq_str action "COMPLETE" then
        Break {| ls_state := ls_state ls; ls_history := ls_history ls;
                 ls_last_action := ls_last_action ls;
                 ls_iterations := iterations;
                 ls_dispatched := ls_dispatched ls |}
      else
        let result := execute_action w iterations action params (ls_state ls) in
        let state := update_state (ls_state ls) action result in
        Continue
          {| ls_state := state;
             ls_history :=
               ls_history ls ++
               [{| h_action := action; h_params := params;
                   h_result_summary := summarize_result result |}];
             ls_last_action := Some action;
             ls_iterations := iterations;
             ls_dispatched := S (ls_dispatched ls) |}
  end.

Inductive loop_exit : Type :=
| Completed (ls : LoopState)            (* break on COMPLETE *)
| Exhausted (ls : LoopState)            (* iterations reached max_iterations *)
| Aborted (e : exn) (ls : LoopState).   (* an exception left the loop *)

Definition exit_state (x : loop_exit) : LoopState :=
  match x with Completed ls | Exhausted ls | Aborted _ ls => ls end.

(** [while iterations < max_iterations]: the counter grows by one in every
    pass, so the loop is a recursion on [max_iterations - iterations]. *)
Fixpoint while_loop (w : World) (engine : Engine) (remaining : nat)
    (ls : LoopState) : loop_exit :=
  match remaining with
  | O => Exhausted ls
  | S remaining' =>
      match loop_body w engine ls with
      | Continue ls' => while_loop w engine remaining' ls'
      | Break ls' => Completed ls'
      | Abort e => Aborted e ls
      end
  end.

Definition start (dom : string) : LoopState :=
  {| ls_state := initial_state dom; ls_history := []; ls_last_action := None;
     ls_iterations := 0; ls_dispatched := 0 |}.

Definition orchestration_loop (w : World) (engine : Engine) (dom : string)
  : loop_exit :=
  while_loop w engine max_iterations (start dom).

(** The engine of the agent. *)
Definition agent_engine (w : World) (dom : string) : Engine :=
  fun t st history last_action => decide_next_action w t dom st history last_action.

(** The fallback report after the loop. *)
Definition finalize (w : World) (dom : string) (ls : LoopState) : State :=
  let st := ls_state ls in
  if negb (str_truthy (final_report st)) && nonempty (ranked_repos st)
  then set_final_report st
         (generate_final_report w (S (ls_iterations ls)) (ranked_repos st) dom)
  else st.

(** [state.get(key, default)] for a key that may be missing. *)
Definition state_get {A : Type} (value : option A) (default : A) : A :=
  match value with Some v => v | None => default end.

Definition not_found_message (dom : string) : string :=
  "未能为 '" ++ dom ++ "' 找到相关的GitHub仓库。".

(** The body of the [try] of [run]. *)
Definition run_body (w : World) (dom : string) : result string :=
  _ <- plan_chain w dom ;;
  match orchestration_loop w (agent_engine w dom) dom with
  | Aborted e _ => Raise e
  | Completed ls | Exhausted ls =>
      let state := finalize w dom ls in
      (* the key final_report is set when the dict is created and never
         removed: the lookup always finds it *)
      Ok (state_get (Some (final_report state)) (not_found_message dom))
  end.

Definition run (w : World) (dom : string) : string :=
  match run_body w dom with
  | Ok report => report
  | Raise e => "搜索过程中出错: " ++ exn_str e
  end.

(* ================================================================== *)
(** * The properties, as the specification words them *)

(** The fallback policy as the specification lists it: eight rules in
    priority order, each a condition on the state and what is returned when
    it is the first that holds. *)
Record rule : Type := {
  guard : State -> bool;
  outcome : State -> decision
}.

Definition is_empty {A : Type} (l : list A) : bool := negb (nonempty l).

Definition choose (action : string) (params : pydict) : decision :=
  Decision (JStr action) (JObj params).

Definition spec_fallback_rules : list rule :=
  [ (* 1. keywords empty *)
    {| guard := fun st => is_empty (keywords st);
       outcome := fun _ => choose "GENERATE_KEYWORDS" [] |};
    (* 2. discoveredRepos empty: search with the current keywords *)
    {| guard := fun st => is_empty (github_repos st);
       outcome := fun st =>
         choose "SEARCH_GITHUB" [("keywords", JArr (keywords st))] |};
    (* 3. webQueries empty *)
    {| guard := fun st => is_empty (web_queries st);
       outcome := fun _ => choose "GENERATE_WEB_QUERIES" [] |};
    (* 4. webResults empty and webQueries non-empty: the first query *)
    {| guard := fun st =>
         is_empty (web_search_results st) && nonempty (web_queries st);
       outcome := fun st =>
         choose "SEARCH_WEB"
           [("query",
             hd (JStr ("best github repositories for " ++ domain st))
                (web_queries st))] |};
    (* 5. webResults non-empty and candidateRepoUrls empty: the URL of the
          first web result; the rule decides the action whatever that
          result holds *)
    {| guard := fun st =>
         nonempty (web_search_results st) && is_empty (candidate_repos st);
       outcome := fun st =>
         choose "EXTRACT_GITHUB_LINKS"
           [("url", dict_get_none (hd [] (web_search_results st)) "url")] |};
    (* 6. repositories or candidates, and rankedRepos empty *)
    {| guard := fun st =>
         (nonempty (github_repos st) || nonempty (candidate_repos st))
         && is_empty (ranked_repos st);
       outcome := fun _ => choose "CALCULATE_SCORES" [] |};
    (* 7. rankedRepos non-empty and finalReport empty *)
    {| guard := fun st =>
         nonempty (ranked_repos st) && negb (str_truthy (final_report st));
       outcome := fun _ => choose "GENERATE_REPORT" [] |};
    (* 8. otherwise *)
    {| guard := fun _ => true;
       outcome := fun _ => choose "COMPLETE" [] |} ].

(** The first rule whose condition holds decides. *)
Fixpoint first_satisfied (rules : list rule) (st : State) : option decision :=
  match rules with
  | [] => None
  | r :: rules' =>
      if guard r st then Some (outcome r st) else first_satisfied rules' st
  end.

(** All data fields hold something. *)
Definition all_populated (st : State) : Prop :=
  keywords st <> [] /\ github_repos st <> [] /\ web_queries st <> [] /\
  web_search_results st <> [] /\ candidate_repos st <> [] /\
  ranked_repos st <> [] /\ final_report st <> "".

(** The states the loop of [run] passes through. *)
Inductive reachable (w : World) (dom : string) : LoopState -> Prop :=
| reach_start : reachable w dom (start dom)
| reach_step : forall ls ls',
    reachable w dom ls ->
    ls_iterations ls < max_iterations ->
    loop_body w (agent_engine w dom) ls = Continue ls' ->
    reachable w dom ls'.

(** [rankedRepos] is non-empty whenever [finalReport] is non-empty. *)
Definition report_has_ranking (st : State) : Prop :=
  final_report st <> "" -> ranked_repos st <> [].

(** A decision the contract of the Decision Engine allows: one of the nine
    actions, with a mapping. *)
Definition enumerated (d : decision) : Prop :=
  exists name params,
    d = Decision (JStr name) (JObj params) /\ In name ACTIONS.

(** The state in which rule 5 of the fallback has no URL to return. *)
Definition first_result_lacks_url (st : State) : bool :=
  nonempty (keywords st) && nonempty (github_repos st) &&
  nonempty (web_queries st) && is_empty (candidate_repos st) &&
  match web_search_results st with
  | first :: _ => negb (dict_has first "url")
  | [] => false
  end.

(** A state with keywords, search results, web queries and one web
    result, which has a title and no [url]; no candidate yet. *)
Definition urlless_state : State :=
  {| domain := "containerization";
     keywords := [JStr "docker"];
     github_repos := [JObj [("html_url", JStr "https://github.com/moby/moby")]];
     web_queries := [JStr "best container repositories"];
     web_search_results := [[("title", JStr "Best of")]];
     candidate_repos := [];
     ranked_repos := [];
     final_report := "" |}.

(** The list is in descending order of score. *)
Definition descending (l : list ScoredRepo) : Prop :=
  StronglySorted (fun a b => (sr_score b <= sr_score a)%R) l.

(** The scoring formula of the specification. *)
Definition spec_score (stars forks : Z) (recency : R) : R :=
  ((0.7 * ln (IZR stars + 1) + 0.3 * ln (IZR forks + 1)) * recency)%R.

(* ================================================================== *)
(** * Concrete worlds for the runs below *)

(** A model that always answers [reply], gateways that answer with fixed
    data, a clock at [now]. *)
Definition scripted_world (reply : string) (now : Z)
    (parse_time : string -> option Z) : World :=
  {| json_loads := py_json_loads;
     strptime := parse_time;
     utcnow := fun _ => now;
     plan_chain := fun _ => Ok "1. keywords 2. search 3. rank 4. report";
     llm_invoke := fun _ _ _ _ => Ok reply;
     generate_keywords := fun _ _ => [JStr "docker"; JStr "containers"];
     generate_web_queries := fun _ _ => [JStr "best container repositories"];
     generate_final_report := fun _ _ dom => "# Top repositories for " ++ dom;
     github_search := fun _ _ =>
       [JObj [("html_url", JStr "https://github.com/moby/moby");
              ("full_name", JStr "moby/moby");
              ("stargazers_count", JInt 100); ("forks_count", JInt 10);
              ("pushed_at", JStr "2024-01-01T00:00:00Z")]];
     get_repo_details := fun _ _ => None;
     search_web := fun _ _ =>
       [[("title", JStr "Best of"); ("url", JStr "https://example.com/best");
         ("snippet", JStr "")]];
     extract_github_links := fun _ _ => ["https://github.com/moby/moby"] |}.

Definition simple_world (reply : string) : World :=
  scripted_world reply 0 (fun _ => None).

(** A state in which every data field holds something. *)
Definition populated_state : State :=
  {| domain := "containerization";
     keywords := [JStr "docker"];
     github_repos := [JObj [("html_url", JStr "https://github.com/moby/moby")]];
     web_queries := [JStr "best container repositories"];
     web_search_results := [[("url", JStr "https://example.com/best")]];
     candidate_repos := ["https://github.com/moby/moby"];
     ranked_repos := [{| sr_repo := [("url", JStr "https://github.com/moby/moby")];
                         sr_score := 0%R |}];
     final_report := "# report" |}.

(** A repository record as the agent builds it: star and fork counts under
    [stars] and [forks], none under the names of GitHub's search items. *)
Definition counts (repo : pydict) (stars forks : Z) : Prop :=
  dict_get repo "stars" = Some (JInt stars) /\
  dict_get repo "forks" = Some (JInt forks) /\
  (0 <= stars)%Z /\ (0 <= forks)%Z /\
  dict_get repo "stargazers_count" = None /\
  dict_get repo "forks_count" = None.

(** A record with 100 stars and 10 forks, pushed at the instant written in
    [pushed_at]. *)
Definition sample_repo (pushed_at : json) : pydict :=
  [("url", JStr "https://github.com/moby/moby"); ("full_name", JStr "moby/moby");
   ("stars", JInt 100); ("forks", JInt 10); ("pushed_at", pushed_at)].

(** Interval arithmetic for [ln]: numbers are integers over [scale], and a
    square root is rounded up or down to such a number. *)
Definition scale : Z := 10 ^ 17.

Definition root_up (n : Z) : Z := Z.sqrt_up (n * scale).
Definition root_down (n : Z) : Z := Z.sqrt (n * scale).

Fixpoint iterate (f : Z -> Z) (k : nat) (n : Z) : Z :=
  match k with
  | O => n
  | S k' => iterate f k' (f n)
  end.

Definition ratio (n : Z) : R := (IZR n / IZR scale)%R.

(** A reader of time stamps in the form GitHub sends them, twenty
    characters YYYY-MM-DDTHH:MM:SSZ, for the concrete runs: the instant in
    microseconds since 1970-01-01.  ([strptime] accepts a few more
    spellings, such as fields of one digit; the development takes it as a
    field of [World].) *)
Definition two_digits (a b : ascii) : option Z :=
  match digit_val a, digit_val b with
  | Some x, Some y => Some (10 * x + y)%Z
  | _, _ => None
  end.

Definition leap_year (y : Z) : bool :=
  ((y mod 4 =? 0) && (negb (y mod 100 =? 0) || (y mod 400 =? 0)))%Z.

Definition days_in_month (y m : Z) : Z :=
  (if m =? 2 then (if leap_year y then 29 else 28)
   else if (m =? 4) || (m =? 6) || (m =? 9) || (m =? 11) then 30
   else 31)%Z.

(** Days from 1970-01-01 to the given date of the Gregorian calendar. *)
Definition days_from_civil (y m d : Z) : Z :=
  (let y' := if m <=? 2 then y - 1 else y in
   let era := y' / 400 in
   let yoe := y' - era * 400 in
   let doy := (153 * (if 2 <? m then m - 3 else m + 9) + 2) / 5 + d - 1 in
   let doe := yoe * 365 + yoe / 4 - yoe / 100 + doy in
   era * 146097 + doe - 719468)%Z.

Definition iso_strptime (s : string) : option Z :=
  match s with
  | String y1 (String y2 (String y3 (String y4 (String h1
    (String m1 (String m2 (String h2
    (String d1 (String d2 (String sep
    (String hh1 (String hh2 (String c1
    (String mi1 (String mi2 (String c2
    (String s1 (String s2 (String zz EmptyString))))))))))))))))))) =>
      if is_ch h1 45 && is_ch h2 45 && is_ch sep 84 && is_ch c1 58 &&
         is_ch c2 58 && is_ch zz 90
      then
        match two_digits y1 y2, two_digits y3 y4, two_digits m1 m2,
              two_digits d1 d2, two_digits hh1 hh2, two_digits mi1 mi2,
              two_digits s1 s2 with
        | Some ya, Some yb, Some m, Some d, Some hh, Some mi, Some ss =>
            let y := (100 * ya + yb)%Z in
            if ((1 <=? y) && (1 <=? m) && (m <=? 12) && (1 <=? d) &&
                (d <=? days_in_month y m) && (hh <=? 23) && (mi <=? 59) &&
                (ss <=? 59))%Z
            then Some ((((days_from_civil y m d * 24 + hh) * 60 + mi) * 60 + ss)
                       * 1000000)%Z
            else None
        | _, _, _, _, _, _, _ => None
        end
      else None
  | _ => None
  end.

(** 2024-01-06 12:00:00 UTC, in microseconds. *)
Definition noon_6_jan_2024 : Z := 1704542400000000.

(** A world whose model never says anything usable, with the clock at
    noon of 6 January 2024. *)
Definition dated_world : World :=
  scripted_world "I cannot decide." noon_6_jan_2024 iso_strptime.

(** An engine that keeps asking for a web search. *)
Definition restless_engine : Engine :=
  fun _ _ _ _ => Ok (Some (Decision (JStr "SEARCH_WEB") (JObj []))).

(** A world in which nothing is found: the model answers in prose, the
    searches come back empty. *)
Definition barren_world : World :=
  {| json_loads := py_json_loads;
     strptime := iso_strptime;
     utcnow := fun _ => noon_6_jan_2024;
     plan_chain := fun _ => Ok "1. keywords 2. search 3. rank 4. report";
     llm_invoke := fun _ _ _ _ => Ok "I cannot decide.";
     generate_keywords := fun _ _ => [JStr "docker"; JStr "containers"];
     generate_web_queries := fun _ _ => [JStr "best container repositories"];
     generate_final_report := fun _ _ dom => "# Top repositories for " ++ dom;
     github_search := fun _ _ => [];
     get_repo_details := fun _ _ => None;
     search_web := fun _ _ => [];
     extract_github_links := fun _ _ => [] |}.

(** A model that answers COMPLETE at once. *)
Definition completing_world : World :=
  simple_world (j "{'action': 'COMPLETE', 'params': {}, 'reasoning': 'done'}").

(** A model that sends the query of a web search in a list. *)
Definition listing_world : World :=
  simple_world
    (j "{'action': 'SEARCH_WEB', 'params': ['docker'], 'reasoning': 'search'}").

(* ================================================================== *)
(** * Further definitions: properties of the ranking and of the state *)

From Stdlib Require Import Permutation.

(** The candidates of a scoring pass, scored, in the order in which
    [_execute_action] collects them. *)
Definition scored_candidates (w : World) (t : nat) (st : State)
  : list ScoredRepo :=
  map (score_repo w t)
      (add_candidates w t (candidate_repos st) (from_github (github_repos st))).

(** The record scores exactly [v]. *)
Definition same_score (v : R) (r : ScoredRepo) : bool :=
  if Req_dec_T (sr_score r) v then true else false.

(** A count field of a record holds an integer or is missing. *)
Definition int_or_missing (repo : pydict) (k : string) : Prop :=
  dict_get repo k = None \/ exists n, dict_get repo k = Some (JInt n).

Definition integer_counts (repo : pydict) : Prop :=
  int_or_missing repo "stars" /\ int_or_missing repo "stargazers_count" /\
  int_or_missing repo "forks" /\ int_or_missing repo "forks_count".

(** The candidate pool holds no URL twice and no empty URL. *)
Definition clean_pool (l : list string) : Prop :=
  NoDup l /\ ~ In "" l.

(** The action of the newest history entry. *)
Definition newest_action (history : list HistoryEntry) : option json :=
  match rev history with
  | [] => None
  | entry :: _ => Some (h_action entry)
  end.

(** The action is none of those [_execute_action] knows. *)
Definition unknown_action (action : json) : Prop :=
  forall name, In name ACTIONS -> eq_str action name = false.

(** A count that makes the scoring fail: a negative integer, or a value
    that is truthy and no number. *)
Definition bad_count (v : json) : Prop :=
  match v with
  | JInt n => (n < 0)%Z
  | JStr s => s <> ""
  | JArr l => l <> []
  | JObj d => d <> []
  | _ => False
  end.

(** The dated world with a clock that advances by 40 days at every
    iteration. *)
Definition ticking_world : World :=
  {| json_loads := json_loads dated_world;
     strptime := strptime dated_world;
     utcnow := fun t => (noon_6_jan_2024 + Z.of_nat t * (40 * day_us))%Z;
     plan_chain := plan_chain dated_world;
     llm_invoke := llm_invoke dated_world;
     generate_keywords := generate_keywords dated_world;
     generate_web_queries := generate_web_queries dated_world;
     generate_final_report := generate_final_report dated_world;
     github_search := github_search dated_world;
     get_repo_details := get_repo_details dated_world;
     search_web := search_web dated_world;
     extract_github_links := extract_github_links dated_world |}.

(** A search item as GitHub sends it. *)
Definition sample_item : pydict :=
  [("html_url", JStr "https://github.com/moby/moby");
   ("full_name", JStr "moby/moby");
   ("stargazers_count", JInt 100); ("forks_count", JInt 10);
   ("pushed_at", JStr "2024-01-01T00:00:00Z")].

(** The action reads its parameters with [params.get]. *)
Definition reads_params (action : json) : Prop :=
  action = JStr "SEARCH_GITHUB" \/ action = JStr "SEARCH_WEB" \/
  action = JStr "EXTRACT_GITHUB_LINKS" \/ action = JStr "GET_REPO_DETAILS".

Definition is_mapping (v : json) : bool :=
  match v with JObj _ => true | _ => false end.

(** The states the loop passes through, with any engine. *)
Inductive reachable_with (w : World) (engine : Engine) (dom : string)
  : LoopState -> Prop :=
| reach_with_start : reachable_with w engine dom (start dom)
| reach_with_step : forall ls ls',
    reachable_with w engine dom ls ->
    ls_iterations ls < max_iterations ->
    loop_body w engine ls = Continue ls' ->
    reachable_with w engine dom ls'.

(* ================================================================== *)
(** * Further definitions: a run driven by the fallback alone *)

(** The model is out of reach: every call of the LLM raises. *)
Definition mute (w : World) (dom : string) : Prop :=
  forall t st history, exists e, llm_invoke w t dom st history = Raise e.

Definition is_str (v : json) : Prop := exists s, v = JStr s.

(** A GitHub search item the scoring pass accepts. *)
Definition usable_item (v : json) : Prop :=
  exists item, v = JObj item /\ truthy (dict_get_none item "html_url") = true.

(** Web results the fallback and the extraction can work with: the first
    one has the key [url], and one of them has a truthy [url]. *)
Definition usable_results (results : list pydict) : Prop :=
  (exists first rest url,
      results = first :: rest /\ dict_get first "url" = Some url) /\
  (exists r, In r results /\ truthy (dict_get_none r "url") = true).

(** The planner, the generators and the searches deliver, at every call. *)
Record productive (w : World) (dom : string) : Prop := {
  pr_plan : exists plan, plan_chain w dom = Ok plan;
  pr_keywords : forall t,
    generate_keywords w t dom <> [] /\
    Forall is_str (generate_keywords w t dom);
  pr_github : forall t kw, Exists usable_item (github_search w t kw);
  pr_queries : forall t, generate_web_queries w t dom <> [];
  pr_web : forall t q, usable_results (search_web w t q);
  pr_report : forall t ranked, generate_final_report w t ranked dom <> ""
}.

(** Every page read holds a repository link. *)
Definition finds_links (w : World) : Prop :=
  forall t url, exists link, In link (extract_github_links w t url) /\ link <> "".

(** No page read holds a repository link. *)
Definition finds_no_links (w : World) : Prop :=
  forall t url, extract_github_links w t url = [].

(** The order in which the fallback works through the actions. *)
Definition pipeline : list string :=
  ["GENERATE_KEYWORDS"; "SEARCH_GITHUB"; "GENERATE_WEB_QUERIES"; "SEARCH_WEB";
   "EXTRACT_GITHUB_LINKS"; "CALCULATE_SCORES"; "GENERATE_REPORT"].

(** The first [k] fields of the state hold data, the others are empty. *)
Definition phase (k : nat) (st : State) : Prop :=
  nonempty (keywords st) = (1 <=? k)%nat /\
  nonempty (github_repos st) = (2 <=? k)%nat /\
  nonempty (web_queries st) = (3 <=? k)%nat /\
  nonempty (web_search_results st) = (4 <=? k)%nat /\
  nonempty (candidate_repos st) = (5 <=? k)%nat /\
  nonempty (ranked_repos st) = (6 <=? k)%nat /\
  str_truthy (final_report st) = (7 <=? k)%nat.

(** The loop after [k] passes of a run driven by the fallback. *)
Definition on_track (dom : string) (k : nat) (ls : LoopState) : Prop :=
  phase k (ls_state ls) /\
  domain (ls_state ls) = dom /\
  Forall is_str (keywords (ls_state ls)) /\
  (2 <= k -> Exists usable_item (github_repos (ls_state ls))) /\
  (4 <= k -> usable_results (web_search_results (ls_state ls))) /\
  map h_action (ls_history ls) = map JStr (firstn k pipeline) /\
  Forall (fun entry => is_mapping (h_params entry) = true) (ls_history ls) /\
  ls_iterations ls = k.

(** The scripted world with a model that cannot be reached. *)
Definition mute_world : World :=
  {| json_loads := json_loads dated_world;
     strptime := strptime dated_world;
     utcnow := utcnow dated_world;
     plan_chain := plan_chain dated_world;
     llm_invoke := fun _ _ _ _ => Raise (ExternalError "connection refused");
     generate_keywords := generate_keywords dated_world;
     generate_web_queries := generate_web_queries dated_world;
     generate_final_report := generate_final_report dated_world;
     github_search := github_search dated_world;
     get_repo_details := get_repo_details dated_world;
     search_web := search_web dated_world;
     extract_github_links := extract_github_links dated_world |}.

(** The loop once the web results are in and no link has been found. *)
Definition waiting_for_links (dom : string) (ls : LoopState) : Prop :=
  phase 4 (ls_state ls) /\
  domain (ls_state ls) = dom /\
  Forall is_str (keywords (ls_state ls)) /\
  usable_results (web_search_results (ls_state ls)) /\
  Forall (fun entry => is_mapping (h_params entry) = true) (ls_history ls).

(** The same world when the pages read hold no repository link. *)
Definition linkless_world : World :=
  {| json_loads := json_loads mute_world;
     strptime := strptime mute_world;
     utcnow := utcnow mute_world;
     plan_chain := plan_chain mute_world;
     llm_invoke := llm_invoke mute_world;
     generate_keywords := generate_keywords mute_world;
     generate_web_queries := generate_web_queries mute_world;
     generate_final_report := generate_final_report mute_world;
     github_search := github_search mute_world;
     get_repo_details := get_repo_details mute_world;
     search_web := search_web mute_world;
     extract_github_links := fun _ _ => [] |}.

(** [json.loads] raises nothing but [JSONDecodeError]. *)
Definition decoder_fails_softly (w : World) : Prop :=
  forall s e, json_loads w s <> OtherError e.

(** The object method 5 of the interpreter builds. *)
Definition regex_decision (action : string) (params : json) (reasoning : string)
  : json :=
  JObj [("action", JStr action); ("params", params);
        ("reasoning", JStr reasoning)].

(* ================================================================== *)
(** * WebTools.extract_github_links: the links of a page

    The page itself comes from [requests] and [BeautifulSoup]; what the
    function does with it is the loop over the [href] values of its [a]
    elements. *)

Definition is_alnum (c : ascii) : bool :=
  byte_in 48 57 c || byte_in 65 90 c || byte_in 97 122 c.

(** The class [a-zA-Z0-9\-]. *)
Definition owner_char (c : ascii) : bool := is_alnum c || is_ch c 45.

(** The class [a-zA-Z0-9\-\._]. *)
Definition repo_char (c : ascii) : bool :=
  is_alnum c || is_ch c 45 || is_ch c 46 || is_ch c 95.

(** The pattern https?://github\.com/[a-zA-Z0-9\-]+/[a-zA-Z0-9\-\._]+ for
    one of the two schemes the optional s stands for. *)
Definition repo_link_pattern (scheme : string) : pattern :=
  [Lit (scheme ++ "://github.com/"); One owner_char; Star owner_char;
   Lit "/"; One repo_char; Star repo_char].

(** [re.match(pattern, href)]: a match at the start of [href]; the optional
    s is tried first. *)
Definition is_repo_link (href : string) : bool :=
  match match_here (repo_link_pattern "https") href with
  | Some _ => true
  | None =>
      match match_here (repo_link_pattern "http") href with
      | Some _ => true
      | None => false
      end
  end.

(** What is left of the text after a match of [.*$]: nothing when the text
    has no line feed, the line feed when it is the last character; [None]
    when there is no match, a line feed being followed by more text. *)
Fixpoint line_end (s : string) : option string :=
  match s with
  | EmptyString => Some EmptyString
  | String c s' =>
      if is_ch c 10 then
        match s' with
        | EmptyString => Some s
        | String _ _ => None
        end
      else line_end s'
  end.

(** [re.sub(r'[#?].*$', '', href)]: the text from the first # or ? after
    which the line ends is removed. *)
Fixpoint drop_fragment (href : string) : string :=
  match href with
  | EmptyString => EmptyString
  | String c s' =>
      if is_ch c 35 || is_ch c 63 then
        match line_end s' with
        | Some kept => kept
        | None => String c (drop_fragment s')
        end
      else String c (drop_fragment s')
  end.

(** [s.rstrip('/')] *)
Fixpoint rstrip_slash (s : string) : string :=
  match s with
  | EmptyString => EmptyString
  | String c s' =>
      match rstrip_slash s' with
      | EmptyString => if is_ch c 47 then EmptyString else String c EmptyString
      | String _ _ as kept => String c kept
      end
  end.

Definition clean_url (href : string) : string :=
  rstrip_slash (drop_fragment href).

(** The loop over the links of the page. *)
Fixpoint collect_links (github_urls hrefs : list string) : list string :=
  match hrefs with
  | [] => github_urls
  | href :: rest =>
      if is_repo_link href then
        if negb (existsb (String.eqb (clean_url href)) github_urls)
        then collect_links (github_urls ++ [clean_url href]) rest
        else collect_links github_urls rest
      else collect_links github_urls rest
  end.

(** [page] is what the request and the parser give: the status code and
    the [href] values, or an exception. *)
Definition extract_links_of (page : result (Z * list string)) : list string :=
  match page with
  | Ok (status_code, hrefs) =>
      if negb (status_code =? 200)%Z then [] else collect_links [] hrefs
  | Raise _ => []
  end.

(* ================================================================== *)
(** * GithubTools.get_repo_details: the reading of the URL *)

Definition continuation (c : ascii) : bool := byte_in 128 191 c.

(** One character other than a line feed, as the dot of a pattern matches
    it: the UTF-8 sequences of one to four bytes. *)
Definition dot : list pattern :=
  [[One (fun c => byte_in 0 127 c && negb (is_ch c 10))];
   [One (byte_in 192 223); One continuation];
   [One (byte_in 224 239); One continuation; One continuation];
   [One (byte_in 240 247); One continuation; One continuation;
    One continuation]].

(** The pattern github.com/([^/]+)/([^/]+), once for each way to match the
    dot; the groups are the last five atoms but one. *)
Definition repo_url_patterns : list pattern :=
  map (fun d =>
         [Lit "github"] ++ d ++
         [Lit "com/"; One (not_char "/"); Star (not_char "/"); Lit "/";
          One (not_char "/"); Star (not_char "/")])%list
      dot.

Fixpoint first_match (ps : list pattern) (s : string) : option (list string) :=
  match ps with
  | [] => None
  | p :: ps' =>
      match match_here p s with
      | Some pieces => Some pieces
      | None => first_match ps' s
      end
  end.

(** [re.search] for a pattern with alternatives. *)
Fixpoint re_search_any (ps : list pattern) (s : string)
  : option (list string) :=
  match first_match ps s with
  | Some pieces => Some pieces
  | None =>
      match s with
      | String _ s' => re_search_any ps s'
      | EmptyString => None
      end
  end.

(** [owner, repo = match.groups()] *)
Definition owner_and_repo (repo_url : string) : option (string * string) :=
  match re_search_any repo_url_patterns repo_url with
  | Some ps =>
      let n := List.length ps in
      Some (pieces (n - 5) 2 ps, pieces (n - 2) 2 ps)
  | None => None
  end.

(** The address the details are asked from; [None] when the function
    returns the empty dict without a request: the URL is no string
    ([re.search] raises) or the pattern does not match. *)
Definition api_url (repo_url : json) : option string :=
  match repo_url with
  | JStr s =>
      match owner_and_repo s with
      | Some (owner, repo) =>
          Some ("https://api.github.com/repos/" ++ owner ++ "/" ++ repo)
      | None => None
      end
  | _ => None
  end.

(* ================================================================== *)
(** * WebTools.search_web: the records *)

Definition tavily_record (result : pydict) : pydict :=
  [("title", dict_get_default result "title" (JStr ""));
   ("url", dict_get_default result "url" (JStr ""));
   ("snippet", dict_get_default result "content" (JStr ""))].

Definition duckduckgo_record (result : pydict) : pydict :=
  [("title", dict_get_default result "Text" (JStr ""));
   ("url", dict_get_default result "FirstURL" (JStr ""));
   ("snippet", JStr "")].

(** [for result in items: results.append(record(result))].  The second
    component tells whether the loop came to its end; [result.get] raises
    on an item that is no dict, and the records appended so far stay. *)
Fixpoint append_records (record : pydict -> pydict) (items : list json)
    (results : list pydict) : list pydict * bool :=
  match items with
  | [] => (results, true)
  | JObj result :: rest =>
      append_records record rest (results ++ [record result])
  | _ :: _ => (results, false)
  end.

(** The same loop over any value: a dict is visited by its keys and a
    string by its characters, strings both, so the first one raises; a
    value that cannot be iterated raises at once. *)
Definition loop_records (record : pydict -> pydict) (v : json)
    (results : list pydict) : list pydict * bool :=
  match v with
  | JArr items => append_records record items results
  | JObj [] => (results, true)
  | JStr EmptyString => (results, true)
  | _ => (results, false)
  end.

(** The body of a [try]: [data.get(key, [])] and the loop. *)
Definition records_of (record : pydict -> pydict) (key : string)
    (data : result json) (results : list pydict) : list pydict * bool :=
  match data with
  | Ok (JObj d) => loop_records record (dict_get_default d key (JArr [])) results
  | _ => (results, false)
  end.

(** [tavily] is the answer of [client.search], [duckduckgo] the status
    code of the answer and what its [json()] gives; each may be an
    exception. *)
Definition search_web_of (tavily_api_key : json) (tavily : result json)
    (duckduckgo : result (Z * result json)) : list pydict :=
  let tried :=
    if truthy tavily_api_key then records_of tavily_record "results" tavily []
    else ([], false) in
  if snd tried && nonempty (fst tried) then fst tried
  else
    match duckduckgo with
    | Ok (status_code, data) =>
        if (status_code =? 200)%Z
        then fst (records_of duckduckgo_record "Results" data (fst tried))
        else fst tried
    | Raise _ => fst tried
    end.

(** The gateway of the world answers as [search_web] is written. *)
Definition web_search_as_coded (w : World) : Prop :=
  forall t query, exists tavily_api_key tavily duckduckgo,
    search_web w t query = search_web_of tavily_api_key tavily duckduckgo.

(** A web result as [search_web] builds it. *)
Definition web_record (r : pydict) : Prop :=
  map fst r = ["title"; "url"; "snippet"].

(** Every character of the text is of the class. *)
Fixpoint all_chars (cls : ascii -> bool) (s : string) : bool :=
  match s with
  | EmptyString => true
  | String c s' => cls c && all_chars cls s'
  end.


(** The message of [', '.join] for an item that is no string. *)
Definition join_error (i : nat) (v : json) : exn :=
  TypeError ("sequence item " ++ nat_str i ++ ": expected str instance, "
             ++ py_type_name v ++ " found").

(** The message of [params.items()] for params that are no mapping. *)
Definition items_error (params : json) : exn :=
  AttributeError ("'" ++ py_type_name params
                  ++ "' object has no attribute 'items'").

(** The entry can be formatted by [_format_history_summary]. *)
Definition formattable (entry : HistoryEntry) : Prop :=
  truthy (h_params entry) = false \/ is_mapping (h_params entry) = true.

(** The scripted world with a keyword generator that passes on a list of
    objects, as a model may send it. *)
Definition careless_world : World :=
  {| json_loads := json_loads dated_world;
     strptime := strptime dated_world;
     utcnow := utcnow dated_world;
     plan_chain := plan_chain dated_world;
     llm_invoke := llm_invoke dated_world;
     generate_keywords := fun _ _ =>
       [JStr "docker"; JObj [("keyword", JStr "containers")]];
     generate_web_queries := generate_web_queries dated_world;
     generate_final_report := generate_final_report dated_world;
     github_search := github_search dated_world;
     get_repo_details := get_repo_details dated_world;
     search_web := search_web dated_world;
     extract_github_links := extract_github_links dated_world |}.

(* ================================================================== *)
(** * Basic facts *)

Lemma eq_str_true : forall a s, eq_str a s = true -> a = JStr s.
Proof.
  intros a s H. destruct a; simpl in H; try discriminate.
  apply String.eqb_eq in H. now subst.
Qed.

Lemma eq_str_refl : forall s, eq_str (JStr s) s = true.
Proof. intros s. simpl. apply String.eqb_refl. Qed.

Lemma nonempty_true : forall (A : Type) (l : list A), nonempty l = true <-> l <> [].
Proof. intros A [|x l]; simpl; split; congruence. Qed.

Lemma nonempty_false : forall (A : Type) (l : list A), nonempty l = false <-> l = [].
Proof. intros A [|x l]; simpl; split; congruence. Qed.

Lemma str_truthy_true : forall s, str_truthy s = true <-> s <> "".
Proof. intros [|c s]; simpl; split; congruence. Qed.

Lemma str_truthy_false : forall s, str_truthy s = false <-> s = "".
Proof. intros [|c s]; simpl; split; congruence. Qed.

(* ================================================================== *)
(** * The fallback policy *)

(** The decision tree of the code and the rule list of the specification
    decide alike wherever the first web result, when rule 5 asks for it,
    has a URL. *)
Lemma fallback_refines_rules :
  forall st,
    first_result_lacks_url st = false ->
    fallback_decision st = first_satisfied spec_fallback_rules st.
Proof.
  intros st Hurl.
  unfold first_result_lacks_url, is_empty, dict_has in Hurl.
  unfold fallback_decision, spec_fallback_rules, first_satisfied, is_empty,
    choose; cbn [guard outcome].
  destruct (keywords st) as [|k ks]; cbn [nonempty negb andb orb] in *;
    [reflexivity|].
  destruct (github_repos st) as [|g gs]; cbn [nonempty negb andb orb] in *;
    [reflexivity|].
  destruct (web_queries st) as [|q qs]; cbn [nonempty negb andb orb hd] in *;
    [reflexivity|].
  destruct (web_search_results st) as [|r rs]; cbn [nonempty negb andb orb hd] in *;
    [reflexivity|].
  destruct (candidate_repos st) as [|c cs]; cbn [nonempty negb andb orb] in *;
    [|reflexivity].
  unfold dict_get_none, dict_get_default.
  destruct (dict_get r "url") as [url|]; [reflexivity | discriminate].
Qed.

(** In a rule list the first rule whose condition holds decides, whatever
    the rules after it say. *)
Lemma first_satisfied_wins :
  forall rules st k r,
    nth_error rules k = Some r ->
    guard r st = true ->
    (forall i r', i < k -> nth_error rules i = Some r' -> guard r' st = false) ->
    first_satisfied rules st = Some (outcome r st).
Proof.
  induction rules as [|r0 rules IH]; intros st k r Hk Hg Hbefore.
  - destruct k; discriminate.
  - destruct k as [|k]; simpl in Hk.
    + injection Hk as ->. simpl. now rewrite Hg.
    + simpl. rewrite (Hbefore 0 r0 (Nat.lt_0_succ k) eq_refl).
      apply (IH st k r Hk Hg).
      intros i r' Hi Hr'. apply (Hbefore (S i) r'); [lia | exact Hr'].
Qed.

(** The deterministic fallback of [_decide_next_action] against the eight
    rules of the specification.  Wherever the first web result has a URL
    when rule 5 asks for it, the fallback returns what the first satisfied
    rule returns; in every state with no keywords it returns
    GENERATE_KEYWORDS, and in every state in which all data fields (the
    final report included) are populated it returns COMPLETE. *)
Theorem fallback_precedence_chain :
  forall st,
    List.length spec_fallback_rules = 8 /\
    (first_result_lacks_url st = false ->
     forall k r,
        nth_error spec_fallback_rules k = Some r ->
        guard r st = true ->
        (forall i r', i < k -> nth_error spec_fallback_rules i = Some r' ->
                      guard r' st = false) ->
        fallback_decision st = Some (outcome r st)) /\
    (keywords st = [] ->
     fallback_decision st = Some (Decision (JStr "GENERATE_KEYWORDS") (JObj []))) /\
    (all_populated st ->
     fallback_decision st = Some (Decision (JStr "COMPLETE") (JObj []))).
Proof.
  intros st. split; [reflexivity|]. split; [|split].
  - intros Hurl k r Hk Hg Hbefore. rewrite fallback_refines_rules by exact Hurl.
    now apply (first_satisfied_wins spec_fallback_rules st k r).
  - intros Hkw. unfold fallback_decision. now rewrite Hkw.
  - intros (Hk & Hg & Hq & Hr & Hc & Hrk & Hf).
    unfold fallback_decision.
    apply nonempty_true in Hk, Hg, Hq, Hr, Hc, Hrk.
    apply str_truthy_true in Hf.
    now rewrite Hk, Hg, Hq, Hr, Hc, Hrk, Hf.
Qed.

(** The chain at three states: a fresh state, a fully populated one, and
    one that holds keywords only (rule 2 is the first that holds). *)
Lemma fallback_precedence_chain_witness :
  fallback_decision (initial_state "containerization")
    = Some (Decision (JStr "GENERATE_KEYWORDS") (JObj [])) /\
  fallback_decision populated_state
    = Some (Decision (JStr "COMPLETE") (JObj [])) /\
  fallback_decision (set_keywords (initial_state "containerization") [JStr "docker"])
    = Some (Decision (JStr "SEARCH_GITHUB") (JObj [("keywords", JArr [JStr "docker"])])).
Proof.
  split; [|split].
  - apply (fallback_precedence_chain (initial_state "containerization")).
    reflexivity.
  - apply (fallback_precedence_chain populated_state).
    unfold all_populated, populated_state; simpl.
    repeat split; discriminate.
  - pose proof (fallback_precedence_chain
                  (set_keywords (initial_state "containerization") [JStr "docker"]))
      as (_ & Hchain & _).
    apply (Hchain eq_refl 1
             {| guard := fun st => is_empty (github_repos st);
                outcome := fun st =>
                  choose "SEARCH_GITHUB" [("keywords", JArr (keywords st))] |}).
    + reflexivity.
    + reflexivity.
    + intros i r' Hi Hr'. destruct i as [|i]; [|lia].
      simpl in Hr'. injection Hr' as <-. reflexivity.
Defined.

(** C3: the code departs from the claim.  In a state with keywords, search
    results, web queries and web results but no candidate, the first four
    rules do not apply and rule 5 does: the first satisfied rule decides
    EXTRACT_GITHUB_LINKS.  When the first web result has no [url], the
    decision tree of the code ends in that branch without a [return]: the
    fallback gives no decision at all, and [_decide_next_action] returns
    [None] where the chain says EXTRACT_GITHUB_LINKS. *)
Theorem fallback_misses_rule_five :
  (forall i r, i < 4 -> nth_error spec_fallback_rules i = Some r ->
               guard r urlless_state = false) /\
  (exists r, nth_error spec_fallback_rules 4 = Some r /\
             guard r urlless_state = true) /\
  first_satisfied spec_fallback_rules urlless_state
    = Some (Decision (JStr "EXTRACT_GITHUB_LINKS") (JObj [("url", JNull)])) /\
  fallback_decision urlless_state = None /\
  decide_next_action (simple_world "I cannot decide.") 1 "containerization"
                     urlless_state [] None
    = Ok None.
Proof.
  split; [|split; [|split; [|split]]].
  - intros i r Hi Hr.
    destruct i as [|[|[|[|i]]]]; try lia;
      cbn in Hr; injection Hr as <-; reflexivity.
  - eexists. split; reflexivity.
  - reflexivity.
  - reflexivity.
  - vm_compute. reflexivity.
Qed.

(* ================================================================== *)
(** * The loop: bound and exits *)

Lemma loop_body_continue :
  forall w engine ls ls',
    loop_body w engine ls = Continue ls' ->
    ls_iterations ls' = S (ls_iterations ls) /\
    ls_dispatched ls' = S (ls_dispatched ls) /\
    List.length (ls_history ls') = S (List.length (ls_history ls)).
Proof.
  intros w engine ls ls' H. unfold loop_body in H.
  destruct (engine _ _ _ _) as [[[action params]|]|e]; try discriminate.
  destruct (eq_str action "COMPLETE"); try discriminate.
  injection H as <-. cbn. rewrite length_app. cbn. lia.
Qed.

Lemma loop_body_break :
  forall w engine ls ls',
    loop_body w engine ls = Break ls' ->
    ls_state ls' = ls_state ls /\ ls_history ls' = ls_history ls /\
    ls_last_action ls' = ls_last_action ls /\
    ls_dispatched ls' = ls_dispatched ls /\
    ls_iterations ls' = S (ls_iterations ls) /\
    exists params,
      engine (S (ls_iterations ls)) (ls_state ls) (ls_history ls)
             (ls_last_action ls)
      = Ok (Some (Decision (JStr "COMPLETE") params)).
Proof.
  intros w engine ls ls' H. unfold loop_body in H.
  destruct (engine _ _ _ _) as [[[action params]|]|e]; try discriminate.
  destruct (eq_str action "COMPLETE") eqn:Ha; try discriminate.
  injection H as <-. cbn. apply eq_str_true in Ha. subst action.
  repeat split; eauto.
Qed.

(** Counting from any loop state: the history grows by one entry per
    dispatch; [remaining] passes make at most [remaining] dispatches, all
    of them only when the loop runs out of passes, and then the counter
    [iterations] has grown by [remaining]. *)
Lemma while_loop_counts :
  forall w engine remaining ls,
    let x := while_loop w engine remaining ls in
    ls_dispatched (exit_state x) <= ls_dispatched ls + remaining /\
    ls_iterations (exit_state x) <= ls_iterations ls + remaining /\
    List.length (ls_history (exit_state x)) + ls_dispatched ls
      = List.length (ls_history ls) + ls_dispatched (exit_state x) /\
    (forall ls', x = Exhausted ls' ->
                 ls_dispatched ls' = ls_dispatched ls + remaining /\
                 ls_iterations ls' = ls_iterations ls + remaining) /\
    (forall ls', x = Completed ls' ->
                 ls_dispatched ls' < ls_dispatched ls + remaining).
Proof.
  intros w engine remaining. induction remaining as [|n IH]; intros ls; cbn.
  - split; [lia|]. split; [lia|]. split; [lia|]. split.
    + intros ls' H. injection H as <-. lia.
    + intros ls' H. discriminate.
  - destruct (loop_body w engine ls) as [ls1|ls1|e] eqn:Hb.
    + destruct (loop_body_continue _ _ _ _ Hb) as (Hi & Hd & Hh).
      specialize (IH ls1). cbn in IH.
      destruct IH as (IH1 & IH2 & IH3 & IH4 & IH5).
      split; [lia|]. split; [lia|]. split; [lia|]. split.
      * intros ls' H. specialize (IH4 ls' H). lia.
      * intros ls' H. specialize (IH5 ls' H). lia.
    + destruct (loop_body_break _ _ _ _ Hb) as (Hs & Hh & Hl & Hd & Hi & _).
      cbn. rewrite Hh, Hd, Hi.
      split; [lia|]. split; [lia|]. split; [lia|]. split.
      * intros ls' H. discriminate.
      * intros ls' H. injection H as <-. lia.
    + cbn. split; [lia|]. split; [lia|]. split; [lia|].
      split; intros ls' H; discriminate.
Qed.

(** A pass fails only with the decision call: the call raised, or it
    returned [None], which the assignment to (action, params) cannot
    unpack. *)
Lemma loop_body_abort :
  forall w engine ls e,
    loop_body w engine ls = Abort e ->
    engine (S (ls_iterations ls)) (ls_state ls) (ls_history ls)
           (ls_last_action ls) = Raise e \/
    (engine (S (ls_iterations ls)) (ls_state ls) (ls_history ls)
            (ls_last_action ls) = Ok None /\
     e = TypeError "cannot unpack non-iterable NoneType object").
Proof.
  intros w engine ls e H. unfold loop_body in H.
  destruct (engine _ _ _ _) as [[[action params]|]|e'].
  - destruct (eq_str action "COMPLETE"); discriminate.
  - injection H as <-. right. auto.
  - injection H as <-. left. reflexivity.
Qed.

(** How the loop is left, from any loop state.  It is left by [break]
    only in a pass whose decision is COMPLETE, and that pass dispatches
    nothing; it is left by an exception only in a pass whose decision call
    raised it or returned [None], before the bound is reached. *)
Lemma while_loop_exits :
  forall w engine remaining ls,
    let x := while_loop w engine remaining ls in
    (forall ls',
        x = Completed ls' ->
        ls_iterations ls' + ls_dispatched ls
          = S (ls_dispatched ls') + ls_iterations ls /\
        exists params,
          engine (ls_iterations ls') (ls_state ls') (ls_history ls')
                 (ls_last_action ls')
          = Ok (Some (Decision (JStr "COMPLETE") params))) /\
    (forall e ls',
        x = Aborted e ls' ->
        ls_dispatched ls' < ls_dispatched ls + remaining /\
        ls_iterations ls' + ls_dispatched ls
          = ls_dispatched ls' + ls_iterations ls /\
        (engine (S (ls_iterations ls')) (ls_state ls') (ls_history ls')
                (ls_last_action ls') = Raise e \/
         (engine (S (ls_iterations ls')) (ls_state ls') (ls_history ls')
                 (ls_last_action ls') = Ok None /\
          e = TypeError "cannot unpack non-iterable NoneType object"))).
Proof.
  intros w engine remaining. induction remaining as [|n IH]; intros ls; cbn.
  - split; [intros ls' H | intros e ls' H]; discriminate.
  - destruct (loop_body w engine ls) as [ls1|ls1|e1] eqn:Hb.
    + destruct (loop_body_continue _ _ _ _ Hb) as (Hi & Hd & _).
      specialize (IH ls1). cbn in IH. destruct IH as [IHc IHa]. split.
      * intros ls' H. destruct (IHc ls' H) as [Hcount Hdec].
        split; [lia | exact Hdec].
      * intros e ls' H. destruct (IHa e ls' H) as (Hlt & Hcount & Hdec).
        split; [lia|]. split; [lia | exact Hdec].
    + destruct (loop_body_break _ _ _ _ Hb)
        as (Hs & Hh & Hl & Hd & Hi & params & Hdec).
      split; [|intros e ls' H; discriminate].
      intros ls' H. injection H as <-. split; [lia|].
      exists params. now rewrite Hs, Hh, Hl, Hi.
    + split; [intros ls' H; discriminate|].
      intros e ls' H. injection H as <- <-.
      split; [lia|]. split; [lia|]. now apply (loop_body_abort w).
Qed.

(** A decided COMPLETE ends the loop at once. *)
Lemma while_loop_complete :
  forall w (engine : Engine) n ls params,
    engine (S (ls_iterations ls)) (ls_state ls) (ls_history ls)
           (ls_last_action ls)
      = Ok (Some (Decision (JStr "COMPLETE") params)) ->
    exists ls',
      while_loop w engine (S n) ls = Completed ls' /\
      ls_state ls' = ls_state ls /\ ls_history ls' = ls_history ls /\
      ls_last_action ls' = ls_last_action ls /\
      ls_dispatched ls' = ls_dispatched ls.
Proof.
  intros w engine n ls params H. cbn. unfold loop_body. rewrite H. cbn.
  eexists. split; [reflexivity|]. cbn. repeat split.
Qed.

(** C4, as stated, fails: the loop has a third way out.  The model sends
    the query of a web search in a list; the search is dispatched, and in
    the second pass the decision call raises while it formats the history.
    The loop ends after one dispatch, by no COMPLETE and far from the
    bound. *)
Lemma loop_exits_by_exception :
  (exists ls,
      orchestration_loop listing_world
        (agent_engine listing_world "containerization") "containerization"
      = Aborted (AttributeError "'list' object has no attribute 'items'") ls /\
      ls_dispatched ls = 1) /\
  (forall ls,
      orchestration_loop listing_world
        (agent_engine listing_world "containerization") "containerization"
      <> Completed ls) /\
  (forall ls,
      orchestration_loop listing_world
        (agent_engine listing_world "containerization") "containerization"
      <> Exhausted ls).
Proof.
  assert (H : exists ls,
             orchestration_loop listing_world
               (agent_engine listing_world "containerization")
               "containerization"
             = Aborted (AttributeError "'list' object has no attribute 'items'")
                       ls /\
             ls_dispatched ls = 1).
  { eexists. split; [vm_compute; reflexivity | reflexivity]. }
  split; [exact H|].
  destruct H as (ls0 & -> & _). split; intros ls Hls; discriminate.
Qed.

(** C4, amended.  Whatever the Decision Engine does, the loop of [run]
    makes at most 10 passes and dispatches at most 10 actions, one history
    entry per dispatch.  It is left in one of three ways.  By [break]: then
    the decision of the last pass is COMPLETE, that pass dispatched
    nothing, and fewer than 10 actions were dispatched.  By exhausting the
    bound: then 10 actions were dispatched in 10 passes.  By an exception:
    then the decision call of the next pass raised it, or returned [None]
    and the unpacking raised, before the tenth dispatch; [run] turns it
    into the error text.  And a decided COMPLETE breaks at once, wherever
    the loop stands: no action is executed, the state and the history are
    those before the pass. *)
Theorem loop_at_most_ten_dispatches :
  forall (w : World) (engine : Engine) (dom : string),
    let x := orchestration_loop w engine dom in
    ls_dispatched (exit_state x) <= 10 /\
    ls_iterations (exit_state x) <= 10 /\
    List.length (ls_history (exit_state x)) = ls_dispatched (exit_state x) /\
    (forall ls,
        x = Completed ls ->
        ls_dispatched ls < 10 /\
        ls_iterations ls = S (ls_dispatched ls) /\
        exists params,
          engine (ls_iterations ls) (ls_state ls) (ls_history ls)
                 (ls_last_action ls)
          = Ok (Some (Decision (JStr "COMPLETE") params))) /\
    (forall ls,
        x = Exhausted ls ->
        ls_dispatched ls = 10 /\ ls_iterations ls = max_iterations) /\
    (forall e ls,
        x = Aborted e ls ->
        ls_dispatched ls < 10 /\
        ls_iterations ls = ls_dispatched ls /\
        (engine (S (ls_iterations ls)) (ls_state ls) (ls_history ls)
                (ls_last_action ls) = Raise e \/
         (engine (S (ls_iterations ls)) (ls_state ls) (ls_history ls)
                 (ls_last_action ls) = Ok None /\
          e = TypeError "cannot unpack non-iterable NoneType object"))) /\
    (forall n ls params,
        engine (S (ls_iterations ls)) (ls_state ls) (ls_history ls)
               (ls_last_action ls)
          = Ok (Some (Decision (JStr "COMPLETE") params)) ->
        exists ls',
          while_loop w engine (S n) ls = Completed ls' /\
          ls_state ls' = ls_state ls /\ ls_history ls' = ls_history ls /\
          ls_last_action ls' = ls_last_action ls /\
          ls_dispatched ls' = ls_dispatched ls).
Proof.
  intros w engine dom x.
  pose proof (while_loop_counts w engine max_iterations (start dom))
    as (H1 & H2 & H3 & H4 & H5).
  pose proof (while_loop_exits w engine max_iterations (start dom))
    as (H6 & H7).
  fold (orchestration_loop w engine dom) in H1, H2, H3, H4, H5, H6, H7.
  fold x in H1, H2, H3, H4, H5, H6, H7.
  change (ls_dispatched (start dom)) with 0 in H1, H3, H4, H5, H6, H7.
  change (ls_iterations (start dom)) with 0 in H2, H4, H6, H7.
  change (List.length (ls_history (start dom))) with 0 in H3.
  change max_iterations with 10 in H1, H2, H4, H5, H7 |- *.
  split; [lia|]. split; [lia|]. split; [lia|].
  split; [|split; [|split]].
  - intros ls H. destruct (H6 ls H) as [Hcount Hdec].
    split; [exact (H5 ls H)|]. split; [lia | exact Hdec].
  - intros ls H. destruct (H4 ls H) as [Hd Hi]. lia.
  - intros e ls H. destruct (H7 e ls H) as (Hlt & Hcount & Hdec).
    split; [lia|]. split; [lia | exact Hdec].
  - intros n ls params H. now apply (while_loop_complete w engine n ls params).
Qed.

(* ================================================================== *)
(** * The Decision Engine *)

(** What the [try] block returns is the model's proposal, read from an
    object with the key [action]; a GENERATE_REPORT is let through only
    when the state holds ranked repositories. *)
Lemma model_decision_accepted :
  forall w t dom st history last action params,
    model_decision w t dom st history last = Ok (Some (Decision action params)) ->
    exists content d,
      llm_invoke w t dom st history = Ok content /\
      try_parse_json_from_llm_response w content last = Ok (JObj d) /\
      dict_get d "action" = Some action /\
      params = dict_get_default d "params" (JObj []) /\
      (eq_str action "GENERATE_REPORT" = true -> ranked_repos st <> []).
Proof.
  intros w t dom st history last action params H.
  unfold model_decision in H.
  destruct (llm_invoke w t dom st history) as [content|e] eqn:Hllm;
    cbn [bind] in H; [|discriminate].
  destruct (try_parse_json_from_llm_response w content last) as [v|e] eqn:Hp;
    cbn [bind] in H; [|discriminate].
  destruct (truthy v) eqn:Htr; [|discriminate].
  destruct v as [| b | z | m e | s | l | d]; cbn in H; try discriminate.
  - destruct (contains "action" s); discriminate.
  - destruct (existsb _ l); discriminate.
  - unfold dict_has in H.
    destruct (dict_get d "action") as [a|] eqn:Ha; cbn in H; [|discriminate].
    assert (Hget : dict_get_default d "action" (JStr "") = a)
      by (unfold dict_get_default; now rewrite Ha).
    rewrite Hget in H.
    destruct (negb (eq_str a "GENERATE_REPORT") || nonempty (ranked_repos st))
      eqn:Hv; [|discriminate].
    injection H as <- <-.
    exists content, d. repeat split; auto.
    intros Hgr. rewrite Hgr in Hv. cbn in Hv. now apply nonempty_true.
Qed.

Lemma fallback_generate_report :
  forall st action params,
    fallback_decision st = Some (Decision action params) ->
    eq_str action "GENERATE_REPORT" = true ->
    ranked_repos st <> [].
Proof.
  intros st action params H Ha. unfold fallback_decision in H.
  repeat match type of H with
  | (if ?c then _ else _) = _ => destruct c eqn:?
  | match ?l with [] => _ | _ :: _ => _ end = _ => destruct l eqn:?
  | match ?o with Some _ => _ | None => _ end = _ => destruct o eqn:?
  end;
  try discriminate; injection H as <- <-; try discriminate.
  match goal with
  | Hc : nonempty (ranked_repos st) && _ = true |- _ =>
      apply andb_true_iff in Hc; destruct Hc as [Hc _]; now apply nonempty_true
  end.
Qed.

(** The engine decides GENERATE_REPORT only over ranked repositories. *)
Lemma decide_generate_report :
  forall w t dom st history last action params,
    decide_next_action w t dom st history last
      = Ok (Some (Decision action params)) ->
    eq_str action "GENERATE_REPORT" = true ->
    ranked_repos st <> [].
Proof.
  intros w t dom st history last action params H Ha.
  unfold decide_next_action in H.
  destruct (format_state_summary st); cbn [bind] in H; [|discriminate].
  destruct (format_history_summary history); cbn [bind] in H; [|discriminate].
  destruct (model_decision w t dom st history last) as [[d|]|e] eqn:Hm.
  - injection H as ->.
    destruct (model_decision_accepted _ _ _ _ _ _ _ _ Hm)
      as (content & d & _ & _ & _ & _ & Hv).
    now apply Hv.
  - injection H as H. now apply (fallback_generate_report st action params).
  - injection H as H. now apply (fallback_generate_report st action params).
Qed.

(* ================================================================== *)
(** * The invariant of the work state *)

Lemma update_state_keeps_ranking :
  forall st action r,
    report_has_ranking st ->
    (eq_str action "GENERATE_REPORT" = true -> ranked_repos st <> []) ->
    report_has_ranking (update_state st action r).
Proof.
  intros st action r Hinv Hgr. unfold update_state.
  repeat match goal with
  | |- report_has_ranking (if ?c then _ else _) => destruct c eqn:?
  end; try exact Hinv;
  try (destruct r as [| l | l | l | [d|] | l | s]; try exact Hinv;
       unfold report_has_ranking in *; cbn; try exact Hinv).
  - (* GET_REPO_DETAILS *)
    destruct (str_truthy (rd_url d) && _); cbn; exact Hinv.
  - (* CALCULATE_SCORES stores a non-empty ranking *)
    intros _.
    match goal with
    | Hc : _ && result_truthy (RRanked l) = true |- _ =>
        apply andb_true_iff in Hc; destruct Hc as [_ Hc]; cbn in Hc;
        now apply nonempty_true
    end.
  - (* GENERATE_REPORT was decided over a ranking *)
    intros _. apply Hgr.
    match goal with
    | Hc : eq_str action "GENERATE_REPORT" && _ = true |- _ =>
        apply andb_true_iff in Hc; destruct Hc as [Hc _]; exact Hc
    end.
Qed.

Lemma loop_body_keeps_ranking :
  forall w dom ls ls',
    report_has_ranking (ls_state ls) ->
    loop_body w (agent_engine w dom) ls = Continue ls' ->
    report_has_ranking (ls_state ls').
Proof.
  intros w dom ls ls' Hinv H. unfold loop_body, agent_engine in H.
  destruct (decide_next_action _ _ _ _ _ _) as [[[action params]|]|e] eqn:Hd;
    try discriminate.
  destruct (eq_str action "COMPLETE"); try discriminate.
  injection H as <-. cbn.
  apply update_state_keeps_ranking; [exact Hinv|].
  intros Ha. exact (decide_generate_report _ _ _ _ _ _ _ _ Hd Ha).
Qed.

Lemma reachable_has_ranking :
  forall w dom ls, reachable w dom ls -> report_has_ranking (ls_state ls).
Proof.
  intros w dom ls H. induction H as [|ls ls' Hr IH Hlt Hb].
  - unfold report_has_ranking. cbn. congruence.
  - exact (loop_body_keeps_ranking w dom ls ls' IH Hb).
Qed.

Lemma while_loop_keeps_ranking :
  forall w dom remaining ls,
    report_has_ranking (ls_state ls) ->
    report_has_ranking
      (ls_state (exit_state (while_loop w (agent_engine w dom) remaining ls))).
Proof.
  intros w dom remaining. induction remaining as [|n IH]; intros ls Hinv; cbn.
  - exact Hinv.
  - destruct (loop_body w (agent_engine w dom) ls) as [ls1|ls1|e] eqn:Hb; cbn.
    + apply IH. exact (loop_body_keeps_ranking w dom ls ls1 Hinv Hb).
    + destruct (loop_body_break _ _ _ _ Hb) as (Hs & _). now rewrite Hs.
    + exact Hinv.
Qed.

Lemma finalize_keeps_ranking :
  forall w dom ls,
    report_has_ranking (ls_state ls) -> report_has_ranking (finalize w dom ls).
Proof.
  intros w dom ls Hinv. unfold finalize.
  destruct (negb (str_truthy (final_report (ls_state ls))) &&
            nonempty (ranked_repos (ls_state ls))) eqn:Hc; [|exact Hinv].
  apply andb_true_iff in Hc. destruct Hc as [_ Hc].
  unfold report_has_ranking. cbn. intros _. now apply nonempty_true.
Qed.

(** C5. In every state the loop of [run] passes through, at the exit of
    the loop and after the fallback report has been synthesized,
    [ranked_repos] is non-empty whenever [final_report] is non-empty. *)
Theorem report_only_with_ranking :
  forall (w : World) (dom : string),
    (forall ls, reachable w dom ls -> report_has_ranking (ls_state ls)) /\
    report_has_ranking
      (ls_state (exit_state (orchestration_loop w (agent_engine w dom) dom))) /\
    report_has_ranking
      (finalize w dom (exit_state (orchestration_loop w (agent_engine w dom) dom))).
Proof.
  intros w dom.
  assert (Hstart : report_has_ranking (ls_state (start dom))).
  { unfold report_has_ranking. cbn. congruence. }
  split; [|split].
  - apply reachable_has_ranking.
  - apply while_loop_keeps_ranking. exact Hstart.
  - apply finalize_keeps_ranking, while_loop_keeps_ranking. exact Hstart.
Qed.

Lemma fallback_enumerated :
  forall st,
    first_result_lacks_url st = false ->
    exists d, fallback_decision st = Some d /\ enumerated d.
Proof.
  intros st Hurl.
  assert (Hin : forall name params, In name ACTIONS ->
            exists d, Some (Decision (JStr name) (JObj params)) = Some d /\
                      enumerated d).
  { intros name params Hn. eexists. split; [reflexivity|].
    exists name, params. now split. }
  unfold first_result_lacks_url, is_empty, dict_has in Hurl.
  unfold fallback_decision.
  destruct (keywords st) as [|k ks]; cbn [nonempty negb andb orb] in *.
  { apply Hin. cbn. tauto. }
  destruct (github_repos st) as [|g gs]; cbn [nonempty negb andb orb] in *.
  { apply Hin. cbn. tauto. }
  destruct (web_queries st) as [|q qs]; cbn [nonempty negb andb orb] in *.
  { apply Hin. cbn. tauto. }
  destruct (web_search_results st) as [|r rs]; cbn [nonempty negb andb orb] in *.
  { apply Hin. cbn. tauto. }
  destruct (candidate_repos st) as [|c cs]; cbn [nonempty negb andb orb] in *.
  { destruct (dict_get r "url") as [url|]; [|discriminate].
    apply Hin. cbn. tauto. }
  destruct (nonempty (ranked_repos st)); cbn [nonempty negb andb orb].
  - destruct (str_truthy (final_report st)); cbn [negb]; apply Hin; cbn; tauto.
  - apply Hin. cbn. tauto.
Qed.

(** Where the first web result has no URL the decision tree ends without
    a [return]. *)
Lemma fallback_without_url :
  forall st, first_result_lacks_url st = true -> fallback_decision st = None.
Proof.
  intros st Hurl.
  unfold first_result_lacks_url, is_empty, dict_has in Hurl.
  unfold fallback_decision.
  destruct (keywords st) as [|k ks]; cbn [nonempty negb andb orb] in *;
    [discriminate|].
  destruct (github_repos st) as [|g gs]; cbn [nonempty negb andb orb] in *;
    [discriminate|].
  destruct (web_queries st) as [|q qs]; cbn [nonempty negb andb orb] in *;
    [discriminate|].
  destruct (candidate_repos st) as [|c cs]; cbn [nonempty negb andb orb] in *;
    [|discriminate].
  destruct (web_search_results st) as [|r rs]; cbn [nonempty negb andb orb] in *;
    [discriminate|].
  destruct (dict_get r "url"); [discriminate|reflexivity].
Qed.

(** C2, as stated, fails: a model that proposes the action DANCE gets it
    back from [_decide_next_action], and DANCE is none of the nine
    actions. *)
Lemma decide_returns_unlisted_action :
  let w := simple_world (j "{'action': 'DANCE', 'params': {}, 'reasoning': 'why not'}") in
  decide_next_action w 1 "containerization" (initial_state "containerization")
                     [] None
    = Ok (Some (Decision (JStr "DANCE") (JObj []))) /\
  ~ enumerated (Decision (JStr "DANCE") (JObj [])).
Proof.
  split.
  - vm_compute. reflexivity.
  - intros (name & params & Heq & Hin). injection Heq as <- _.
    cbn in Hin. intuition discriminate.
Qed.

(** C2, amended. When the summaries of the state and of the history can be
    formatted and the state is not the one in which the fallback finds no
    URL in the first web result, [_decide_next_action] returns a pair
    (action, params), and which pair is settled by the reply of the model.
    When the reply is read as an object with the key [action], the pair is
    the proposal of the model, taken as it is: the value of [action]
    (the name is not checked) and the value of [params], or the empty
    mapping when there is none.  Only GENERATE_REPORT is refused, when
    nothing is ranked.  In every other case (the model call raises, the
    interpreter raises, what it returns is no object with the key [action],
    or GENERATE_REPORT is refused) the pair is the decision of the
    fallback, one of the nine actions with a mapping. *)
Theorem decide_next_action_amended :
  forall w t dom st history last,
    format_state_summary st = Ok tt ->
    format_history_summary history = Ok tt ->
    first_result_lacks_url st = false ->
    exists fallback,
      fallback_decision st = Some fallback /\ enumerated fallback /\
      (* the proposal of the model, taken as it is *)
      (forall content d action,
          llm_invoke w t dom st history = Ok content ->
          try_parse_json_from_llm_response w content last = Ok (JObj d) ->
          dict_get d "action" = Some action ->
          (eq_str action "GENERATE_REPORT" = true -> ranked_repos st <> []) ->
          decide_next_action w t dom st history last
            = Ok (Some (Decision action
                          (dict_get_default d "params" (JObj []))))) /\
      (* GENERATE_REPORT refused *)
      (forall content d action,
          llm_invoke w t dom st history = Ok content ->
          try_parse_json_from_llm_response w content last = Ok (JObj d) ->
          dict_get d "action" = Some action ->
          eq_str action "GENERATE_REPORT" = true -> ranked_repos st = [] ->
          decide_next_action w t dom st history last = Ok (Some fallback)) /\
      (* the model call fails *)
      (forall e,
          llm_invoke w t dom st history = Raise e ->
          decide_next_action w t dom st history last = Ok (Some fallback)) /\
      (* the interpreter fails *)
      (forall content e,
          llm_invoke w t dom st history = Ok content ->
          try_parse_json_from_llm_response w content last = Raise e ->
          decide_next_action w t dom st history last = Ok (Some fallback)) /\
      (* the interpreter yields no object with the key action *)
      (forall content v,
          llm_invoke w t dom st history = Ok content ->
          try_parse_json_from_llm_response w content last = Ok v ->
          (forall d, v = JObj d -> dict_get d "action" = None) ->
          decide_next_action w t dom st history last = Ok (Some fallback)).
Proof.
  intros w t dom st history last Hs Hh Hurl.
  destruct (fallback_enumerated st Hurl) as (fallback & Hf & He).
  exists fallback. split; [exact Hf|]. split; [exact He|].
  unfold decide_next_action. rewrite Hs, Hh, Hf. cbn [bind].
  unfold model_decision.
  split; [|split; [|split; [|split]]].
  - intros content d action Hllm Hparse Ha Hv.
    rewrite Hllm. cbn [bind]. rewrite Hparse. cbn [bind].
    assert (Hd : nonempty d = true) by (destruct d; [discriminate | reflexivity]).
    cbn [truthy py_contains_action py_get]. rewrite Hd. cbn [bind].
    unfold dict_has. rewrite Ha. cbn [bind].
    assert (Hget : dict_get_default d "action" (JStr "") = action)
      by (unfold dict_get_default; now rewrite Ha).
    rewrite Hget.
    destruct (eq_str action "GENERATE_REPORT") eqn:Hgr; cbn [negb orb].
    + specialize (Hv eq_refl). apply nonempty_true in Hv. now rewrite Hv.
    + reflexivity.
  - intros content d action Hllm Hparse Ha Hgr Hrank.
    rewrite Hllm. cbn [bind]. rewrite Hparse. cbn [bind].
    assert (Hd : nonempty d = true) by (destruct d; [discriminate | reflexivity]).
    cbn [truthy py_contains_action py_get]. rewrite Hd. cbn [bind].
    unfold dict_has. rewrite Ha. cbn [bind].
    assert (Hget : dict_get_default d "action" (JStr "") = action)
      by (unfold dict_get_default; now rewrite Ha).
    rewrite Hget, Hgr, Hrank. reflexivity.
  - intros e Hllm. rewrite Hllm. reflexivity.
  - intros content e Hllm Hparse.
    rewrite Hllm. cbn [bind]. rewrite Hparse. reflexivity.
  - intros content v Hllm Hparse Hv.
    rewrite Hllm. cbn [bind]. rewrite Hparse. cbn [bind].
    destruct (truthy v) eqn:Htr; [|reflexivity].
    destruct v as [| b | z | m e | s | l | d]; cbn [py_contains_action bind];
      try reflexivity.
    + destruct (contains "action" s); reflexivity.
    + destruct (existsb _ l); reflexivity.
    + unfold dict_has. rewrite (Hv d eq_refl). reflexivity.
Qed.

(** The engine on a fresh state: a model that proposes a web search with
    its query has the proposal returned as it is; a model that answers in
    prose and a model that proposes GENERATE_REPORT get the decision of the
    fallback, GENERATE_KEYWORDS. *)
Lemma decide_next_action_amended_witness :
  decide_next_action
    (simple_world
       (j "{'action': 'SEARCH_WEB', 'params': {'query': 'docker'}, 'reasoning': 'search'}"))
    1 "containerization" (initial_state "containerization") [] None
    = Ok (Some (Decision (JStr "SEARCH_WEB") (JObj [("query", JStr "docker")]))) /\
  decide_next_action (simple_world "I cannot decide.") 1 "containerization"
                     (initial_state "containerization") [] None
    = Ok (Some (Decision (JStr "GENERATE_KEYWORDS") (JObj []))) /\
  decide_next_action
    (simple_world
       (j "{'action': 'GENERATE_REPORT', 'params': {}, 'reasoning': 'done'}"))
    1 "containerization" (initial_state "containerization") [] None
    = Ok (Some (Decision (JStr "GENERATE_KEYWORDS") (JObj []))).
Proof.
  split; [|split].
  - destruct (decide_next_action_amended
                (simple_world
                   (j "{'action': 'SEARCH_WEB', 'params': {'query': 'docker'}, 'reasoning': 'search'}"))
                1 "containerization" (initial_state "containerization") [] None
                eq_refl eq_refl eq_refl)
      as (fallback & _ & _ & Hmodel & _).
    apply (Hmodel
             (j "{'action': 'SEARCH_WEB', 'params': {'query': 'docker'}, 'reasoning': 'search'}")
             [("action", JStr "SEARCH_WEB");
              ("params", JObj [("query", JStr "docker")]);
              ("reasoning", JStr "search")]
             (JStr "SEARCH_WEB")).
    + reflexivity.
    + vm_compute. reflexivity.
    + reflexivity.
    + discriminate.
  - destruct (decide_next_action_amended (simple_world "I cannot decide.")
                1 "containerization" (initial_state "containerization") [] None
                eq_refl eq_refl eq_refl)
      as (fallback & Hf & _ & _ & _ & _ & _ & Hnone).
    injection Hf as <-.
    apply (Hnone "I cannot decide." (JObj [])).
    + reflexivity.
    + vm_compute. reflexivity.
    + intros d Hd. injection Hd as <-. reflexivity.
  - destruct (decide_next_action_amended
                (simple_world
                   (j "{'action': 'GENERATE_REPORT', 'params': {}, 'reasoning': 'done'}"))
                1 "containerization" (initial_state "containerization") [] None
                eq_refl eq_refl eq_refl)
      as (fallback & Hf & _ & _ & Hrefused & _).
    injection Hf as <-.
    apply (Hrefused
             (j "{'action': 'GENERATE_REPORT', 'params': {}, 'reasoning': 'done'}")
             [("action", JStr "GENERATE_REPORT"); ("params", JObj []);
              ("reasoning", JStr "done")]
             (JStr "GENERATE_REPORT")).
    + reflexivity.
    + vm_compute. reflexivity.
    + reflexivity.
    + reflexivity.
    + reflexivity.
Defined.

(** The slip the amended claim leaves aside: with web results whose first
    entry has no [url] and no candidate yet, the function returns [None]. *)
Lemma decide_without_url_returns_none :
  let st := set_web_search_results
              (set_web_queries
                 (set_github_repos
                    (set_keywords (initial_state "containerization")
                                  [JStr "docker"])
                    [JObj [("html_url", JStr "https://github.com/moby/moby")]])
                 [JStr "best container repositories"])
              [[("title", JStr "Best of")]] in
  decide_next_action (simple_world "I cannot decide.") 1 "containerization"
                     st [] None
    = Ok None.
Proof. vm_compute. reflexivity. Qed.

(** The uncaught failure the amended claim leaves aside: the history is
    summarized outside the [try], and a parameter value that is not a
    mapping makes [params.items()] raise. *)
Lemma decide_raises_on_history :
  decide_next_action (simple_world "I cannot decide.") 2 "containerization"
    (initial_state "containerization")
    [{| h_action := JStr "SEARCH_WEB"; h_params := JStr "docker";
        h_result_summary := "无结果" |}]
    (Some (JStr "SEARCH_WEB"))
  = Raise (AttributeError "'str' object has no attribute 'items'").
Proof. vm_compute. reflexivity. Qed.

(* ================================================================== *)
(** * Scoring pass: CALCULATE_SCORES *)

Lemma insert_desc_Forall :
  forall (P : ScoredRepo -> Prop) x l,
    P x -> Forall P l -> Forall P (insert_desc x l).
Proof.
  intros P x l Hx Hl. induction Hl as [|y l Hy Hl IH]; cbn.
  - constructor; [exact Hx | constructor].
  - destruct (Rlt_dec (sr_score y) (sr_score x)).
    + constructor; [exact Hx|]. constructor; assumption.
    + constructor; assumption.
Qed.

Lemma insert_desc_descending :
  forall x l, descending l -> descending (insert_desc x l).
Proof.
  intros x l H. unfold descending in *. induction H as [|y l Hs IH Hall]; cbn.
  - constructor; constructor.
  - destruct (Rlt_dec (sr_score y) (sr_score x)) as [Hlt|Hge].
    + constructor.
      * constructor; assumption.
      * constructor; [lra|].
        eapply Forall_impl; [|exact Hall]. cbn. intros b Hb. lra.
    + constructor; [exact IH|].
      apply insert_desc_Forall; [lra | exact Hall].
Qed.

Lemma sort_desc_descending : forall l, descending (sort_desc l).
Proof.
  intros l. unfold sort_desc.
  assert (H : forall acc, descending acc ->
            descending (fold_left (fun acc x => insert_desc x acc) l acc)).
  { induction l as [|x l IH]; intros acc Hacc; cbn; [exact Hacc|].
    apply IH. now apply insert_desc_descending. }
  apply H. constructor.
Qed.

Lemma In_firstn :
  forall (A : Type) n (l : list A) x, In x (firstn n l) -> In x l.
Proof.
  intros A n. induction n as [|n IH]; intros [|y l] x H; cbn in H;
    try contradiction.
  destruct H as [->|H]; [now left | right; now apply IH].
Qed.

Lemma firstn_descending :
  forall n l, descending l -> descending (firstn n l).
Proof.
  intros n l H. revert n. unfold descending in *.
  induction H as [|y l Hs IH Hall]; intros n.
  - rewrite firstn_nil. constructor.
  - destruct n as [|n]; cbn; [constructor|].
    constructor; [apply IH|].
    apply Forall_forall. intros b Hb.
    apply (proj1 (Forall_forall _ _) Hall b).
    apply (In_firstn _ _ _ _ Hb).
Qed.

Lemma calculate_scores_descending :
  forall w t st, descending (calculate_scores w t st).
Proof.
  intros w t st. unfold calculate_scores.
  destruct (negb (nonempty _)).
  - constructor.
  - apply firstn_descending, sort_desc_descending.
Qed.

Lemma calculate_scores_length :
  forall w t st, List.length (calculate_scores w t st) <= 10.
Proof.
  intros w t st. unfold calculate_scores.
  destruct (negb (nonempty _)); cbn [List.length]; [lia|].
  apply firstn_le_length.
Qed.

Lemma execute_calculate_scores :
  forall w t params st,
    execute_action w t (JStr "CALCULATE_SCORES") params st
      = RRanked (calculate_scores w t st).
Proof. reflexivity. Qed.

Lemma update_calculate_scores :
  forall st l,
    update_state st (JStr "CALCULATE_SCORES") (RRanked l)
      = if nonempty l then set_ranked_repos st l else st.
Proof. intros st [|x l]; reflexivity. Qed.

(** A scoring pass reads the search results and the candidate pool, not
    the ranking already stored. *)
Lemma calculate_scores_reads :
  forall w t st st',
    github_repos st' = github_repos st ->
    candidate_repos st' = candidate_repos st ->
    calculate_scores w t st' = calculate_scores w t st.
Proof.
  intros w t st st' Hg Hc. unfold calculate_scores. now rewrite Hg, Hc.
Qed.

(** C10. CALCULATE_SCORES executed twice in succession with the same
    answers of the gateway and the same clock (the same [t]) leaves the
    state of the first pass: the same [ranked_repos], in the same order,
    with the same scores.  A non-empty result replaces [ranked_repos]
    wholesale; it is in descending order of score and holds at most 10
    entries. *)
Theorem calculate_scores_idempotent :
  forall (w : World) (t : nat) (st : State) (params params' : json),
    let calc := JStr "CALCULATE_SCORES" in
    let st1 := update_state st calc (execute_action w t calc params st) in
    let st2 := update_state st1 calc (execute_action w t calc params' st1) in
    st2 = st1 /\
    ranked_repos st2 = ranked_repos st1 /\
    (calculate_scores w t st <> [] ->
     ranked_repos st1 = calculate_scores w t st) /\
    descending (calculate_scores w t st) /\
    List.length (calculate_scores w t st) <= 10.
Proof.
  intros w t st params params' calc st1 st2.
  assert (Hst1 : st1 = if nonempty (calculate_scores w t st)
                        then set_ranked_repos st (calculate_scores w t st)
                        else st).
  { unfold st1, calc. rewrite execute_calculate_scores.
    apply update_calculate_scores. }
  assert (Hsame : calculate_scores w t st1 = calculate_scores w t st).
  { apply calculate_scores_reads; rewrite Hst1;
      destruct (nonempty (calculate_scores w t st)); reflexivity. }
  assert (Hst2 : st2 = st1).
  { unfold st2, calc. rewrite execute_calculate_scores, update_calculate_scores.
    rewrite Hsame, Hst1.
    destruct (nonempty (calculate_scores w t st)) eqn:Hne; reflexivity. }
  split; [exact Hst2|]. split; [now rewrite Hst2|]. split; [|split].
  - intros Hne. rewrite Hst1. apply nonempty_true in Hne. now rewrite Hne.
  - apply calculate_scores_descending.
  - apply calculate_scores_length.
Qed.

(* ================================================================== *)
(** * The score of a repository *)

Lemma dict_get_default_some :
  forall d k v default, dict_get d k = Some v -> dict_get_default d k default = v.
Proof. intros d k v default H. unfold dict_get_default. now rewrite H. Qed.

Lemma dict_get_default_none :
  forall d k default, dict_get d k = None -> dict_get_default d k default = default.
Proof. intros d k default H. unfold dict_get_default. now rewrite H. Qed.

Lemma py_or_count :
  forall n, py_or (JInt n) (JInt 0) = JInt n.
Proof.
  intros n. unfold py_or. cbn. destruct (Z.eqb_spec n 0) as [->|]; reflexivity.
Qed.

Lemma math_log_count :
  forall n, (0 <= n)%Z -> math_log (IZR n + 1) = Some (ln (IZR n + 1)).
Proof.
  intros n Hn. unfold math_log.
  destruct (Rlt_dec 0 (IZR n + 1)) as [_|Hneg]; [reflexivity|].
  exfalso. apply Hneg. apply IZR_le in Hn. lra.
Qed.

(** With well-formed counts the score is the formula applied to whatever
    recency factor the time stamp gives. *)
Lemma score_with_recency :
  forall w t repo stars forks recency,
    counts repo stars forks ->
    recency_of w t (dict_get_default repo "pushed_at" (JStr "")) = Some recency ->
    calculate_repo_score w t repo = spec_score stars forks recency.
Proof.
  intros w t repo stars forks recency (Hs & Hf & Hs0 & Hf0 & Hsc & Hfc) Hrec.
  unfold calculate_repo_score, score_of. rewrite Hrec.
  rewrite (dict_get_default_some _ _ _ _ Hs), (dict_get_default_some _ _ _ _ Hf).
  rewrite (dict_get_default_none _ _ _ Hsc), (dict_get_default_none _ _ _ Hfc).
  rewrite !py_or_count. cbn [as_real].
  rewrite (math_log_count stars Hs0), (math_log_count forks Hf0).
  reflexivity.
Qed.

(** A time stamp that [strptime] refuses makes the whole computation fail,
    and the score is 0.0, whatever the counts. *)
Lemma score_unparseable :
  forall w t repo ts,
    dict_get repo "pushed_at" = Some (JStr ts) ->
    ts <> "" ->
    strptime w ts = None ->
    calculate_repo_score w t repo = 0%R.
Proof.
  intros w t repo ts Hp Hts Hparse.
  unfold calculate_repo_score, score_of.
  rewrite (dict_get_default_some _ _ _ _ Hp).
  unfold recency_of. cbn [truthy].
  apply str_truthy_true in Hts. rewrite Hts, Hparse. lra.
Qed.

Lemma spec_score_positive :
  forall recency, (0 < recency)%R -> (0 < spec_score 100 10 recency)%R.
Proof.
  intros recency Hr. unfold spec_score.
  assert (H101 : (0 < ln (100 + 1))%R).
  { rewrite <- ln_1. apply ln_increasing; lra. }
  assert (H11 : (0 < ln (10 + 1))%R).
  { rewrite <- ln_1. apply ln_increasing; lra. }
  apply Rmult_lt_0_compat; lra.
Qed.

(** C7: the code departs from the claim.  A record with 100 stars and 10
    forks whose time stamp is the text yesterday, which [strptime]
    refuses, scores 0.0 and not the formula with the factor 0.1: the
    function sets the factor 0.1 before it reads the time stamp, but the
    error of [strptime] leaves the computation and the handler of the
    function returns 0.0. *)
Lemma unparseable_timestamp_scores_zero :
  let repo := sample_repo (JStr "yesterday") in
  strptime dated_world "yesterday" = None /\
  calculate_repo_score dated_world 1 repo = 0%R /\
  calculate_repo_score dated_world 1 repo <> spec_score 100 10 0.1.
Proof.
  intros repo.
  assert (H0 : calculate_repo_score dated_world 1 repo = 0%R).
  { apply (score_unparseable dated_world 1 repo "yesterday");
      [reflexivity | discriminate | reflexivity]. }
  split; [reflexivity|]. split; [exact H0|].
  rewrite H0. pose proof (spec_score_positive 0.1 ltac:(lra)). lra.
Qed.

(** Where the factor 0.1 is applied: a record whose time stamp is
    missing, [None] or empty scores the formula with the factor 0.1.  A
    time stamp that is present and that [strptime] refuses gives the score
    0.0. *)
Theorem missing_timestamp_scores_low :
  forall w t repo stars forks,
    counts repo stars forks ->
    (dict_get repo "pushed_at" = None \/
     dict_get repo "pushed_at" = Some JNull \/
     dict_get repo "pushed_at" = Some (JStr "")) ->
    calculate_repo_score w t repo = spec_score stars forks 0.1 /\
    (forall repo' ts,
        dict_get repo' "pushed_at" = Some (JStr ts) -> ts <> "" ->
        strptime w ts = None ->
        calculate_repo_score w t repo' = 0%R).
Proof.
  intros w t repo stars forks Hc Hp. split.
  - apply score_with_recency; [exact Hc|].
    destruct Hp as [Hp|[Hp|Hp]].
    + rewrite (dict_get_default_none _ _ _ Hp). reflexivity.
    + rewrite (dict_get_default_some _ _ _ _ Hp). reflexivity.
    + rewrite (dict_get_default_some _ _ _ _ Hp). reflexivity.
  - intros repo' ts. apply score_unparseable.
Qed.

(** The sample record with an empty time stamp. *)
Lemma missing_timestamp_scores_low_witness :
  calculate_repo_score dated_world 1 (sample_repo (JStr ""))
    = spec_score 100 10 0.1 /\
  calculate_repo_score dated_world 1 (sample_repo (JStr "2024-13-01T00:00:00Z"))
    = 0%R.
Proof.
  destruct (missing_timestamp_scores_low dated_world 1
              (sample_repo (JStr "")) 100 10) as [Hlow Hzero].
  - unfold counts. cbn. repeat split; (reflexivity || lia).
  - right. right. reflexivity.
  - split; [exact Hlow|].
    apply (Hzero _ "2024-13-01T00:00:00Z");
      [reflexivity | discriminate | reflexivity].
Defined.

(* ================================================================== *)
(** * Bounds on [ln] by repeated square roots

    ln x = 2^k * ln (x^(1/2^k)), and 1 - 1/y <= ln y <= y - 1.  The roots
    are taken over the integers, rounded to the safe side. *)

Lemma ln_le_mono : forall x y : R, (0 < x)%R -> (x <= y)%R -> (ln x <= ln y)%R.
Proof.
  intros x y Hx [Hlt | ->]; [|lra].
  left. now apply ln_increasing.
Qed.

Lemma ln_upper_linear : forall x : R, (0 < x)%R -> (ln x <= x - 1)%R.
Proof.
  intros x Hx. pose proof (exp_ineq1_le (x - 1)) as H.
  replace (1 + (x - 1))%R with x in H by lra.
  rewrite <- (ln_exp (x - 1)). now apply ln_le_mono.
Qed.

Lemma ln_lower_linear : forall x : R, (0 < x)%R -> (1 - / x <= ln x)%R.
Proof.
  intros x Hx.
  assert (Hi : (0 < / x)%R) by now apply Rinv_0_lt_compat.
  pose proof (ln_upper_linear (/ x) Hi) as H.
  rewrite (ln_Rinv x Hx) in H. lra.
Qed.

Lemma ln_square : forall x : R, (0 < x)%R -> (ln (x * x) = 2 * ln x)%R.
Proof. intros x Hx. rewrite ln_mult by assumption. lra. Qed.

Lemma scale_positive : (0 < scale)%Z.
Proof. reflexivity. Qed.

Lemma IZR_scale_positive : (0 < IZR scale)%R.
Proof. apply (IZR_lt 0). exact scale_positive. Qed.

Lemma ratio_positive : forall n, (scale <= n)%Z -> (0 < ratio n)%R.
Proof.
  intros n Hn. unfold ratio. apply Rdiv_lt_0_compat.
  - apply (IZR_lt 0). pose proof scale_positive. lia.
  - exact IZR_scale_positive.
Qed.

Lemma root_up_spec :
  forall n, (scale <= n)%Z ->
    (scale <= root_up n)%Z /\ (n * scale <= root_up n * root_up n)%Z.
Proof.
  intros n Hn. pose proof scale_positive as Hs. unfold root_up.
  assert (Hpos : (0 < n * scale)%Z) by nia.
  destruct (Z.sqrt_up_spec (n * scale) Hpos) as [_ Hle].
  pose proof (Z.sqrt_up_nonneg (n * scale)) as Hnn.
  split; [|exact Hle].
  destruct (Z.le_gt_cases scale (Z.sqrt_up (n * scale))) as [H|H]; [exact H|].
  exfalso. nia.
Qed.

Lemma root_down_spec :
  forall n, (scale <= n)%Z ->
    (scale <= root_down n)%Z /\ (root_down n * root_down n <= n * scale)%Z.
Proof.
  intros n Hn. pose proof scale_positive as Hs. unfold root_down.
  assert (Hnn : (0 <= n * scale)%Z) by nia.
  destruct (Z.sqrt_spec (n * scale) Hnn) as [Hle Hlt].
  pose proof (Z.sqrt_nonneg (n * scale)) as Hr.
  split; [|exact Hle].
  destruct (Z.le_gt_cases scale (Z.sqrt (n * scale))) as [H|H]; [exact H|].
  exfalso. nia.
Qed.

Lemma ratio_square_le :
  forall n m, (n * scale <= m * m)%Z -> (ratio n <= ratio m * ratio m)%R.
Proof.
  intros n m H. unfold ratio. pose proof IZR_scale_positive as Hs.
  apply IZR_le in H. rewrite !mult_IZR in H.
  apply (Rmult_le_reg_r (IZR scale * IZR scale)).
  - now apply Rmult_lt_0_compat.
  - field_simplify; [|lra|lra]. lra.
Qed.

Lemma ratio_square_ge :
  forall n m, (m * m <= n * scale)%Z -> (ratio m * ratio m <= ratio n)%R.
Proof.
  intros n m H. unfold ratio. pose proof IZR_scale_positive as Hs.
  apply IZR_le in H. rewrite !mult_IZR in H.
  apply (Rmult_le_reg_r (IZR scale * IZR scale)).
  - now apply Rmult_lt_0_compat.
  - field_simplify; [|lra|lra]. lra.
Qed.

Lemma ln_upper :
  forall k n, (scale <= n)%Z ->
    (ln (ratio n) <= 2 ^ k * (ratio (iterate root_up k n) - 1))%R.
Proof.
  induction k as [|k IH]; intros n Hn; cbn [iterate pow].
  - pose proof (ln_upper_linear (ratio n) (ratio_positive n Hn)). lra.
  - destruct (root_up_spec n Hn) as [Hm Hsq].
    pose proof (ratio_positive n Hn) as Hpn.
    pose proof (ratio_positive _ Hm) as Hpm.
    pose proof (ln_le_mono _ _ Hpn (ratio_square_le n _ Hsq)) as H.
    rewrite (ln_square _ Hpm) in H.
    specialize (IH (root_up n) Hm). lra.
Qed.

Lemma ln_lower :
  forall k n, (scale <= n)%Z ->
    (2 ^ k * (1 - / ratio (iterate root_down k n)) <= ln (ratio n))%R.
Proof.
  induction k as [|k IH]; intros n Hn; cbn [iterate pow].
  - pose proof (ln_lower_linear (ratio n) (ratio_positive n Hn)). lra.
  - destruct (root_down_spec n Hn) as [Hm Hsq].
    pose proof (ratio_positive n Hn) as Hpn.
    pose proof (ratio_positive _ Hm) as Hpm.
    assert (Hpp : (0 < ratio (root_down n) * ratio (root_down n))%R)
      by now apply Rmult_lt_0_compat.
    pose proof (ln_le_mono _ _ Hpp (ratio_square_ge n _ Hsq)) as H.
    rewrite (ln_square _ Hpm) in H.
    specialize (IH (root_down n) Hm). lra.
Qed.

Lemma ratio_of_multiple :
  forall n, ratio (n * scale) = IZR n.
Proof.
  intros n. unfold ratio. rewrite mult_IZR. field.
  pose proof IZR_scale_positive. lra.
Qed.

Lemma ratio_le : forall a b, (a <= b)%Z -> (ratio a <= ratio b)%R.
Proof.
  intros a b H. unfold ratio. apply IZR_le in H.
  pose proof IZR_scale_positive.
  apply Rmult_le_compat_r; [|exact H].
  left. now apply Rinv_0_lt_compat.
Qed.

Lemma ratio_offset : forall d, ratio (scale + d) = (1 + IZR d / IZR scale)%R.
Proof.
  intros d. unfold ratio. rewrite plus_IZR. field.
  pose proof IZR_scale_positive. lra.
Qed.

(** [ln x] lies between what 24 square roots rounded down and 24 square
    roots rounded up leave of [x]. *)
Lemma ln_between :
  forall (x dl du : Z) (lo hi : R),
    (1 <= x)%Z -> (0 <= dl)%Z ->
    (scale + dl <= iterate root_down 24 (x * scale))%Z ->
    (iterate root_up 24 (x * scale) <= scale + du)%Z ->
    (/ (1 + IZR dl / IZR scale) < 1 - lo / 2 ^ 24)%R ->
    (2 ^ 24 * (IZR du / IZR scale) < hi)%R ->
    (lo < ln (IZR x) < hi)%R.
Proof.
  intros x dl du lo hi Hx Hdl Hd Hu Hlo Hhi.
  pose proof scale_positive as Hs. pose proof IZR_scale_positive as Hsr.
  assert (Hn : (scale <= x * scale)%Z) by nia.
  assert (Hp : (0 < 2 ^ 24)%R) by (apply pow_lt; lra).
  rewrite <- (ratio_of_multiple x). split.
  - pose proof (ln_lower 24 (x * scale) Hn) as H.
    apply ratio_le in Hd. rewrite ratio_offset in Hd.
    assert (Hpos : (0 < 1 + IZR dl / IZR scale)%R).
    { apply (IZR_le 0) in Hdl.
      assert (0 <= IZR dl / IZR scale)%R; [|lra].
      apply Rmult_le_pos; [exact Hdl|]. left. now apply Rinv_0_lt_compat. }
    assert (Hinv : (/ ratio (iterate root_down 24 (x * scale))
                    <= / (1 + IZR dl / IZR scale))%R).
    { apply Rinv_le_contravar; assumption. }
    eapply Rlt_le_trans; [|exact H].
    replace lo with (2 ^ 24 * (lo / 2 ^ 24))%R by (field; lra).
    apply Rmult_lt_compat_l; [exact Hp | lra].
  - pose proof (ln_upper 24 (x * scale) Hn) as H.
    apply ratio_le in Hu. rewrite ratio_offset in Hu.
    eapply Rle_lt_trans; [exact H|].
    eapply Rle_lt_trans; [|exact Hhi].
    apply Rmult_le_compat_l; lra.
Qed.

Lemma ln_101_bounds : (4.6151 < ln 101 < 4.61513)%R.
Proof.
  apply (ln_between 101 27508200000 27508300000).
  - lia.
  - lia.
  - vm_compute. discriminate.
  - vm_compute. discriminate.
  - unfold scale. change (10 ^ 17)%Z with 100000000000000000%Z. lra.
  - unfold scale. change (10 ^ 17)%Z with 100000000000000000%Z. lra.
Qed.

Lemma ln_11_bounds : (2.3978 < ln 11 < 2.3979)%R.
Proof.
  apply (ln_between 11 14292500000 14292590000).
  - lia.
  - lia.
  - vm_compute. discriminate.
  - vm_compute. discriminate.
  - unfold scale. change (10 ^ 17)%Z with 100000000000000000%Z. lra.
  - unfold scale. change (10 ^ 17)%Z with 100000000000000000%Z. lra.
Qed.

(** The worked example of the specification: the digits 3.949 are those of
    the score. *)
Lemma spec_score_example :
  (3.949 < spec_score 100 10 1.0 < 3.950)%R.
Proof.
  unfold spec_score.
  replace (100 + 1)%R with 101%R by lra.
  replace (10 + 1)%R with 11%R by lra.
  pose proof ln_101_bounds. pose proof ln_11_bounds. lra.
Qed.

Lemma recency_score_steps :
  forall days : Z,
    ((days <= 30)%Z -> recency_score days = 1.0%R) /\
    ((30 < days <= 180)%Z -> recency_score days = 0.8%R) /\
    ((180 < days <= 365)%Z -> recency_score days = 0.5%R) /\
    ((365 < days <= 730)%Z -> recency_score days = 0.2%R) /\
    ((730 < days)%Z -> recency_score days = 0.05%R).
Proof.
  intros days. unfold recency_score.
  repeat split; intros H;
    repeat match goal with
    | |- context [(?a <=? ?b)%Z] => destruct (Z.leb_spec a b); try lia
    end; reflexivity.
Qed.

(** C6. For a repository record with star and fork counts and a time stamp
    that [strptime] accepts, [calculate_repo_score] is
    (0.7 * ln(stars + 1) + 0.3 * ln(forks + 1)) * recency, where recency
    steps with the days since the last push: at most 30 days 1.0, at most
    180 days 0.8, at most 365 days 0.5, at most 730 days 0.2, beyond that
    0.05.  With 100 stars, 10 forks and a push 5 days ago the score is
    0.7 * ln 101 + 0.3 * ln 11, which lies between 3.949 and 3.950. *)
Theorem score_formula :
  forall w t repo stars forks ts pushed_date,
    counts repo stars forks ->
    dict_get repo "pushed_at" = Some (JStr ts) ->
    ts <> "" ->
    strptime w ts = Some pushed_date ->
    let days_diff := ((utcnow w t - pushed_date) / day_us)%Z in
    calculate_repo_score w t repo
      = spec_score stars forks (recency_score days_diff) /\
    ((days_diff <= 30)%Z -> recency_score days_diff = 1.0%R) /\
    ((30 < days_diff <= 180)%Z -> recency_score days_diff = 0.8%R) /\
    ((180 < days_diff <= 365)%Z -> recency_score days_diff = 0.5%R) /\
    ((365 < days_diff <= 730)%Z -> recency_score days_diff = 0.2%R) /\
    ((730 < days_diff)%Z -> recency_score days_diff = 0.05%R) /\
    (stars = 100%Z -> forks = 10%Z -> days_diff = 5%Z ->
     calculate_repo_score w t repo
       = ((0.7 * ln 101 + 0.3 * ln 11) * 1.0)%R /\
     (3.949 < calculate_repo_score w t repo < 3.950)%R).
Proof.
  intros w t repo stars forks ts pushed_date Hc Hp Hts Hparse days_diff.
  assert (Hscore : calculate_repo_score w t repo
                   = spec_score stars forks (recency_score days_diff)).
  { apply score_with_recency; [exact Hc|].
    rewrite (dict_get_default_some _ _ _ _ Hp).
    unfold recency_of. cbn [truthy].
    apply str_truthy_true in Hts. now rewrite Hts, Hparse. }
  split; [exact Hscore|].
  destruct (recency_score_steps days_diff) as (H1 & H2 & H3 & H4 & H5).
  repeat (split; [assumption|]).
  intros -> -> Hd. rewrite Hscore, Hd.
  change (recency_score 5) with 1.0%R. split.
  - unfold spec_score. f_equal. f_equal; f_equal; f_equal; lra.
  - apply spec_score_example.
Qed.

(* ================================================================== *)
(** * The Response Interpreter *)

(** C9, as stated, fails: the text of an object with the single key foo
    is parsed by the first strategy, and the pipeline ends with that
    object, which has no key [action]. *)
Lemma interpreter_returns_object_without_action :
  try_parse_json_from_llm_response (simple_world "") (j "{'foo': 1}") None
    = Ok (JObj [("foo", JInt 1)]) /\
  dict_has [("foo", JInt 1)] "action" = false.
Proof. split; vm_compute; reflexivity. Qed.

Lemma model_decision_without_action :
  forall w t dom st history last content d,
    llm_invoke w t dom st history = Ok content ->
    try_parse_json_from_llm_response w content last = Ok (JObj d) ->
    dict_has d "action" = false ->
    model_decision w t dom st history last = Ok None.
Proof.
  intros w t dom st history last content d Hllm Hp Hd.
  unfold model_decision. rewrite Hllm. cbn [bind]. rewrite Hp. cbn [bind].
  destruct (truthy (JObj d)); [|reflexivity].
  cbn [py_contains_action bind]. now rewrite Hd.
Qed.

(** C9, amended. A strategy is tried only when the ones before it failed
    to parse; the first parse that succeeds ends the pipeline with its
    value, whether or not that value has the key [action].  The key is
    asked for by the caller: on an object without it,
    [_decide_next_action] takes the fallback. *)
Theorem interpreter_stops_at_first_parse :
  forall w text last,
    let cleaned := strip_fences text in
    let answer := try_parse_json_from_llm_response w text last in
    (forall v, json_loads w cleaned = Loaded v -> answer = Ok v) /\
    (forall v,
        json_loads w cleaned = JSONDecodeError ->
        search_and_load w json_pattern cleaned = Some (Ok v) ->
        answer = Ok v) /\
    (forall v,
        json_loads w cleaned = JSONDecodeError ->
        search_and_load w json_pattern cleaned = None ->
        search_and_load w action_pattern cleaned = Some (Ok v) ->
        answer = Ok v) /\
    (forall v,
        json_loads w cleaned = JSONDecodeError ->
        search_and_load w json_pattern cleaned = None ->
        search_and_load w action_pattern cleaned = None ->
        json_loads w (unescape_braces cleaned) = Loaded v ->
        answer = Ok v) /\
    (forall t dom st history d,
        format_state_summary st = Ok tt ->
        format_history_summary history = Ok tt ->
        llm_invoke w t dom st history = Ok text ->
        answer = Ok (JObj d) ->
        dict_has d "action" = false ->
        decide_next_action w t dom st history last = Ok (fallback_decision st)).
Proof.
  intros w text last cleaned answer.
  unfold answer, try_parse_json_from_llm_response. fold cleaned.
  split; [|split; [|split; [|split]]].
  - intros v H. now rewrite H.
  - intros v H1 H2. now rewrite H1, H2.
  - intros v H1 H2 H3. now rewrite H1, H2, H3.
  - intros v H1 H2 H3 H4. now rewrite H1, H2, H3, H4.
  - intros t dom st history d Hs Hh Hllm Hans Hd.
    unfold decide_next_action. rewrite Hs, Hh. cbn [bind].
    now rewrite (model_decision_without_action w t dom st history last text d
                   Hllm Hans Hd).
Qed.

(** The object with the single key foo: returned by the first strategy,
    discarded by the engine. *)
Lemma interpreter_stops_at_first_parse_witness :
  try_parse_json_from_llm_response (simple_world (j "{'foo': 1}"))
                                   (j "{'foo': 1}") None
    = Ok (JObj [("foo", JInt 1)]) /\
  decide_next_action (simple_world (j "{'foo': 1}")) 1 "containerization"
                     (initial_state "containerization") [] None
    = Ok (Some (Decision (JStr "GENERATE_KEYWORDS") (JObj []))).
Proof.
  pose proof (interpreter_stops_at_first_parse (simple_world (j "{'foo': 1}"))
                (j "{'foo': 1}") None) as (H1 & _ & _ & _ & H5).
  assert (Hparse : try_parse_json_from_llm_response
                     (simple_world (j "{'foo': 1}")) (j "{'foo': 1}") None
                   = Ok (JObj [("foo", JInt 1)])).
  { apply H1. vm_compute. reflexivity. }
  split; [exact Hparse|].
  apply (H5 1 "containerization" (initial_state "containerization") []
            [("foo", JInt 1)]); reflexivity.
Defined.

(** Removing text adds no character. *)
Lemma replace_from_removes :
  forall old c s skip,
    has_char c (replace_from old "" skip s) = true -> has_char c s = true.
Proof.
  intros old c s. induction s as [|a s IH]; intros skip H;
    cbn [replace_from has_char] in *.
  - discriminate.
  - destruct skip as [|k].
    + destruct (prefix old (String a s)).
      * cbn [append] in H. apply IH in H. rewrite H. apply orb_true_r.
      * cbn [has_char] in H. apply orb_true_iff in H. destruct H as [H|H].
        -- rewrite H. reflexivity.
        -- apply IH in H. rewrite H. apply orb_true_r.
    + apply IH in H. rewrite H. apply orb_true_r.
Qed.

Lemma strip_fences_keeps_absent :
  forall c text, has_char c text = false -> has_char c (strip_fences text) = false.
Proof.
  intros c text H. unfold strip_fences, replace.
  destruct (has_char c (replace_from fence "" 0 _)) eqn:E; [|reflexivity].
  apply replace_from_removes in E. apply replace_from_removes in E. congruence.
Qed.

(** A text without the first character of [old] holds no occurrence of it. *)
Lemma replace_absent :
  forall c old new s,
    has_char c s = false -> replace (String c old) new s = s.
Proof.
  intros c old new s. unfold replace. induction s as [|a s IH]; intros H;
    cbn [replace_from prefix has_char] in *.
  - reflexivity.
  - apply orb_false_iff in H. destruct H as [Hac Hs].
    destruct (ascii_dec c a) as [->|Hne].
    + rewrite Ascii.eqb_refl in Hac. discriminate.
    + now rewrite (IH Hs).
Qed.

Lemma unescape_braces_absent :
  forall s,
    has_char "{"%char s = false -> has_char "}"%char s = false ->
    unescape_braces s = s.
Proof.
  intros s Ho Hc. unfold unescape_braces.
  rewrite (replace_absent "{"%char "{" "{" s Ho).
  apply (replace_absent "}"%char "}" "}" s Hc).
Qed.

Lemma strip_prefix_prefix :
  forall p s r, strip_prefix p s = Some r -> prefix p s = true.
Proof.
  induction p as [|a p IH]; intros s r H; cbn in *.
  - destruct s; reflexivity.
  - destruct s as [|b s]; [discriminate|]. cbn.
    destruct (Ascii.eqb_spec a b) as [->|Hne]; [|discriminate].
    destruct (ascii_dec b b) as [_|Hbb]; [|congruence].
    now apply (IH s r).
Qed.

(** A pattern that begins with a literal matches only where the literal
    stands. *)
Lemma re_search_literal :
  forall l p s ps, re_search (Lit l :: p) s = Some ps -> contains l s = true.
Proof.
  intros l p s. induction s as [|a s IH]; intros ps H.
  - cbn [re_search match_here] in H.
    destruct (strip_prefix l "") as [r|] eqn:E.
    + cbn [contains]. now rewrite (strip_prefix_prefix _ _ _ E).
    + discriminate.
  - cbn [re_search match_here] in H.
    destruct (strip_prefix l (String a s)) as [r|] eqn:E.
    + cbn [contains]. now rewrite (strip_prefix_prefix _ _ _ E).
    + cbn [contains]. rewrite (IH ps H). apply orb_true_r.
Qed.

Lemma contains_char :
  forall c s, contains (String c "") s = true -> has_char c s = true.
Proof.
  intros c s. induction s as [|a s IH]; intros H; cbn in H.
  - discriminate.
  - cbn. destruct (ascii_dec c a) as [->|Hne].
    + now rewrite Ascii.eqb_refl.
    + cbn in H. rewrite (IH H). apply orb_true_r.
Qed.

Lemma search_and_load_without_brace :
  forall w p s,
    has_char "{"%char s = false -> search_and_load w (Lit "{" :: p) s = None.
Proof.
  intros w p s H. unfold search_and_load.
  destruct (re_search (Lit "{" :: p) s) as [ps|] eqn:E; [|reflexivity].
  apply re_search_literal, contains_char in E. congruence.
Qed.

Lemma extract_by_regex_without_action :
  forall w s,
    contains (dq ++ "action" ++ dq) s = false -> extract_by_regex w s = None.
Proof.
  intros w s H. unfold extract_by_regex, string_value_pattern.
  destruct (re_search _ s) as [ps|] eqn:E; [|reflexivity].
  apply re_search_literal in E. congruence.
Qed.

(** C8, as stated, fails: on the prose hello world the interpreter
    returns a SEARCH_GITHUB decision when the last executed action was
    GENERATE_KEYWORDS. *)
Lemma interpreter_on_prose_after_keywords :
  has_char "{"%char "hello world" = false /\
  has_char "}"%char "hello world" = false /\
  contains (dq ++ "action" ++ dq) "hello world" = false /\
  try_parse_json_from_llm_response (simple_world "") "hello world"
                                   (Some (JStr "GENERATE_KEYWORDS"))
    = Ok (JObj [("action", JStr "SEARCH_GITHUB"); ("params", JObj []);
                ("reasoning", JStr "关键词已生成，需要执行GitHub搜索")]) /\
  try_parse_json_from_llm_response (simple_world "") "hello world"
                                   (Some (JStr "GENERATE_KEYWORDS"))
    <> Ok (JObj []).
Proof.
  repeat split; try (vm_compute; reflexivity).
  vm_compute. discriminate.
Qed.

(** Why the amended claim speaks of the text after the fences are
    removed: a text that is a JSON document of its own is returned as it is
    parsed, object or not, and removing a fence can bring the two halves of
    a quoted key together. *)
Lemma interpreter_on_number :
  try_parse_json_from_llm_response (simple_world "") "42" None = Ok (JInt 42).
Proof. vm_compute. reflexivity. Qed.

Lemma interpreter_joins_across_fence :
  let text := j ("'act" ++ fence ++ "ion': 'SEARCH_WEB'") in
  contains (dq ++ "action" ++ dq) text = false /\
  has_char "{"%char text = false /\
  try_parse_json_from_llm_response (simple_world "") text None
    = Ok (JObj [("action", JStr "SEARCH_WEB"); ("params", JObj []);
                ("reasoning", JStr "通过正则表达式提取的决策")]).
Proof. repeat split; vm_compute; reflexivity. Qed.

(** C8, amended. On a text without braces which, once the code fences are
    removed, is no JSON document and holds no quoted action key, the
    interpreter returns what its last resort makes of the last executed
    action: a SEARCH_GITHUB decision after GENERATE_KEYWORDS, a
    CALCULATE_SCORES decision after SEARCH_GITHUB, and the empty object
    otherwise. *)
Theorem interpreter_on_prose :
  forall w text last,
    has_char "{"%char text = false ->
    has_char "}"%char text = false ->
    json_loads w (strip_fences text) = JSONDecodeError ->
    contains (dq ++ "action" ++ dq) (strip_fences text) = false ->
    try_parse_json_from_llm_response w text last = Ok (last_resort last) /\
    ((forall a, last = Some a ->
                eq_str a "GENERATE_KEYWORDS" = false /\
                eq_str a "SEARCH_GITHUB" = false) ->
     try_parse_json_from_llm_response w text last = Ok (JObj [])).
Proof.
  intros w text last Ho Hc Hjson Hact.
  assert (Ho' := strip_fences_keeps_absent _ _ Ho).
  assert (Hc' := strip_fences_keeps_absent _ _ Hc).
  assert (Hres : try_parse_json_from_llm_response w text last
                 = Ok (last_resort last)).
  { unfold try_parse_json_from_llm_response. rewrite Hjson.
    unfold json_pattern, action_pattern.
    rewrite !(search_and_load_without_brace w _ _ Ho').
    rewrite (unescape_braces_absent _ Ho' Hc'), Hjson.
    now rewrite (extract_by_regex_without_action w _ Hact). }
  split; [exact Hres|].
  intros Hlast. rewrite Hres. unfold last_resort.
  destruct last as [a|]; [|reflexivity].
  destruct (Hlast a eq_refl) as [-> ->]. reflexivity.
Qed.

(** The prose hello world before any action and after a web search. *)
Lemma interpreter_on_prose_witness :
  try_parse_json_from_llm_response (simple_world "") "hello world" None
    = Ok (JObj []) /\
  try_parse_json_from_llm_response (simple_world "") "hello world"
                                   (Some (JStr "SEARCH_WEB"))
    = Ok (JObj []).
Proof.
  split.
  - apply (interpreter_on_prose (simple_world "") "hello world" None);
      try reflexivity.
    intros a H. discriminate.
  - apply (interpreter_on_prose (simple_world "") "hello world"
             (Some (JStr "SEARCH_WEB"))); try reflexivity.
    intros a H. injection H as <-. split; reflexivity.
Defined.

(* ================================================================== *)
(** * Concrete runs *)

(** The worked example: 100 stars, 10 forks, pushed on 1 January 2024, read
    at noon of 6 January 2024. *)
Lemma score_formula_witness :
  let repo := sample_repo (JStr "2024-01-01T00:00:00Z") in
  strptime dated_world "2024-01-01T00:00:00Z" = Some 1704067200000000%Z /\
  ((utcnow dated_world 1 - 1704067200000000) / day_us = 5)%Z /\
  calculate_repo_score dated_world 1 repo
    = ((0.7 * ln 101 + 0.3 * ln 11) * 1.0)%R /\
  (3.949 < calculate_repo_score dated_world 1 repo < 3.950)%R.
Proof.
  intros repo.
  assert (Hparse : strptime dated_world "2024-01-01T00:00:00Z"
                   = Some 1704067200000000%Z) by (vm_compute; reflexivity).
  assert (Hdays : ((utcnow dated_world 1 - 1704067200000000) / day_us = 5)%Z)
    by (vm_compute; reflexivity).
  split; [exact Hparse|]. split; [exact Hdays|].
  assert (Hc : counts repo 100 10).
  { unfold counts, repo. cbn. repeat split; (reflexivity || lia). }
  destruct (score_formula dated_world 1 repo 100 10 "2024-01-01T00:00:00Z"
              1704067200000000%Z Hc eq_refl ltac:(discriminate) Hparse)
    as (_ & _ & _ & _ & _ & _ & Hex).
  exact (Hex eq_refl eq_refl Hdays).
Defined.

(** The three ways out with the engine of the agent: a model that never
    says anything usable and searches that find nothing exhaust the bound;
    a model that answers COMPLETE at once ends the loop by [break] before
    anything is dispatched; a model that sends params in a list makes the
    second decision call raise. *)
Lemma loop_at_most_ten_dispatches_witness :
  (exists ls,
      orchestration_loop barren_world
        (agent_engine barren_world "containerization") "containerization"
        = Exhausted ls /\
      ls_dispatched ls = 10 /\ List.length (ls_history ls) = 10) /\
  (exists ls params,
      orchestration_loop completing_world
        (agent_engine completing_world "containerization") "containerization"
        = Completed ls /\
      ls_iterations ls = S (ls_dispatched ls) /\
      agent_engine completing_world "containerization" (ls_iterations ls)
        (ls_state ls) (ls_history ls) (ls_last_action ls)
        = Ok (Some (Decision (JStr "COMPLETE") params))) /\
  (exists e ls,
      orchestration_loop listing_world
        (agent_engine listing_world "containerization") "containerization"
        = Aborted e ls /\
      ls_dispatched ls < 10 /\
      agent_engine listing_world "containerization" (S (ls_iterations ls))
        (ls_state ls) (ls_history ls) (ls_last_action ls) = Raise e).
Proof.
  split; [|split].
  - pose proof (loop_at_most_ten_dispatches barren_world
                  (agent_engine barren_world "containerization")
                  "containerization") as H.
    cbv zeta in H.
    destruct (orchestration_loop barren_world
                (agent_engine barren_world "containerization")
                "containerization") as [ls|ls|e ls] eqn:Hx;
      [exfalso; vm_compute in Hx; discriminate | |
       exfalso; vm_compute in Hx; discriminate].
    destruct H as (_ & _ & Hh & _ & He & _).
    destruct (He ls eq_refl) as [Hd _]. cbn in Hh.
    exists ls. split; [reflexivity|]. split; [exact Hd | now rewrite Hh].
  - pose proof (loop_at_most_ten_dispatches completing_world
                  (agent_engine completing_world "containerization")
                  "containerization") as H.
    cbv zeta in H.
    destruct (orchestration_loop completing_world
                (agent_engine completing_world "containerization")
                "containerization") as [ls|ls|e ls] eqn:Hx;
      [| exfalso; vm_compute in Hx; discriminate |
       exfalso; vm_compute in Hx; discriminate].
    destruct H as (_ & _ & _ & Hc & _).
    destruct (Hc ls eq_refl) as (_ & Hi & params & Hdec).
    exists ls, params. split; [reflexivity|]. split; [exact Hi | exact Hdec].
  - pose proof (loop_at_most_ten_dispatches listing_world
                  (agent_engine listing_world "containerization")
                  "containerization") as H.
    cbv zeta in H.
    destruct (orchestration_loop listing_world
                (agent_engine listing_world "containerization")
                "containerization") as [ls|ls|e ls] eqn:Hx;
      [exfalso; vm_compute in Hx; discriminate |
       exfalso; vm_compute in Hx; discriminate |].
    destruct H as (_ & _ & _ & _ & _ & Ha & _).
    destruct (Ha e ls eq_refl) as (Hlt & _ & [Hraise | [Hnone He]]).
    + exists e, ls. split; [reflexivity|]. split; [exact Hlt | exact Hraise].
    + exfalso. vm_compute in Hx. injection Hx as He' _. subst e. discriminate.
Defined.

(** C1: the code departs from the claim.  When the model answers COMPLETE
    at the first iteration the loop ends with no report and no ranking,
    and [run] returns the empty string: the templated message is the
    default of a lookup that always finds its key. *)
Theorem run_returns_empty_string :
  run (simple_world (j "{'action': 'COMPLETE', 'params': {}, 'reasoning': 'done'}"))
      "containerization"
    = "".
Proof. vm_compute. reflexivity. Qed.

(** The same when nothing is found: ten iterations of searches that come
    back empty, no ranking, no report, and [run] returns the empty string
    where the message that nothing was found would be expected. *)
Lemma run_without_results_returns_empty :
  run barren_world "containerization" = "" /\
  exists ls,
    orchestration_loop barren_world
      (agent_engine barren_world "containerization") "containerization"
      = Exhausted ls /\
    ranked_repos (ls_state ls) = [] /\
    map h_action (ls_history ls)
      = [JStr "GENERATE_KEYWORDS"; JStr "SEARCH_GITHUB"; JStr "CALCULATE_SCORES";
         JStr "SEARCH_GITHUB"; JStr "CALCULATE_SCORES"; JStr "SEARCH_GITHUB";
         JStr "CALCULATE_SCORES"; JStr "SEARCH_GITHUB"; JStr "CALCULATE_SCORES";
         JStr "SEARCH_GITHUB"].
Proof.
  split; [vm_compute; reflexivity|].
  eexists. split; [vm_compute; reflexivity|].
  split; reflexivity.
Qed.

(** [run] returns the empty string exactly when nothing raised and the
    state after the loop holds no report. *)
Lemma run_empty_iff :
  forall w dom,
    run w dom = "" <->
    exists plan ls,
      plan_chain w dom = Ok plan /\
      (orchestration_loop w (agent_engine w dom) dom = Completed ls \/
       orchestration_loop w (agent_engine w dom) dom = Exhausted ls) /\
      final_report (finalize w dom ls) = "".
Proof.
  intros w dom. unfold run, run_body. split.
  - intros H. destruct (plan_chain w dom) as [plan|e]; cbn [bind] in *.
    + destruct (orchestration_loop w (agent_engine w dom) dom) as [ls|ls|e ls];
        cbn [state_get] in H.
      * exists plan, ls. auto.
      * exists plan, ls. auto.
      * cbn in H. discriminate.
    + cbn in H. discriminate.
  - intros (plan & ls & Hplan & Hloop & Hrep). rewrite Hplan. cbn [bind].
    destruct Hloop as [-> | ->]; cbn [state_get]; exact Hrep.
Qed.

(** A run that fails returns the description of the failure. *)
Lemma run_reports_failure :
  forall w dom e,
    run_body w dom = Raise e -> run w dom = "搜索过程中出错: " ++ exn_str e.
Proof. intros w dom e H. unfold run. now rewrite H. Qed.

(** The invariant at the start and at the end of a run. *)
Lemma report_only_with_ranking_witness :
  report_has_ranking (ls_state (start "containerization")) /\
  report_has_ranking
    (finalize dated_world "containerization"
       (exit_state (orchestration_loop dated_world
                      (agent_engine dated_world "containerization")
                      "containerization"))).
Proof.
  destruct (report_only_with_ranking dated_world "containerization")
    as (Hreach & _ & Hfinal).
  split; [|exact Hfinal].
  apply Hreach. apply reach_start.
Defined.

(** Two scoring passes over one search result. *)
Lemma calculate_scores_idempotent_witness :
  let st := set_github_repos (initial_state "containerization")
              (github_search dated_world 1 (JArr [JStr "docker"])) in
  let calc := JStr "CALCULATE_SCORES" in
  let st1 := update_state st calc (execute_action dated_world 2 calc (JObj []) st) in
  let st2 := update_state st1 calc (execute_action dated_world 2 calc (JObj []) st1) in
  st2 = st1 /\ List.length (ranked_repos st1) = 1.
Proof.
  intros st calc st1 st2.
  destruct (calculate_scores_idempotent dated_world 2 st (JObj []) (JObj []))
    as (Hsame & _ & Hrep & _ & _).
  split; [exact Hsame|].
  fold calc in Hrep. fold st1 in Hrep. rewrite Hrep.
  - reflexivity.
  - discriminate.
Defined.

(** What [_execute_action] returns has the shape its action stores. *)
Lemma execute_action_shape :
  forall w t action params st,
    let r := execute_action w t action params st in
    (eq_str action "GENERATE_KEYWORDS" = true -> exists l, r = RValues l) /\
    (eq_str action "SEARCH_GITHUB" = true -> r = RNone \/ exists l, r = RValues l) /\
    (eq_str action "GENERATE_WEB_QUERIES" = true -> exists l, r = RValues l) /\
    (eq_str action "SEARCH_WEB" = true -> r = RNone \/ exists l, r = RWeb l) /\
    (eq_str action "EXTRACT_GITHUB_LINKS" = true ->
     r = RNone \/ exists l, r = RLinks l) /\
    (eq_str action "GET_REPO_DETAILS" = true ->
     r = RNone \/ exists d, r = RDetails d) /\
    (eq_str action "CALCULATE_SCORES" = true -> exists l, r = RRanked l) /\
    (eq_str action "GENERATE_REPORT" = true -> exists s, r = RText s).
Proof.
  intros w t action params st r. unfold r, execute_action, execute_body.
  repeat split; intros H; apply eq_str_true in H; subst action;
    cbn [eq_str String.eqb Ascii.eqb Bool.eqb andb].
  - eauto.
  - destruct (py_get params "keywords" _) as [kw|e]; cbn [bind]; [|now left].
    destruct (negb (truthy kw)); [right; eauto|].
    destruct (search_github_repositories w t kw); cbn [bind]; [right; eauto|now left].
  - eauto.
  - destruct (py_get params "query" _) as [q|e]; cbn [bind]; [right; eauto|now left].
  - destruct (py_get params "url" _) as [u|e]; cbn [bind]; [|now left].
    destruct (negb (truthy _)); right; eauto.
  - destruct (py_get params "repo_url" _) as [u|e]; cbn [bind]; [|now left].
    destruct (negb (truthy u)); right; eauto.
  - eauto.
  - destruct (negb (nonempty (ranked_repos st))); eauto.
Qed.

(* ================================================================== *)
(** * Further properties: the ranking *)

Lemma insert_desc_perm :
  forall x l, Permutation (insert_desc x l) (x :: l).
Proof.
  intros x l. induction l as [|y l IH]; cbn.
  - apply Permutation_refl.
  - destruct (Rlt_dec (sr_score y) (sr_score x)).
    + apply Permutation_refl.
    + eapply Permutation_trans; [apply perm_skip, IH | apply perm_swap].
Qed.

Lemma sort_desc_perm : forall l, Permutation (sort_desc l) l.
Proof.
  intros l. unfold sort_desc.
  assert (H : forall acc,
            Permutation (fold_left (fun acc x => insert_desc x acc) l acc)
                        (acc ++ l)%list).
  { induction l as [|x l IH]; intros acc; cbn.
    - rewrite app_nil_r. apply Permutation_refl.
    - eapply Permutation_trans; [apply IH|].
      eapply Permutation_trans;
        [apply Permutation_app_tail, insert_desc_perm|].
      cbn. apply Permutation_middle. }
  apply (H []).
Qed.

Lemma descending_app :
  forall l1 l2 a b,
    descending (l1 ++ l2)%list -> In a l1 -> In b l2 ->
    (sr_score b <= sr_score a)%R.
Proof.
  unfold descending. induction l1 as [|x l1 IH]; intros l2 a b H Ha Hb.
  - contradiction.
  - cbn in H. inversion H as [|? ? Hs Hall]; subst.
    destruct Ha as [->|Ha].
    + apply (proj1 (Forall_forall _ _) Hall b).
      apply in_or_app. now right.
    + exact (IH l2 a b Hs Ha Hb).
Qed.

(** The ranking is the head of the scored candidates put in descending
    order: with what is left out it makes up the candidates, no record is
    lost, doubled or invented; it holds ten records, or all of them when
    they are fewer; and no record left out scores more than a ranked
    one. *)
Theorem ranking_is_top_ten :
  forall (w : World) (t : nat) (st : State),
    exists left_out,
      Permutation (calculate_scores w t st ++ left_out)%list
                  (scored_candidates w t st) /\
      List.length (calculate_scores w t st)
        = Nat.min 10 (List.length (scored_candidates w t st)) /\
      (forall a b, In a (calculate_scores w t st) -> In b left_out ->
                   (sr_score b <= sr_score a)%R).
Proof.
  intros w t st. unfold calculate_scores, scored_candidates.
  set (cands := add_candidates w t (candidate_repos st)
                  (from_github (github_repos st))).
  destruct cands as [|c cands'] eqn:Hc.
  - exists []. cbn. repeat split; [apply Permutation_refl | contradiction].
  - cbn [nonempty negb]. rewrite <- Hc. clear Hc.
    set (sorted := sort_desc (map (score_repo w t) cands)).
    exists (skipn 10 sorted). split; [|split].
    + rewrite firstn_skipn. apply sort_desc_perm.
    + rewrite length_firstn. unfold sorted.
      now rewrite (Permutation_length (sort_desc_perm _)).
    + intros a b Ha Hb.
      apply (descending_app (firstn 10 sorted) (skipn 10 sorted));
        [|exact Ha|exact Hb].
      rewrite firstn_skipn. apply sort_desc_descending.
Qed.

Lemma filter_insert_desc :
  forall v x l,
    descending l ->
    filter (same_score v) (insert_desc x l)
      = (filter (same_score v) l ++ filter (same_score v) [x])%list.
Proof.
  intros v x l H. unfold descending in H.
  induction H as [|y l Hs IH Hall]; cbn [insert_desc].
  - reflexivity.
  - destruct (Rlt_dec (sr_score y) (sr_score x)) as [Hlt|Hge].
    + (* everything from y on scores less than x *)
      assert (Hless : Forall (fun b => (sr_score b < sr_score x)%R) (y :: l)).
      { constructor; [exact Hlt|].
        eapply Forall_impl; [|exact Hall]. cbn. intros b Hb. lra. }
      change (filter (same_score v) (x :: y :: l))
        with (if same_score v x then x :: filter (same_score v) (y :: l)
              else filter (same_score v) (y :: l)).
      change (filter (same_score v) [x])
        with (if same_score v x then [x] else []).
      destruct (same_score v x) eqn:Hx; [|now rewrite app_nil_r].
      assert (Hnone : filter (same_score v) (y :: l) = []).
      { unfold same_score in Hx.
        destruct (Req_dec_T (sr_score x) v) as [Hxv|]; [|discriminate].
        clear - Hless Hxv.
        induction Hless as [|b l' Hb _ IHl]; [reflexivity|].
        cbn. unfold same_score at 1.
        destruct (Req_dec_T (sr_score b) v); [lra | exact IHl]. }
      rewrite Hnone. reflexivity.
    + cbn [filter]. rewrite IH.
      destruct (same_score v y); reflexivity.
Qed.

(** The sort is stable: the records of any one score stand in the ranking
    in the order in which they were scored. *)
Theorem sort_desc_stable :
  forall (l : list ScoredRepo) (v : R),
    filter (same_score v) (sort_desc l) = filter (same_score v) l.
Proof.
  intros l v. unfold sort_desc.
  assert (H : forall acc,
            descending acc ->
            filter (same_score v) (fold_left (fun acc x => insert_desc x acc) l acc)
              = (filter (same_score v) acc ++ filter (same_score v) l)%list).
  { induction l as [|x l IH]; intros acc Hacc; cbn [fold_left].
    - cbn. now rewrite app_nil_r.
    - rewrite (IH _ (insert_desc_descending x acc Hacc)).
      rewrite (filter_insert_desc v x acc Hacc).
      rewrite <- app_assoc. f_equal.
      cbn. destruct (same_score v x); reflexivity. }
  rewrite (H [] ltac:(constructor)). reflexivity.
Qed.

(* ================================================================== *)
(** * Further properties: the score *)

Lemma int_or_missing_default :
  forall repo k, int_or_missing repo k ->
    exists n, dict_get_default repo k (JInt 0) = JInt n.
Proof.
  intros repo k [H|[n H]]; unfold dict_get_default; rewrite H; eauto.
Qed.

Lemma py_or_ints :
  forall a b, exists n, py_or (JInt a) (JInt b) = JInt n.
Proof. intros a b. unfold py_or. destruct (truthy (JInt a)); eauto. Qed.

Lemma recency_score_range :
  forall d, (0.05 <= recency_score d <= 1)%R.
Proof.
  intros d. unfold recency_score.
  repeat match goal with
  | |- context [(?a <=? ?b)%Z] => destruct (a <=? b)%Z
  end; lra.
Qed.

Lemma recency_of_range :
  forall w t p r, recency_of w t p = Some r -> (0.05 <= r <= 1)%R.
Proof.
  intros w t p r H. unfold recency_of in H.
  destruct (truthy p).
  - destruct p; try discriminate.
    destruct (strptime w s); [|discriminate].
    injection H as <-. apply recency_score_range.
  - injection H as <-. lra.
Qed.

Lemma ln_count_nonneg :
  forall n, (0 <= n)%Z -> (0 <= ln (IZR n + 1))%R.
Proof.
  intros n Hn. apply IZR_le in Hn.
  rewrite <- ln_1. apply ln_le_mono; lra.
Qed.

Lemma math_log_int :
  forall n x, math_log (IZR n + 1) = Some x -> (0 <= x)%R.
Proof.
  intros n x H. unfold math_log in H.
  destruct (Rlt_dec 0 (IZR n + 1)) as [Hpos|]; [|discriminate].
  injection H as <-.
  assert (Hn : (0 <= n)%Z).
  { destruct (Z.le_gt_cases 0 n) as [Hle|Hgt]; [exact Hle|].
    exfalso. assert (Hm : (n <= -1)%Z) by lia. apply IZR_le in Hm. lra. }
  now apply ln_count_nonneg.
Qed.

(** With integer star and fork counts (or none) a score is never
    negative, whatever the time stamp and the clock. *)
Theorem score_never_negative :
  forall (w : World) (t : nat) (repo : pydict),
    integer_counts repo ->
    (0 <= calculate_repo_score w t repo)%R.
Proof.
  intros w t repo (Hs & Hsc & Hf & Hfc).
  unfold calculate_repo_score, score_of.
  destruct (int_or_missing_default _ _ Hs) as [a ->].
  destruct (int_or_missing_default _ _ Hsc) as [b ->].
  destruct (int_or_missing_default _ _ Hf) as [c ->].
  destruct (int_or_missing_default _ _ Hfc) as [d ->].
  destruct (py_or_ints a b) as [s ->]. destruct (py_or_ints c d) as [f ->].
  destruct (recency_of w t _) as [r|] eqn:Hr; [|lra].
  apply recency_of_range in Hr. cbn [as_real].
  destruct (math_log (IZR s + 1)) as [ls|] eqn:Hls; [|lra].
  destruct (math_log (IZR f + 1)) as [lf|] eqn:Hlf; [|lra].
  apply math_log_int in Hls, Hlf.
  apply Rmult_le_pos; lra.
Qed.

(** The sample record pushed on 1 January 2024. *)
Lemma score_never_negative_witness :
  (0 <= calculate_repo_score dated_world 1
          (sample_repo (JStr "2024-01-01T00:00:00Z")))%R.
Proof.
  apply (score_never_negative dated_world 1).
  unfold integer_counts, int_or_missing. cbn.
  repeat split; (now left) || (right; eexists; reflexivity).
Defined.

Lemma spec_score_monotone :
  forall s f s' f' r,
    (0 <= s <= s')%Z -> (0 <= f <= f')%Z -> (0 <= r)%R ->
    (spec_score s f r <= spec_score s' f' r)%R.
Proof.
  intros s f s' f' r [Hs0 Hs] [Hf0 Hf] Hr. unfold spec_score.
  apply Rmult_le_compat_r; [exact Hr|].
  assert (H1 : (ln (IZR s + 1) <= ln (IZR s' + 1))%R).
  { apply IZR_le in Hs0, Hs. apply ln_le_mono; lra. }
  assert (H2 : (ln (IZR f + 1) <= ln (IZR f' + 1))%R).
  { apply IZR_le in Hf0, Hf. apply ln_le_mono; lra. }
  lra.
Qed.

(** More stars or more forks never lower the score: of two records with
    the same time stamp, scored at the same instant, the one with at least
    as many stars and forks scores at least as much. *)
Theorem score_monotone_in_counts :
  forall (w : World) (t : nat) (repo repo' : pydict) (s f s' f' : Z),
    counts repo s f -> counts repo' s' f' ->
    dict_get repo "pushed_at" = dict_get repo' "pushed_at" ->
    (s <= s')%Z -> (f <= f')%Z ->
    (calculate_repo_score w t repo <= calculate_repo_score w t repo')%R.
Proof.
  intros w t repo repo' s f s' f' Hc Hc' Hp Hs Hf.
  assert (Hsame : dict_get_default repo "pushed_at" (JStr "")
                  = dict_get_default repo' "pushed_at" (JStr "")).
  { unfold dict_get_default. now rewrite Hp. }
  destruct (recency_of w t (dict_get_default repo "pushed_at" (JStr "")))
    as [r|] eqn:Hr.
  - rewrite (score_with_recency w t repo s f r Hc Hr).
    rewrite Hsame in Hr.
    rewrite (score_with_recency w t repo' s' f' r Hc' Hr).
    apply recency_of_range in Hr.
    destruct Hc as (_ & _ & Hs0 & Hf0 & _).
    apply spec_score_monotone; [lia | lia | lra].
  - unfold calculate_repo_score, score_of. rewrite Hr.
    rewrite <- Hsame, Hr. lra.
Qed.

(** The sample record against one with ten times the stars. *)
Lemma score_monotone_in_counts_witness :
  (calculate_repo_score dated_world 1 (sample_repo (JStr "2024-01-01T00:00:00Z"))
   <= calculate_repo_score dated_world 1
        [("stars", JInt 1000); ("forks", JInt 10);
         ("pushed_at", JStr "2024-01-01T00:00:00Z")])%R.
Proof.
  apply (score_monotone_in_counts dated_world 1 _ _ 100 10 1000 10).
  - unfold counts. cbn. repeat split; (reflexivity || lia).
  - unfold counts. cbn. repeat split; (reflexivity || lia).
  - reflexivity.
  - lia.
  - lia.
Defined.

Lemma recency_score_antitone :
  forall d d', (d <= d')%Z -> (recency_score d' <= recency_score d)%R.
Proof.
  intros d d' H. unfold recency_score.
  repeat match goal with
  | |- context [(?a <=? ?b)%Z] => destruct (Z.leb_spec a b)
  end; try lra; lia.
Qed.

(** A score never rises with time: the same record scored at a later
    reading of the clock scores at most what it scored before. *)
Theorem score_decays_with_time :
  forall (w : World) (t t' : nat) (repo : pydict) (s f : Z),
    counts repo s f ->
    (utcnow w t <= utcnow w t')%Z ->
    (calculate_repo_score w t' repo <= calculate_repo_score w t repo)%R.
Proof.
  intros w t t' repo s f Hc Hclock.
  set (p := dict_get_default repo "pushed_at" (JStr "")).
  assert (Hcases :
    (recency_of w t p = None /\ recency_of w t' p = None) \/
    (exists r r', recency_of w t p = Some r /\ recency_of w t' p = Some r' /\
                  (0 <= r' <= r)%R)).
  { unfold recency_of. destruct (truthy p).
    - destruct p; try (now left).
      destruct (strptime w s0) as [pushed|]; [|now left].
      right. do 2 eexists. split; [reflexivity|]. split; [reflexivity|].
      split.
      + pose proof (recency_score_range ((utcnow w t' - pushed) / day_us)). lra.
      + apply recency_score_antitone. apply Z.div_le_mono; [reflexivity | lia].
    - right. exists 0.1%R, 0.1%R. repeat split; lra. }
  destruct Hcases as [[H1 H2] | (r & r' & H1 & H2 & Hr)].
  - unfold calculate_repo_score, score_of. fold p. rewrite H1, H2. lra.
  - rewrite (score_with_recency w t repo s f r Hc H1).
    rewrite (score_with_recency w t' repo s f r' Hc H2).
    unfold spec_score. destruct Hc as (_ & _ & Hs0 & Hf0 & _).
    pose proof (ln_count_nonneg s Hs0). pose proof (ln_count_nonneg f Hf0).
    apply Rmult_le_compat_l; lra.
Qed.

(** The sample record at the start and 40 days later. *)
Lemma score_decays_with_time_witness :
  (calculate_repo_score ticking_world 1 (sample_repo (JStr "2024-01-01T00:00:00Z"))
   <= calculate_repo_score ticking_world 0
        (sample_repo (JStr "2024-01-01T00:00:00Z")))%R.
Proof.
  apply (score_decays_with_time ticking_world 0 1 _ 100 10).
  - unfold counts. cbn. repeat split; (reflexivity || lia).
  - vm_compute. discriminate.
Defined.

Lemma bad_count_fails :
  forall v, bad_count v ->
    truthy v = true /\
    match as_real v with
    | Some x => math_log (x + 1) = None
    | None => True
    end.
Proof.
  intros v H. destruct v as [| b | n | m e | s | l | d]; cbn in H; try contradiction.
  - split.
    + cbn. destruct (Z.eqb_spec n 0); [lia | reflexivity].
    + cbn. unfold math_log.
      destruct (Rlt_dec 0 (IZR n + 1)) as [Hpos|]; [|reflexivity].
      exfalso. assert (Hm : (n <= -1)%Z) by lia. apply IZR_le in Hm. lra.
  - split; [now apply str_truthy_true | exact I].
  - split; [now apply nonempty_true | exact I].
  - split; [now apply nonempty_true | exact I].
Qed.

(** A star or fork count that is a negative integer, or a non-empty
    string, list or dict, makes the computation raise, and the score is
    0.0. *)
Theorem malformed_count_scores_zero :
  forall (w : World) (t : nat) (repo : pydict) (v : json),
    (dict_get repo "stars" = Some v \/ dict_get repo "forks" = Some v) ->
    bad_count v ->
    calculate_repo_score w t repo = 0%R.
Proof.
  intros w t repo v Hget Hbad.
  destruct (bad_count_fails v Hbad) as [Htr Hfail].
  unfold calculate_repo_score, score_of.
  destruct (recency_of w t _) as [r|]; [|lra].
  destruct Hget as [Hget|Hget];
    rewrite (dict_get_default_some _ _ _ _ Hget).
  - remember (py_or (dict_get_default repo "forks" (JInt 0))
                    (dict_get_default repo "forks_count" (JInt 0))) as fv.
    unfold py_or. rewrite Htr.
    destruct (as_real v) as [x|]; [|lra].
    destruct (as_real fv) as [y|]; [|lra].
    rewrite Hfail. lra.
  - remember (py_or (dict_get_default repo "stars" (JInt 0))
                    (dict_get_default repo "stargazers_count" (JInt 0))) as sv.
    unfold py_or. rewrite Htr.
    destruct (as_real sv) as [y|]; [|lra].
    destruct (as_real v) as [x|]; [|lra].
    rewrite Hfail. destruct (math_log (y + 1)); lra.
Qed.

(** A record with -1 stars. *)
Lemma malformed_count_scores_zero_witness :
  calculate_repo_score dated_world 1
    [("stars", JInt (-1)); ("forks", JInt 10);
     ("pushed_at", JStr "2024-01-01T00:00:00Z")] = 0%R.
Proof.
  apply (malformed_count_scores_zero dated_world 1 _ (JInt (-1))).
  - left. reflexivity.
  - cbn. lia.
Defined.

(** Scoring a GitHub search item directly or after its normalisation by
    the scoring pass gives the same score, when the item carries its counts
    as integers under GitHub's names. *)
Theorem normalize_preserves_score :
  forall (w : World) (t : nat) (repo : pydict) (html_url : json),
    dict_get repo "stars" = None -> dict_get repo "forks" = None ->
    int_or_missing repo "stargazers_count" ->
    int_or_missing repo "forks_count" ->
    calculate_repo_score w t (normalize_repo repo html_url)
      = calculate_repo_score w t repo.
Proof.
  intros w t repo html_url Hs Hf Hsc Hfc.
  unfold calculate_repo_score, score_of.
  rewrite (dict_get_default_none repo _ _ Hs), (dict_get_default_none repo _ _ Hf).
  destruct (int_or_missing_default _ _ Hsc) as [a Ha].
  destruct (int_or_missing_default _ _ Hfc) as [b Hb].
  change (dict_get_default (normalize_repo repo html_url) "pushed_at" (JStr ""))
    with (dict_get_default repo "pushed_at" (JStr "")).
  change (dict_get_default (normalize_repo repo html_url) "stars" (JInt 0))
    with (dict_get_default repo "stargazers_count" (JInt 0)).
  change (dict_get_default (normalize_repo repo html_url) "forks" (JInt 0))
    with (dict_get_default repo "forks_count" (JInt 0)).
  change (dict_get_default (normalize_repo repo html_url) "stargazers_count"
            (JInt 0)) with (JInt 0).
  change (dict_get_default (normalize_repo repo html_url) "forks_count"
            (JInt 0)) with (JInt 0).
  rewrite Ha, Hb, !py_or_count.
  unfold py_or. cbn [truthy Z.eqb negb]. reflexivity.
Qed.

Lemma normalize_preserves_score_witness :
  calculate_repo_score dated_world 1
    (normalize_repo sample_item (JStr "https://github.com/moby/moby"))
    = calculate_repo_score dated_world 1 sample_item.
Proof.
  apply (normalize_preserves_score dated_world 1 sample_item).
  - reflexivity.
  - reflexivity.
  - right. eexists. reflexivity.
  - right. eexists. reflexivity.
Defined.

(* ================================================================== *)
(** * Further properties: the state and the loop *)

Lemma existsb_eqb_false :
  forall url l, existsb (String.eqb url) l = false <-> ~ In url l.
Proof.
  intros url l. induction l as [|x l IH]; cbn.
  - split; [intros _ H; exact H | reflexivity].
  - rewrite orb_false_iff, IH. split.
    + intros [Hx Hl] [->|Hin]; [|contradiction].
      rewrite String.eqb_refl in Hx. discriminate.
    + intros H. split.
      * destruct (String.eqb_spec url x) as [->|]; [|reflexivity].
        exfalso. apply H. now left.
      * intros Hin. apply H. now right.
Qed.

Lemma clean_pool_add :
  forall l url,
    clean_pool l -> str_truthy url = true ->
    existsb (String.eqb url) l = false ->
    clean_pool (l ++ [url]).
Proof.
  intros l url [Hnd Hne] Hurl Hnew. apply existsb_eqb_false in Hnew. split.
  - apply NoDup_app; [exact Hnd | repeat constructor; intros [] | ].
    intros x Hx [<-|[]]. contradiction.
  - intros Hin. apply in_app_or in Hin. destruct Hin as [Hin|[Heq|[]]].
    + contradiction.
    + subst url. discriminate.
Qed.

Lemma merge_links_clean :
  forall links pool, clean_pool pool -> clean_pool (merge_links pool links).
Proof.
  induction links as [|url links IH]; intros pool H; cbn.
  - exact H.
  - destruct (str_truthy url) eqn:Hu; cbn [andb]; [|now apply IH].
    destruct (existsb (String.eqb url) pool) eqn:He; cbn [negb]; [now apply IH|].
    apply IH. now apply clean_pool_add.
Qed.

Lemma merge_links_extends :
  forall links pool, exists added, merge_links pool links = (pool ++ added)%list.
Proof.
  induction links as [|url links IH]; intros pool; cbn.
  - exists []. now rewrite app_nil_r.
  - destruct (str_truthy url && negb (existsb (String.eqb url) pool)).
    + destruct (IH (pool ++ [url])%list) as [added ->].
      exists (url :: added). now rewrite <- app_assoc.
    + apply IH.
Qed.

(** Every link of the result that is not empty is in the pool after the
    merge. *)
Lemma merge_links_complete :
  forall links pool url,
    In url links -> url <> "" -> In url (merge_links pool links).
Proof.
  induction links as [|x links IH]; intros pool url Hin Hne; [contradiction|].
  assert (Hkeep : forall p u, In u p -> In u (merge_links p links)).
  { intros p u Hu. destruct (merge_links_extends links p) as [added ->].
    apply in_or_app. now left. }
  cbn. destruct Hin as [->|Hin].
  - apply str_truthy_true in Hne. rewrite Hne. cbn [andb].
    destruct (existsb (String.eqb url) pool) eqn:He; cbn [negb].
    + apply Hkeep. destruct (in_dec string_dec url pool) as [Hi|Hn]; [exact Hi|].
      apply existsb_eqb_false in Hn. congruence.
    + apply Hkeep. apply in_or_app. right. now left.
  - destruct (str_truthy x && negb (existsb (String.eqb x) pool));
      now apply IH.
Qed.

Ltac update_cases :=
  unfold update_state;
  repeat match goal with
  | |- context [if ?c && result_truthy ?r then _ else _] =>
      destruct (c && result_truthy r) eqn:?
  end.

Lemma update_state_domain :
  forall st action r, domain (update_state st action r) = domain st.
Proof.
  intros st action r.
  update_cases; try reflexivity;
    destruct r as [| l | l | l | [d|] | l | s]; try reflexivity.
  cbn. now destruct (str_truthy (rd_url d) && _).
Qed.

(** [_update_state] keeps what the state holds: the domain is never
    changed, a field that holds data is never emptied, and the candidate
    pool is only appended to. *)
Theorem update_state_keeps_data :
  forall (st : State) (action : json) (r : action_result),
    let st' := update_state st action r in
    domain st' = domain st /\
    (keywords st <> [] -> keywords st' <> []) /\
    (github_repos st <> [] -> github_repos st' <> []) /\
    (web_queries st <> [] -> web_queries st' <> []) /\
    (web_search_results st <> [] -> web_search_results st' <> []) /\
    (exists added, candidate_repos st' = (candidate_repos st ++ added)%list) /\
    (ranked_repos st <> [] -> ranked_repos st' <> []) /\
    (final_report st <> "" -> final_report st' <> "").
Proof.
  intros st action r st'. unfold st'.
  assert (Hsame : forall s : State,
            s = st ->
            domain s = domain st /\
            (keywords st <> [] -> keywords s <> []) /\
            (github_repos st <> [] -> github_repos s <> []) /\
            (web_queries st <> [] -> web_queries s <> []) /\
            (web_search_results st <> [] -> web_search_results s <> []) /\
            (exists added, candidate_repos s = (candidate_repos st ++ added)%list) /\
            (ranked_repos st <> [] -> ranked_repos s <> []) /\
            (final_report st <> "" -> final_report s <> "")).
  { intros s ->. repeat split; auto. exists []. now rewrite app_nil_r. }
  assert (Hnil : exists added : list string,
            candidate_repos st = (candidate_repos st ++ added)%list)
    by (exists []; now rewrite app_nil_r).
  update_cases;
    try (now apply Hsame);
    match goal with
    | Hc : _ && result_truthy r = true |- _ =>
        apply andb_true_iff in Hc; destruct Hc as [_ Hc]
    end;
    destruct r as [| l | l | l | [d|] | l | s]; try (now apply Hsame);
    cbn in *;
    try (destruct (str_truthy (rd_url d) && _); [|now apply Hsame]; cbn);
    repeat split; auto;
    try (intros; now apply nonempty_true);
    try (intros; now apply str_truthy_true);
    try apply merge_links_extends; eauto.
Qed.

Lemma update_state_clean_pool :
  forall st action r,
    clean_pool (candidate_repos st) ->
    clean_pool (candidate_repos (update_state st action r)).
Proof.
  intros st action r H.
  update_cases; try exact H;
    destruct r as [| l | l | l | [d|] | l | s]; try exact H; cbn.
  - now apply merge_links_clean.
  - destruct (str_truthy (rd_url d)) eqn:Hu; cbn [andb]; [|exact H].
    destruct (existsb (String.eqb (rd_url d)) (candidate_repos st)) eqn:He;
      cbn [negb]; [exact H|].
    cbn. now apply clean_pool_add.
Qed.

(** After EXTRACT_GITHUB_LINKS every non-empty link the gateway returned is
    in the candidate pool, and the pool still holds no URL twice. *)
Theorem extracted_links_are_pooled :
  forall (st : State) (links : list string) (url : string),
    clean_pool (candidate_repos st) ->
    In url links -> url <> "" ->
    let st' := update_state st (JStr "EXTRACT_GITHUB_LINKS") (RLinks links) in
    In url (candidate_repos st') /\ clean_pool (candidate_repos st').
Proof.
  intros st links url Hclean Hin Hne st'. split.
  - unfold st', update_state.
    cbn [eq_str String.eqb Ascii.eqb Bool.eqb andb result_truthy].
    destruct links as [|x links']; [contradiction|]. cbn [nonempty].
    cbn [candidate_repos set_candidate_repos].
    now apply merge_links_complete.
  - now apply update_state_clean_pool.
Qed.

(** Two links, one of them already pooled. *)
Lemma extracted_links_are_pooled_witness :
  let st := set_candidate_repos (initial_state "containerization")
              ["https://github.com/moby/moby"] in
  let st' := update_state st (JStr "EXTRACT_GITHUB_LINKS")
               (RLinks ["https://github.com/moby/moby";
                        "https://github.com/containerd/containerd"]) in
  In "https://github.com/containerd/containerd" (candidate_repos st') /\
  clean_pool (candidate_repos st').
Proof.
  intros st st'.
  apply (extracted_links_are_pooled st
           ["https://github.com/moby/moby";
            "https://github.com/containerd/containerd"]).
  - split.
    + repeat constructor; intros [].
    + intros [H|[]]. discriminate.
  - right. left. reflexivity.
  - discriminate.
Defined.

Lemma loop_body_continue_state :
  forall w engine ls ls',
    loop_body w engine ls = Continue ls' ->
    exists action params,
      engine (S (ls_iterations ls)) (ls_state ls) (ls_history ls)
             (ls_last_action ls) = Ok (Some (Decision action params)) /\
      eq_str action "COMPLETE" = false /\
      ls_state ls'
        = update_state (ls_state ls) action
            (execute_action w (S (ls_iterations ls)) action params (ls_state ls)) /\
      ls_history ls'
        = (ls_history ls ++
           [{| h_action := action; h_params := params;
               h_result_summary :=
                 summarize_result
                   (execute_action w (S (ls_iterations ls)) action params
                                   (ls_state ls)) |}])%list /\
      ls_last_action ls' = Some action.
Proof.
  intros w engine ls ls' H. unfold loop_body in H.
  destruct (engine _ _ _ _) as [[[action params]|]|e]; try discriminate.
  destruct (eq_str action "COMPLETE") eqn:Ha; try discriminate.
  injection H as <-. exists action, params. cbn. repeat split; auto.
Qed.

Lemma newest_action_snoc :
  forall history entry,
    newest_action (history ++ [entry]) = Some (h_action entry).
Proof.
  intros history entry. unfold newest_action. now rewrite rev_app_distr.
Qed.

(** Whatever the engine, in every state the loop passes through the
    counters agree with the history (one entry per iteration made),
    [last_action] is the action of the newest entry, the domain is the one
    [run] was called with, the candidate pool holds no URL twice and no
    empty URL, and the bound on the iterations holds. *)
Theorem loop_keeps_its_books :
  forall (w : World) (engine : Engine) (dom : string) (ls : LoopState),
    reachable_with w engine dom ls ->
    ls_dispatched ls = ls_iterations ls /\
    List.length (ls_history ls) = ls_iterations ls /\
    ls_last_action ls = newest_action (ls_history ls) /\
    domain (ls_state ls) = dom /\
    clean_pool (candidate_repos (ls_state ls)) /\
    ls_iterations ls <= max_iterations.
Proof.
  intros w engine dom ls H. induction H as [|ls ls' Hr IH Hlt Hb].
  - cbn. split; [reflexivity|]. split; [reflexivity|]. split; [reflexivity|].
    split; [reflexivity|]. split.
    + split; [constructor | intros []].
    + unfold max_iterations; lia.
  - destruct IH as (Hd & Hh & Hl & Hdom & Hpool & _).
    destruct (loop_body_continue _ _ _ _ Hb) as (Hi' & Hd' & Hh').
    destruct (loop_body_continue_state _ _ _ _ Hb)
      as (action & params & _ & _ & Hst & Hhist & Hlast).
    split; [lia|]. split; [lia|]. split; [|split; [|split]].
    + rewrite Hlast, Hhist. now rewrite newest_action_snoc.
    + rewrite Hst. now rewrite update_state_domain.
    + rewrite Hst. now apply update_state_clean_pool.
    + lia.
Qed.

(** One pass with the engine that keeps asking for a web search. *)
Lemma loop_keeps_its_books_witness :
  exists ls,
    loop_body dated_world restless_engine (start "containerization")
      = Continue ls /\
    ls_iterations ls = 1 /\ List.length (ls_history ls) = 1 /\
    ls_last_action ls = newest_action (ls_history ls) /\
    domain (ls_state ls) = "containerization".
Proof.
  destruct (loop_body dated_world restless_engine (start "containerization"))
    as [ls | ls | e] eqn:Hb; try (vm_compute in Hb; discriminate).
  exists ls. split; [reflexivity|].
  destruct (loop_keeps_its_books dated_world restless_engine
              "containerization" ls) as (_ & Hh & Hl & Hdom & _).
  - apply (reach_with_step _ _ _ (start "containerization"));
      [apply reach_with_start | cbn; unfold max_iterations; lia | exact Hb].
  - destruct (loop_body_continue _ _ _ _ Hb) as (Hi & _).
    cbn in Hi. rewrite Hh, Hi. repeat split; assumption.
Defined.

Lemma update_state_falsy :
  forall st action r,
    result_truthy r = false -> update_state st action r = st.
Proof.
  intros st action r H. unfold update_state. rewrite H.
  repeat rewrite andb_false_r. reflexivity.
Qed.

Lemma execute_unknown :
  forall w t action params st,
    unknown_action action -> execute_body w t action params st = Ok RNone.
Proof.
  intros w t action params st H. unfold execute_body.
  repeat match goal with
  | |- context [eq_str action ?name] =>
      rewrite (H name) by (cbn; tauto)
  end.
  reflexivity.
Qed.

(** A dispatch that cannot be carried out is swallowed: for an action
    [_execute_action] does not know, and for an action that reads its
    parameters when [params] is no mapping, the result is None, the state
    is left as it was and the history records the summary of None. *)
Theorem failed_dispatch_changes_nothing :
  forall (w : World) (t : nat) (action params : json) (st : State),
    unknown_action action \/
    (reads_params action /\ is_mapping params = false) ->
    execute_action w t action params st = RNone /\
    update_state st action (execute_action w t action params st) = st /\
    summarize_result (execute_action w t action params st) = "无结果".
Proof.
  intros w t action params st H.
  assert (Hr : execute_action w t action params st = RNone).
  { unfold execute_action. destruct H as [H | [H Hp]].
    - now rewrite execute_unknown.
    - destruct params; try discriminate;
        destruct H as [-> | [-> | [-> | ->]]]; reflexivity. }
  rewrite Hr. split; [reflexivity|]. split; [|reflexivity].
  now apply update_state_falsy.
Qed.

(** An action name in lower case, and a search with a list for params. *)
Lemma failed_dispatch_changes_nothing_witness :
  update_state populated_state (JStr "search_github")
    (execute_action dated_world 3 (JStr "search_github") (JObj [])
       populated_state) = populated_state /\
  execute_action dated_world 3 (JStr "SEARCH_GITHUB")
    (JArr [JStr "docker"]) populated_state = RNone.
Proof.
  split.
  - apply (failed_dispatch_changes_nothing dated_world 3
             (JStr "search_github") (JObj []) populated_state).
    left. intros name Hin. cbn in Hin.
    repeat (destruct Hin as [<- | Hin]; [reflexivity|]). destruct Hin.
  - apply (failed_dispatch_changes_nothing dated_world 3
             (JStr "SEARCH_GITHUB") (JArr [JStr "docker"]) populated_state).
    right. split; [left; reflexivity | reflexivity].
Defined.

Lemma join_check_strings :
  forall l i, Forall is_str l -> join_check i l = Ok tt.
Proof.
  induction l as [|v l IH]; intros i H; [reflexivity|].
  inversion H as [|? ? [s ->] Hl]; subst. cbn. now apply IH.
Qed.

Lemma Forall_firstn :
  forall (A : Type) (P : A -> Prop) n l, Forall P l -> Forall P (firstn n l).
Proof.
  intros A P n l H. revert n. induction H; intros [|n]; cbn; constructor; auto.
Qed.

Lemma format_history_mappings :
  forall history,
    Forall (fun entry => is_mapping (h_params entry) = true) history ->
    format_history_summary history = Ok tt.
Proof.
  induction 1 as [|entry history He _ IH]; [reflexivity|].
  cbn. unfold items_check. destruct (h_params entry); try discriminate.
  destruct (truthy _); cbn; exact IH.
Qed.

(** With a model out of reach the decision is the fallback's. *)
Lemma decide_mute :
  forall w dom t st history last_action,
    mute w dom ->
    Forall is_str (keywords st) ->
    Forall (fun entry => is_mapping (h_params entry) = true) history ->
    decide_next_action w t dom st history last_action
      = Ok (fallback_decision st).
Proof.
  intros w dom t st history la Hm Hk Hh. unfold decide_next_action.
  unfold format_state_summary.
  rewrite join_check_strings by now apply Forall_firstn.
  rewrite format_history_mappings by exact Hh. cbn [bind].
  unfold model_decision. destruct (Hm t st history) as [e ->]. reflexivity.
Qed.

Lemma from_github_usable :
  forall repos, Exists usable_item repos -> from_github repos <> [].
Proof.
  induction 1 as [v repos (item & -> & Hu) | v repos _ IH].
  - cbn. rewrite Hu. discriminate.
  - cbn. destruct v; auto. destruct (truthy _); [discriminate | auto].
Qed.

Lemma add_candidates_keeps :
  forall w t urls l, l <> [] -> add_candidates w t urls l <> [].
Proof.
  intros w t urls. induction urls as [|u urls IH]; intros l Hl; [exact Hl|].
  cbn. destruct (existsb _ l); [now apply IH|].
  destruct (get_repo_details w t (JStr u)); [|now apply IH].
  apply IH. destruct l; [contradiction | discriminate].
Qed.

Lemma sort_desc_nonempty :
  forall l, l <> [] -> sort_desc l <> [].
Proof.
  intros l Hl Hs. apply Hl.
  apply Permutation_nil. rewrite <- Hs. apply sort_desc_perm.
Qed.

Lemma calculate_scores_nonempty :
  forall w t st,
    Exists usable_item (github_repos st) -> calculate_scores w t st <> [].
Proof.
  intros w t st H. unfold calculate_scores.
  pose proof (add_candidates_keeps w t (candidate_repos st) _
                (from_github_usable _ H)) as Hc.
  destruct (add_candidates _ _ _ _) as [|c cs] eqn:Hadd; [contradiction|].
  cbn [nonempty negb].
  assert (Hs : sort_desc (map (score_repo w t) (c :: cs)) <> [])
    by (apply sort_desc_nonempty; discriminate).
  destruct (sort_desc _); [contradiction | discriminate].
Qed.

Lemma first_truthy_url_truthy :
  forall results url,
    (exists r, In r results /\ truthy (dict_get_none r "url") = true) ->
    truthy (first_truthy_url results url) = true.
Proof.
  induction results as [|r results IH]; intros url (x & Hin & Hx);
    [destruct Hin|].
  cbn. destruct (truthy (dict_get_none r "url")) eqn:Hr; [exact Hr|].
  apply IH. destruct Hin as [-> | Hin]; [congruence | eauto].
Qed.

Lemma merge_links_nonempty :
  forall links pool,
    (exists link, In link links /\ link <> "") -> merge_links pool links <> [].
Proof.
  intros links pool (link & Hin & Hne) Hnil.
  pose proof (merge_links_complete links pool link Hin Hne) as H.
  rewrite Hnil in H. destruct H.
Qed.

Ltac track_history Hact Hmap Hit :=
  cbn [ls_history ls_iterations];
  split; [rewrite map_app, Hact; reflexivity|];
  split; [apply Forall_app; split;
          [exact Hmap | constructor; [reflexivity | constructor]]|];
  now rewrite Hit.

Lemma fallback_step :
  forall w dom k ls,
    mute w dom -> productive w dom -> (k = 4 -> finds_links w) ->
    k < 7 -> on_track dom k ls ->
    exists ls',
      loop_body w (agent_engine w dom) ls = Continue ls' /\
      on_track dom (S k) ls'.
Proof.
  intros w dom k ls Hm Hp Hfind Hk
         (Hph & Hdom & Hstr & Hgh & Hweb & Hact & Hmap & Hit).
  destruct Hph as (P1 & P2 & P3 & P4 & P5 & P6 & P7).
  unfold loop_body, agent_engine.
  rewrite (decide_mute w dom _ _ _ _ Hm Hstr Hmap).
  unfold fallback_decision. rewrite P1, P2, P3, P4, P5, P6, P7.
  destruct k as [|[|[|[|[|[|[|k]]]]]]]; try lia; cbn [Nat.leb negb andb orb].
  - (* GENERATE_KEYWORDS *)
    cbn [eq_str String.eqb Ascii.eqb Bool.eqb].
    eexists; split; [reflexivity|]. unfold on_track. cbn [ls_state].
    change (execute_action w (S (ls_iterations ls)) (JStr "GENERATE_KEYWORDS")
              (JObj []) (ls_state ls))
      with (RValues (generate_keywords w (S (ls_iterations ls))
                       (domain (ls_state ls)))).
    rewrite Hdom.
    destruct (pr_keywords _ _ Hp (S (ls_iterations ls))) as [Hne Hs].
    destruct (generate_keywords w (S (ls_iterations ls)) dom) as [|kw kws] eqn:Hkw;
      [contradiction|].
    refine (conj _ (conj _ (conj _ (conj _ (conj _ _))))).
    + cbn. repeat split; assumption.
    + exact Hdom.
    + exact Hs.
    + lia.
    + lia.
    + track_history Hact Hmap Hit.
  - (* SEARCH_GITHUB *)
    cbn [eq_str String.eqb Ascii.eqb Bool.eqb].
    eexists; split; [reflexivity|]. unfold on_track. cbn [ls_state].
    assert (He : execute_action w (S (ls_iterations ls)) (JStr "SEARCH_GITHUB")
                   (JObj [("keywords", JArr (keywords (ls_state ls)))])
                   (ls_state ls)
                 = RValues (github_search w (S (ls_iterations ls))
                              (JArr (keywords (ls_state ls))))).
    { unfold execute_action, execute_body.
      cbn [eq_str String.eqb Ascii.eqb Bool.eqb py_get dict_get_default
           dict_get bind truthy].
      rewrite P1. reflexivity. }
    rewrite He.
    pose proof (pr_github _ _ Hp (S (ls_iterations ls))
                  (JArr (keywords (ls_state ls)))) as Hu.
    destruct (github_search w (S (ls_iterations ls))
                (JArr (keywords (ls_state ls)))) as [|item items] eqn:Hs;
      [inversion Hu|].
    refine (conj _ (conj _ (conj _ (conj _ (conj _ _))))).
    + cbn. repeat split; assumption.
    + exact Hdom.
    + exact Hstr.
    + intros _. exact Hu.
    + lia.
    + track_history Hact Hmap Hit.
  - (* GENERATE_WEB_QUERIES *)
    cbn [eq_str String.eqb Ascii.eqb Bool.eqb].
    eexists; split; [reflexivity|]. unfold on_track. cbn [ls_state].
    change (execute_action w (S (ls_iterations ls))
              (JStr "GENERATE_WEB_QUERIES") (JObj []) (ls_state ls))
      with (RValues (generate_web_queries w (S (ls_iterations ls))
                       (domain (ls_state ls)))).
    rewrite Hdom.
    pose proof (pr_queries _ _ Hp (S (ls_iterations ls))) as Hne.
    destruct (generate_web_queries w (S (ls_iterations ls)) dom)
      as [|q qs] eqn:Hq; [contradiction|].
    refine (conj _ (conj _ (conj _ (conj _ (conj _ _))))).
    + cbn. repeat split; assumption.
    + exact Hdom.
    + exact Hstr.
    + intros _. apply Hgh. lia.
    + lia.
    + track_history Hact Hmap Hit.
  - (* SEARCH_WEB *)
    destruct (web_queries (ls_state ls)) as [|q qs] eqn:Hq; [discriminate|].
    cbn [eq_str String.eqb Ascii.eqb Bool.eqb].
    eexists; split; [reflexivity|]. unfold on_track. cbn [ls_state].
    assert (He : exists query,
               execute_action w (S (ls_iterations ls)) (JStr "SEARCH_WEB")
                 (JObj [("query", q)]) (ls_state ls)
               = RWeb (search_web w (S (ls_iterations ls)) query)).
    { unfold execute_action, execute_body.
      cbn [eq_str String.eqb Ascii.eqb Bool.eqb py_get dict_get_default
           dict_get bind].
      eexists. reflexivity. }
    destruct He as [query He]. rewrite He.
    pose proof (pr_web _ _ Hp (S (ls_iterations ls)) query) as Hu.
    destruct (search_web w (S (ls_iterations ls)) query) as [|r rs] eqn:Hs.
    { destruct Hu as [(first & rest & url & Hnil & _) _]. discriminate. }
    refine (conj _ (conj _ (conj _ (conj _ (conj _ _))))).
    + unfold phase. cbn. rewrite Hq. repeat split; assumption.
    + exact Hdom.
    + exact Hstr.
    + intros _. apply Hgh. lia.
    + intros _. exact Hu.
    + track_history Hact Hmap Hit.
  - (* EXTRACT_GITHUB_LINKS *)
    destruct (Hweb ltac:(lia)) as [(first & rest & url & Hres & Hurl) Htruthy].
    rewrite Hres, Hurl.
    cbn [eq_str String.eqb Ascii.eqb Bool.eqb].
    eexists; split; [reflexivity|]. unfold on_track. cbn [ls_state].
    assert (He : exists url',
               execute_action w (S (ls_iterations ls))
                 (JStr "EXTRACT_GITHUB_LINKS") (JObj [("url", url)])
                 (ls_state ls)
               = RLinks (extract_github_links w (S (ls_iterations ls)) url')).
    { unfold execute_action, execute_body.
      cbn [eq_str String.eqb Ascii.eqb Bool.eqb py_get dict_get_default
           dict_get bind].
      rewrite P4. cbn [Nat.leb andb].
      destruct (truthy url) eqn:Ht; cbn [negb andb].
      - rewrite Ht. cbn [negb]. eexists. reflexivity.
      - rewrite first_truthy_url_truthy by exact Htruthy. cbn [negb].
        eexists. reflexivity. }
    destruct He as [url' He]. rewrite He.
    pose proof (Hfind eq_refl (S (ls_iterations ls)) url') as Hl.
    pose proof (merge_links_nonempty _ (candidate_repos (ls_state ls)) Hl) as Hmerge.
    destruct (extract_github_links w (S (ls_iterations ls)) url')
      as [|l links] eqn:Hlinks.
    { destruct Hl as (link & [] & _). }
    refine (conj _ (conj _ (conj _ (conj _ (conj _ _))))).
    + unfold phase. cbn [update_state eq_str String.eqb Ascii.eqb Bool.eqb
                         andb result_truthy nonempty].
      cbn [keywords github_repos web_queries web_search_results candidate_repos
           ranked_repos final_report set_candidate_repos].
      apply nonempty_true in Hmerge. rewrite Hmerge.
      repeat split; assumption.
    + exact Hdom.
    + exact Hstr.
    + intros _. apply Hgh. lia.
    + intros _. apply Hweb. lia.
    + track_history Hact Hmap Hit.
  - (* CALCULATE_SCORES *)
    cbn [eq_str String.eqb Ascii.eqb Bool.eqb].
    eexists; split; [reflexivity|]. unfold on_track. cbn [ls_state].
    rewrite execute_calculate_scores, update_calculate_scores.
    pose proof (calculate_scores_nonempty w (S (ls_iterations ls)) (ls_state ls)
                  (Hgh ltac:(lia))) as Hne.
    destruct (calculate_scores w (S (ls_iterations ls)) (ls_state ls))
      as [|r rs] eqn:Hr; [contradiction|].
    refine (conj _ (conj _ (conj _ (conj _ (conj _ _))))).
    + unfold phase. cbn. repeat split; assumption.
    + exact Hdom.
    + exact Hstr.
    + intros _. apply Hgh. lia.
    + intros _. apply Hweb. lia.
    + track_history Hact Hmap Hit.
  - (* GENERATE_REPORT *)
    cbn [eq_str String.eqb Ascii.eqb Bool.eqb].
    eexists; split; [reflexivity|]. unfold on_track. cbn [ls_state].
    assert (He : execute_action w (S (ls_iterations ls)) (JStr "GENERATE_REPORT")
                   (JObj []) (ls_state ls)
                 = RText (generate_final_report w (S (ls_iterations ls))
                            (ranked_repos (ls_state ls)) dom)).
    { unfold execute_action, execute_body.
      cbn [eq_str String.eqb Ascii.eqb Bool.eqb].
      rewrite P6, Hdom. reflexivity. }
    rewrite He.
    pose proof (pr_report _ _ Hp (S (ls_iterations ls))
                  (ranked_repos (ls_state ls))) as Hne.
    destruct (generate_final_report w (S (ls_iterations ls))
                (ranked_repos (ls_state ls)) dom) as [|c report] eqn:Hr;
      [contradiction|].
    refine (conj _ (conj _ (conj _ (conj _ (conj _ _))))).
    + unfold phase. cbn. repeat split; assumption.
    + exact Hdom.
    + exact Hstr.
    + intros _. apply Hgh. lia.
    + intros _. apply Hweb. lia.
    + track_history Hact Hmap Hit.
Qed.

Lemma fallback_end :
  forall w dom ls,
    mute w dom -> on_track dom 7 ls ->
    loop_body w (agent_engine w dom) ls
      = Break {| ls_state := ls_state ls; ls_history := ls_history ls;
                 ls_last_action := ls_last_action ls;
                 ls_iterations := 8;
                 ls_dispatched := ls_dispatched ls |}.
Proof.
  intros w dom ls Hm (Hph & Hdom & Hstr & Hgh & Hweb & Hact & Hmap & Hit).
  destruct Hph as (P1 & P2 & P3 & P4 & P5 & P6 & P7).
  unfold loop_body, agent_engine.
  rewrite (decide_mute w dom _ _ _ _ Hm Hstr Hmap).
  unfold fallback_decision. rewrite P1, P2, P3, P4, P5, P6, P7, Hit.
  reflexivity.
Qed.


Lemma on_track_start : forall dom, on_track dom 0 (start dom).
Proof.
  intros dom. unfold on_track, phase. cbn.
  repeat split; auto; try lia; constructor.
Qed.

(** When the model cannot be reached and every tool finds something, the
    fallback alone carries the run through: the seven actions are
    dispatched once each, in the order of the decision tree, the eighth
    decision is COMPLETE, every field of the state is populated at the end
    and [run] returns the report that was generated. *)
Theorem fallback_completes_the_run :
  forall (w : World) (dom : string),
    mute w dom -> productive w dom -> finds_links w ->
    exists ls,
      orchestration_loop w (agent_engine w dom) dom = Completed ls /\
      map h_action (ls_history ls) = map JStr pipeline /\
      ls_iterations ls = 8 /\
      all_populated (ls_state ls) /\
      run w dom = final_report (ls_state ls).
Proof.
  intros w dom Hm Hp Hl.
  pose proof (on_track_start dom) as H0.
  destruct (fallback_step w dom 0 _ Hm Hp (fun _ => Hl) ltac:(lia) H0) as (l1 & E1 & H1).
  destruct (fallback_step w dom 1 _ Hm Hp (fun _ => Hl) ltac:(lia) H1) as (l2 & E2 & H2).
  destruct (fallback_step w dom 2 _ Hm Hp (fun _ => Hl) ltac:(lia) H2) as (l3 & E3 & H3).
  destruct (fallback_step w dom 3 _ Hm Hp (fun _ => Hl) ltac:(lia) H3) as (l4 & E4 & H4).
  destruct (fallback_step w dom 4 _ Hm Hp (fun _ => Hl) ltac:(lia) H4) as (l5 & E5 & H5).
  destruct (fallback_step w dom 5 _ Hm Hp (fun _ => Hl) ltac:(lia) H5) as (l6 & E6 & H6).
  destruct (fallback_step w dom 6 _ Hm Hp (fun _ => Hl) ltac:(lia) H6) as (l7 & E7 & H7).
  pose proof (fallback_end w dom l7 Hm H7) as E8.
  assert (Hloop : orchestration_loop w (agent_engine w dom) dom
                  = Completed {| ls_state := ls_state l7;
                                 ls_history := ls_history l7;
                                 ls_last_action := ls_last_action l7;
                                 ls_iterations := 8;
                                 ls_dispatched := ls_dispatched l7 |}).
  { unfold orchestration_loop, max_iterations. cbn [while_loop].
    rewrite E1, E2, E3, E4, E5, E6, E7, E8. reflexivity. }
  eexists. split; [exact Hloop|].
  destruct H7 as (Hph & Hdom & Hstr & Hgh & Hweb & Hact & Hmap & Hit).
  destruct Hph as (P1 & P2 & P3 & P4 & P5 & P6 & P7).
  cbn [ls_history ls_iterations ls_state].
  split; [exact Hact|]. split; [reflexivity|]. split.
  - unfold all_populated.
    repeat split;
      try (apply nonempty_true; assumption);
      try (apply str_truthy_true; assumption).
  - unfold run, run_body. destruct (pr_plan _ _ Hp) as [plan ->]. cbn [bind].
    rewrite Hloop. unfold finalize. cbn [ls_state]. rewrite P7. reflexivity.
Qed.

(** The scripted world with the model out of reach. *)
Lemma fallback_completes_the_run_witness :
  exists ls,
    orchestration_loop mute_world (agent_engine mute_world "containerization")
      "containerization" = Completed ls /\
    map h_action (ls_history ls) = map JStr pipeline /\
    run mute_world "containerization" = final_report (ls_state ls).
Proof.
  destruct (fallback_completes_the_run mute_world "containerization")
    as (ls & Hloop & Hact & _ & _ & Hrun).
  - intros t st history. eexists. reflexivity.
  - constructor.
    + eexists. reflexivity.
    + intros t. split; [discriminate|].
      repeat constructor; eexists; reflexivity.
    + intros t kw. left. eexists. split; reflexivity.
    + intros t. discriminate.
    + intros t q. split.
      * do 3 eexists. split; reflexivity.
      * eexists. split; [left; reflexivity | reflexivity].
    + intros t ranked. discriminate.
  - intros t url. eexists. split; [left; reflexivity | discriminate].
  - exists ls. auto.
Defined.

Lemma waiting_step :
  forall w dom ls,
    mute w dom -> finds_no_links w -> waiting_for_links dom ls ->
    exists ls',
      loop_body w (agent_engine w dom) ls = Continue ls' /\
      ls_state ls' = ls_state ls /\
      map h_action (ls_history ls')
        = (map h_action (ls_history ls) ++ [JStr "EXTRACT_GITHUB_LINKS"])%list /\
      waiting_for_links dom ls'.
Proof.
  intros w dom ls Hm Hnone (Hph & Hdom & Hstr & Hweb & Hmap).
  pose proof Hph as (P1 & P2 & P3 & P4 & P5 & P6 & P7).
  unfold loop_body, agent_engine.
  rewrite (decide_mute w dom _ _ _ _ Hm Hstr Hmap).
  unfold fallback_decision. rewrite P1, P2, P3, P4, P5.
  cbn [Nat.leb negb andb orb].
  pose proof Hweb as [(first & rest & url & Hres & Hurl) Htruthy].
  rewrite Hres, Hurl. cbn [eq_str String.eqb Ascii.eqb Bool.eqb].
  assert (He : execute_action w (S (ls_iterations ls))
                 (JStr "EXTRACT_GITHUB_LINKS") (JObj [("url", url)])
                 (ls_state ls)
               = RLinks []).
  { unfold execute_action, execute_body.
    cbn [eq_str String.eqb Ascii.eqb Bool.eqb py_get dict_get_default
         dict_get bind].
    destruct (negb (truthy _)); [reflexivity|].
    now rewrite Hnone. }
  eexists. split; [reflexivity|]. cbn [ls_state ls_history].
  unfold waiting_for_links. cbn [ls_state ls_history].
  rewrite He.
  change (update_state (ls_state ls) (JStr "EXTRACT_GITHUB_LINKS") (RLinks []))
    with (ls_state ls).
  split; [reflexivity|]. split; [now rewrite map_app|].
  split; [exact Hph|]. split; [exact Hdom|]. split; [exact Hstr|].
  split; [exact Hweb|].
  apply Forall_app. split; [exact Hmap | constructor; [reflexivity | constructor]].
Qed.

Lemma waiting_loop :
  forall w dom n ls,
    mute w dom -> finds_no_links w -> waiting_for_links dom ls ->
    exists ls',
      while_loop w (agent_engine w dom) n ls = Exhausted ls' /\
      ls_state ls' = ls_state ls /\
      map h_action (ls_history ls')
        = (map h_action (ls_history ls)
           ++ repeat (JStr "EXTRACT_GITHUB_LINKS") n)%list.
Proof.
  intros w dom n. induction n as [|n IH]; intros ls Hm Hnone Hw.
  - exists ls. cbn. now rewrite app_nil_r.
  - destruct (waiting_step w dom ls Hm Hnone Hw) as (l1 & E1 & Hst & Hact & Hw1).
    destruct (IH l1 Hm Hnone Hw1) as (ls' & E & Hst' & Hact').
    exists ls'. cbn [while_loop]. rewrite E1.
    split; [exact E|]. split; [congruence|].
    rewrite Hact', Hact, <- app_assoc. reflexivity.
Qed.

(** When the model cannot be reached and the pages read hold no repository
    link, the fallback never gets to the scoring: after the web search it
    asks for EXTRACT_GITHUB_LINKS in every pass that is left, the loop ends
    at its bound with the GitHub search results in the state and no
    ranking, and [run] returns the empty string. *)
Theorem linkless_page_blocks_ranking :
  forall (w : World) (dom : string),
    mute w dom -> productive w dom -> finds_no_links w ->
    exists ls,
      orchestration_loop w (agent_engine w dom) dom = Exhausted ls /\
      map h_action (ls_history ls)
        = (map JStr (firstn 4 pipeline)
           ++ repeat (JStr "EXTRACT_GITHUB_LINKS") 6)%list /\
      github_repos (ls_state ls) <> [] /\
      ranked_repos (ls_state ls) = [] /\
      run w dom = "".
Proof.
  intros w dom Hm Hp Hnone.
  assert (Hl : forall k, k < 4 -> k = 4 -> finds_links w) by (intros; lia).
  pose proof (on_track_start dom) as H0.
  destruct (fallback_step w dom 0 _ Hm Hp (Hl 0 ltac:(lia)) ltac:(lia) H0)
    as (l1 & E1 & H1).
  destruct (fallback_step w dom 1 _ Hm Hp (Hl 1 ltac:(lia)) ltac:(lia) H1)
    as (l2 & E2 & H2).
  destruct (fallback_step w dom 2 _ Hm Hp (Hl 2 ltac:(lia)) ltac:(lia) H2)
    as (l3 & E3 & H3).
  destruct (fallback_step w dom 3 _ Hm Hp (Hl 3 ltac:(lia)) ltac:(lia) H3)
    as (l4 & E4 & H4).
  destruct H4 as (Hph & Hdom & Hstr & Hgh & Hweb & Hact & Hmap & Hit).
  assert (Hw : waiting_for_links dom l4).
  { split; [exact Hph|]. split; [exact Hdom|]. split; [exact Hstr|].
    split; [apply Hweb; lia | exact Hmap]. }
  destruct (waiting_loop w dom 6 l4 Hm Hnone Hw) as (ls & E & Hst & Hacts).
  assert (Hloop : orchestration_loop w (agent_engine w dom) dom = Exhausted ls).
  { unfold orchestration_loop, max_iterations. cbn [while_loop].
    rewrite E1, E2, E3, E4. exact E. }
  destruct Hph as (P1 & P2 & P3 & P4 & P5 & P6 & P7).
  exists ls. split; [exact Hloop|]. split; [now rewrite Hacts, Hact|].
  rewrite Hst. split; [now apply nonempty_true|].
  split; [now apply nonempty_false|].
  unfold run, run_body. destruct (pr_plan _ _ Hp) as [plan ->]. cbn [bind].
  rewrite Hloop. unfold finalize. rewrite Hst, P6, P7. cbn.
  now apply str_truthy_false.
Qed.

(** The scripted world with the model out of reach and pages without a
    link. *)
Lemma linkless_page_blocks_ranking_witness :
  exists ls,
    orchestration_loop linkless_world
      (agent_engine linkless_world "containerization") "containerization"
      = Exhausted ls /\
    github_repos (ls_state ls) <> [] /\
    ranked_repos (ls_state ls) = [] /\
    run linkless_world "containerization" = "".
Proof.
  destruct (linkless_page_blocks_ranking linkless_world "containerization")
    as (ls & Hloop & _ & Hgh & Hrank & Hrun).
  - intros t st history. eexists. reflexivity.
  - constructor.
    + eexists. reflexivity.
    + intros t. split; [discriminate|].
      repeat constructor; eexists; reflexivity.
    + intros t kw. left. eexists. split; reflexivity.
    + intros t. discriminate.
    + intros t q. split.
      * do 3 eexists. split; reflexivity.
      * eexists. split; [left; reflexivity | reflexivity].
    + intros t ranked. discriminate.
  - intros t url. reflexivity.
  - exists ls. auto.
Defined.

Section MatcherFacts.
Variable rest : string -> option (list string).

Lemma give_back_rest :
  forall s m ps, give_back rest s = Some (m, ps) -> exists s', rest s' = Some ps.
Proof.
  intros s m ps H. unfold give_back in H.
  destruct (rest s) as [qs|] eqn:Hr; [|discriminate].
  injection H as _ <-. eauto.
Qed.

Lemma star_rest :
  forall cls s m ps, star rest cls s = Some (m, ps) -> exists s', rest s' = Some ps.
Proof.
  intros cls s. induction s as [|c s IH]; intros m ps H; cbn in H.
  - eapply give_back_rest; eauto.
  - destruct (cls c); [|eapply give_back_rest; eauto].
    destruct (star rest cls s) as [[m' ps']|] eqn:Hs.
    + injection H as _ <-. eapply IH; eauto.
    + eapply give_back_rest; eauto.
Qed.

Lemma spaces_rest :
  forall fuel s m ps,
    spaces rest fuel s = Some (m, ps) -> exists s', rest s' = Some ps.
Proof.
  induction fuel as [|fuel IH]; intros s m ps H; cbn in H.
  - eapply give_back_rest; eauto.
  - destruct (strip_space s) as [s1|]; [|eapply give_back_rest; eauto].
    destruct (spaces rest fuel s1) as [[m' ps']|] eqn:Hs.
    + injection H as _ <-. eapply IH; eauto.
    + eapply give_back_rest; eauto.
Qed.
End MatcherFacts.

(** What a match of a pattern that starts with a given atom is made of. *)
Lemma match_here_lit :
  forall l p s ps,
    match_here (Lit l :: p) s = Some ps ->
    exists s' ps', ps = l :: ps' /\ match_here p s' = Some ps'.
Proof.
  intros l p s ps H. cbn in H.
  destruct (strip_prefix l s) as [s'|]; [|discriminate].
  destruct (match_here p s') as [ps'|] eqn:Hp; [|discriminate].
  injection H as <-. eauto.
Qed.

Lemma match_here_one :
  forall cls p s ps,
    match_here (One cls :: p) s = Some ps ->
    exists c s' ps',
      ps = String c "" :: ps' /\ cls c = true /\ match_here p s' = Some ps'.
Proof.
  intros cls p s ps H. cbn in H.
  destruct s as [|c s']; [discriminate|].
  destruct (cls c) eqn:Hc; [|discriminate].
  destruct (match_here p s') as [ps'|] eqn:Hp; [|discriminate].
  injection H as <-. exists c, s', ps'. auto.
Qed.

Lemma match_here_star :
  forall cls p s ps,
    match_here (Star cls :: p) s = Some ps ->
    exists m s' ps', ps = m :: ps' /\ match_here p s' = Some ps'.
Proof.
  intros cls p s ps H. cbn in H.
  destruct (star (match_here p) cls s) as [[m ps']|] eqn:Hs; [|discriminate].
  injection H as <-. destruct (star_rest _ _ _ _ _ Hs) as [s' Hr]. eauto.
Qed.

Lemma match_here_spaces :
  forall p s ps,
    match_here (Spaces :: p) s = Some ps ->
    exists m s' ps', ps = m :: ps' /\ match_here p s' = Some ps'.
Proof.
  intros p s ps H. cbn in H.
  destruct (spaces (match_here p) (String.length s) s) as [[m ps']|] eqn:Hs;
    [|discriminate].
  injection H as <-. destruct (spaces_rest _ _ _ _ _ Hs) as [s' Hr]. eauto.
Qed.

Lemma re_search_match :
  forall p s ps,
    re_search p s = Some ps -> exists s', match_here p s' = Some ps.
Proof.
  intros p s. induction s as [|c s IH]; intros ps H; cbn in H.
  - destruct (match_here p "") eqn:Hm; [|discriminate].
    injection H as <-. eauto.
  - destruct (match_here p (String c s)) eqn:Hm.
    + injection H as <-. eauto.
    + now apply IH.
Qed.

(** The group of a match of [string_value_pattern] is not empty. *)
Lemma string_value_group :
  forall key s ps,
    re_search (string_value_pattern key) s = Some ps -> pieces 5 2 ps <> "".
Proof.
  intros key s ps H. apply re_search_match in H. destruct H as [s0 H].
  unfold string_value_pattern in H.
  apply match_here_lit in H. destruct H as (s1 & ps1 & -> & H).
  apply match_here_spaces in H. destruct H as (m2 & s2 & ps2 & -> & H).
  apply match_here_lit in H. destruct H as (s3 & ps3 & -> & H).
  apply match_here_spaces in H. destruct H as (m4 & s4 & ps4 & -> & H).
  apply match_here_lit in H. destruct H as (s5 & ps5 & -> & H).
  apply match_here_one in H. destruct H as (c & s6 & ps6 & -> & _ & H).
  apply match_here_star in H. destruct H as (m7 & s7 & ps7 & -> & H).
  unfold pieces. cbn. discriminate.
Qed.

Lemma search_and_load_softly :
  forall w p text r,
    decoder_fails_softly w ->
    search_and_load w p text = Some r ->
    exists v s, r = Ok v /\ json_loads w s = Loaded v.
Proof.
  intros w p text r Hsoft H. unfold search_and_load in H.
  destruct (re_search p text) as [ps|]; [|discriminate].
  destruct (json_loads w (pieces 0 (List.length p) ps)) as [v| |e] eqn:Hl.
  - injection H as <-. eauto.
  - discriminate.
  - exfalso. exact (Hsoft _ _ Hl).
Qed.

Lemma extract_by_regex_shape :
  forall w text v,
    extract_by_regex w text = Some v ->
    exists action params reasoning,
      v = regex_decision action params reasoning /\
      action <> "" /\ reasoning <> "".
Proof.
  intros w text v H. unfold extract_by_regex in H.
  destruct (re_search (string_value_pattern "action") text) as [ps|] eqn:Ha;
    [|discriminate].
  match type of H with
  | match ?c with Ok _ => _ | Raise _ => _ end = _ =>
      destruct c as [params|e]; [|discriminate]
  end.
  injection H as <-.
  exists (pieces 5 2 ps), params. eexists. split; [reflexivity|].
  split; [eapply string_value_group; eauto|].
  destruct (re_search (string_value_pattern "reasoning") text) as [rs|] eqn:Hr.
  - eapply string_value_group; eauto.
  - discriminate.
Qed.

(** The interpreter always answers when [json.loads] raises nothing but
    [JSONDecodeError]: it returns a value that [json.loads] read from some
    text, or the object of method 5 with a non-empty action and reasoning,
    or the default of method 6. *)
Theorem interpreter_always_answers :
  forall (w : World) (text : string) (last_action : option json),
    decoder_fails_softly w ->
    exists v,
      try_parse_json_from_llm_response w text last_action = Ok v /\
      ((exists s, json_loads w s = Loaded v) \/
       (exists action params reasoning,
           v = regex_decision action params reasoning /\
           action <> "" /\ reasoning <> "") \/
       v = last_resort last_action).
Proof.
  intros w text la Hsoft. unfold try_parse_json_from_llm_response.
  destruct (json_loads w (strip_fences text)) as [v| |e] eqn:H1;
    [eauto | | exfalso; exact (Hsoft _ _ H1)].
  destruct (search_and_load w json_pattern (strip_fences text)) as [r|] eqn:H2.
  { destruct (search_and_load_softly _ _ _ _ Hsoft H2) as (v & s & -> & Hv).
    eauto. }
  destruct (search_and_load w action_pattern (strip_fences text)) as [r|] eqn:H3.
  { destruct (search_and_load_softly _ _ _ _ Hsoft H3) as (v & s & -> & Hv).
    eauto. }
  destruct (json_loads w (unescape_braces (strip_fences text))) as [v| |e] eqn:H4;
    [eauto | | exfalso; exact (Hsoft _ _ H4)].
  destruct (extract_by_regex w (strip_fences text)) as [v|] eqn:H5.
  - exists v. split; [reflexivity|]. right. left.
    eapply extract_by_regex_shape; eauto.
  - eauto.
Qed.

Lemma py_json_loads_softly : forall s e, py_json_loads s <> OtherError e.
Proof.
  intros s e. unfold py_json_loads.
  destruct (parse_value _ _) as [[v r]|]; [|discriminate].
  destruct (skip_ws r); discriminate.
Qed.

(** A reply in which the object is cut off after the action. *)
Lemma interpreter_always_answers_witness :
  exists v,
    try_parse_json_from_llm_response dated_world
      (j "{'action': 'SEARCH_WEB', 'params': {'query': 'docker")
      (Some (JStr "GENERATE_KEYWORDS")) = Ok v.
Proof.
  destruct (interpreter_always_answers dated_world
              (j "{'action': 'SEARCH_WEB', 'params': {'query': 'docker")
              (Some (JStr "GENERATE_KEYWORDS"))) as (v & Hv & _).
  - exact py_json_loads_softly.
  - exists v. exact Hv.
Defined.

(* ------------------------------------------------------------------ *)
(** ** The links of a page *)

Lemma strip_prefix_app :
  forall p s r, strip_prefix p s = Some r -> s = p ++ r.
Proof.
  induction p as [|a p IH]; intros s r H; cbn in *.
  - now injection H as ->.
  - destruct s as [|b s]; [discriminate|].
    destruct (Ascii.eqb_spec a b) as [->|Hne]; [|discriminate].
    f_equal. now apply IH.
Qed.

Lemma strip_prefix_complete :
  forall p r, strip_prefix p (p ++ r) = Some r.
Proof.
  induction p as [|a p IH]; intros r; cbn; [reflexivity|].
  rewrite Ascii.eqb_refl. apply IH.
Qed.

Section MatcherSound.
Variable rest : string -> option (list string).

Lemma give_back_sound :
  forall s m ps,
    give_back rest s = Some (m, ps) -> m = "" /\ rest s = Some ps.
Proof.
  intros s m ps H. unfold give_back in H.
  destruct (rest s) as [qs|]; [|discriminate].
  injection H as <- <-. auto.
Qed.

Lemma star_sound :
  forall cls s m ps,
    star rest cls s = Some (m, ps) ->
    exists s', s = m ++ s' /\ all_chars cls m = true /\ rest s' = Some ps.
Proof.
  intros cls s. induction s as [|c s IH]; intros m ps H; cbn in H.
  - apply give_back_sound in H. destruct H as [-> H]. exists "". auto.
  - destruct (cls c) eqn:Hc.
    + destruct (star rest cls s) as [[m' ps']|] eqn:Hs.
      * injection H as <- <-.
        destruct (IH _ _ eq_refl) as (s' & -> & Hall & Hr).
        exists s'. cbn. rewrite Hc. auto.
      * apply give_back_sound in H. destruct H as [-> H].
        exists (String c s). auto.
    + apply give_back_sound in H. destruct H as [-> H].
      exists (String c s). auto.
Qed.

Lemma star_complete :
  forall cls m s' ps,
    all_chars cls m = true -> rest s' = Some ps ->
    exists m' ps', star rest cls (m ++ s') = Some (m', ps').
Proof.
  intros cls m s' ps. induction m as [|c m IH]; intros Hall Hr.
  - cbn. destruct s' as [|c s']; cbn.
    + unfold give_back. rewrite Hr. eauto.
    + destruct (cls c).
      * destruct (star rest cls s') as [[m' ps']|]; [eauto|].
        unfold give_back. rewrite Hr. eauto.
      * unfold give_back. rewrite Hr. eauto.
  - cbn in Hall. apply andb_true_iff in Hall. destruct Hall as [Hc Hall].
    cbn. rewrite Hc.
    destruct (IH Hall Hr) as (m' & ps' & ->). eauto.
Qed.
End MatcherSound.

Lemma append_assoc :
  forall a b c : string, (a ++ b) ++ c = a ++ (b ++ c).
Proof.
  induction a as [|x a IH]; intros b c; cbn; [reflexivity|]. now rewrite IH.
Qed.

Lemma append_nil_r : forall a : string, a ++ "" = a.
Proof. induction a as [|x a IH]; cbn; [reflexivity|]. now rewrite IH. Qed.

(** The text of a link the pattern accepts. *)
Lemma repo_link_shape :
  forall scheme href ps,
    match_here (repo_link_pattern scheme) href = Some ps ->
    exists c1 owner c2 tail,
      href = scheme ++ "://github.com/" ++ String c1 owner ++ "/"
             ++ String c2 tail /\
      all_chars owner_char (String c1 owner) = true /\
      repo_char c2 = true.
Proof.
  intros scheme href ps H. unfold repo_link_pattern in H.
  cbn [match_here] in H.
  destruct (strip_prefix (scheme ++ "://github.com/") href) as [s1|] eqn:H1;
    [|discriminate].
  apply strip_prefix_app in H1. subst href.
  destruct s1 as [|c1 s2]; [discriminate|].
  destruct (owner_char c1) eqn:Hc1; [|discriminate].
  destruct (star _ owner_char s2) as [[m ps3]|] eqn:Hs; [|discriminate].
  apply star_sound in Hs. destruct Hs as (s3 & -> & Hall & Hr).
  destruct (strip_prefix "/" s3) as [s4|] eqn:H4; [|discriminate].
  apply strip_prefix_app in H4. subst s3.
  destruct s4 as [|c2 s5]; [discriminate|].
  destruct (repo_char c2) eqn:Hc2; [|discriminate].
  exists c1, m, c2, s5. split; [|split; [|exact Hc2]].
  - rewrite !append_assoc. reflexivity.
  - cbn. now rewrite Hc1.
Qed.

Lemma owner_char_plain :
  forall c,
    owner_char c = true ->
    is_ch c 35 = false /\ is_ch c 63 = false /\ is_ch c 47 = false.
Proof.
  intros [[] [] [] [] [] [] [] []]; vm_compute; intros H;
    repeat split; (reflexivity || discriminate).
Qed.

Lemma repo_char_plain :
  forall c,
    repo_char c = true ->
    is_ch c 35 = false /\ is_ch c 63 = false /\ is_ch c 47 = false.
Proof.
  intros [[] [] [] [] [] [] [] []]; vm_compute; intros H;
    repeat split; (reflexivity || discriminate).
Qed.

Lemma not_slash_spec : forall c, not_char "/" c = negb (is_ch c 47).
Proof.
  intros [[] [] [] [] [] [] [] []]; reflexivity.
Qed.

Lemma drop_fragment_app :
  forall a b,
    all_chars (fun c => negb (is_ch c 35 || is_ch c 63)) a = true ->
    drop_fragment (a ++ b) = a ++ drop_fragment b.
Proof.
  induction a as [|c a IH]; intros b H; [reflexivity|].
  cbn in H. apply andb_true_iff in H. destruct H as [Hc Ha].
  apply negb_true_iff in Hc. cbn. rewrite Hc. now rewrite IH.
Qed.

Lemma rstrip_slash_cons :
  forall c s, is_ch c 47 = false ->
    rstrip_slash (String c s) = String c (rstrip_slash s).
Proof.
  intros c s Hc. cbn. rewrite Hc. now destruct (rstrip_slash s).
Qed.

Lemma rstrip_slash_app :
  forall a b,
    rstrip_slash b <> "" -> rstrip_slash (a ++ b) = a ++ rstrip_slash b.
Proof.
  induction a as [|c a IH]; intros b Hb; [reflexivity|].
  cbn. rewrite (IH b Hb).
  destruct (a ++ rstrip_slash b) eqn:Ha; [|reflexivity].
  destruct a; [cbn in Ha; contradiction | discriminate].
Qed.

Lemma rstrip_slash_idem :
  forall s, rstrip_slash (rstrip_slash s) = rstrip_slash s.
Proof.
  induction s as [|c s IH]; [reflexivity|].
  cbn. destruct (rstrip_slash s) as [|k ks] eqn:Hs.
  - destruct (is_ch c 47) eqn:Hc; [reflexivity|]. cbn. now rewrite Hc.
  - cbn. cbn in IH. rewrite IH. reflexivity.
Qed.

Lemma all_chars_weaken :
  forall (p q : ascii -> bool) s,
    (forall c, p c = true -> q c = true) ->
    all_chars p s = true -> all_chars q s = true.
Proof.
  intros p q s Hpq. induction s as [|c s IH]; intros H; [reflexivity|].
  cbn in *. apply andb_true_iff in H. destruct H as [Hc Hs].
  now rewrite (Hpq c Hc), IH.
Qed.

Lemma all_chars_app :
  forall cls a b, all_chars cls (a ++ b) = all_chars cls a && all_chars cls b.
Proof.
  intros cls a b. induction a as [|c a IH]; [reflexivity|].
  cbn. now rewrite IH, andb_assoc.
Qed.

(** The cleaned form of a link the pattern accepts keeps its scheme, its
    host, its owner and the first character of its repository. *)
Lemma clean_url_shape :
  forall href,
    is_repo_link href = true ->
    exists scheme c1 owner c2 tail,
      (scheme = "https" \/ scheme = "http") /\
      clean_url href = scheme ++ "://github.com/" ++ String c1 owner ++ "/"
                       ++ String c2 tail /\
      all_chars owner_char (String c1 owner) = true /\
      repo_char c2 = true /\
      rstrip_slash tail = tail.
Proof.
  intros href H. unfold is_repo_link in H.
  assert (Hshape : exists scheme ps,
            (scheme = "https" \/ scheme = "http") /\
            match_here (repo_link_pattern scheme) href = Some ps).
  { destruct (match_here (repo_link_pattern "https") href) as [ps|] eqn:H1;
      [exists "https", ps; auto|].
    destruct (match_here (repo_link_pattern "http") href) as [ps|] eqn:H2;
      [exists "http", ps; auto | discriminate]. }
  destruct Hshape as (scheme & ps & Hscheme & Hm).
  destruct (repo_link_shape _ _ _ Hm) as (c1 & owner & c2 & tail & -> & Ho & Hc2).
  exists scheme, c1, owner, c2, (rstrip_slash (drop_fragment tail)).
  split; [exact Hscheme|]. split; [|split; [exact Ho|split; [exact Hc2|]]].
  - unfold clean_url.
    destruct (repo_char_plain _ Hc2) as (R1 & R2 & R3).
    assert (Hpre : all_chars (fun c => negb (is_ch c 35 || is_ch c 63))
                     (scheme ++ "://github.com/" ++ String c1 owner ++ "/")
                   = true).
    { rewrite !all_chars_app. apply andb_true_iff. split.
      - destruct Hscheme as [-> | ->]; reflexivity.
      - apply andb_true_iff. split; [reflexivity|].
        apply andb_true_iff. split; [|reflexivity].
        eapply all_chars_weaken; [|exact Ho].
        intros c Hc. destruct (owner_char_plain _ Hc) as (O1 & O2 & _).
        now rewrite O1, O2. }
    replace (scheme ++ "://github.com/" ++ String c1 owner ++ "/"
             ++ String c2 tail)
      with ((scheme ++ "://github.com/" ++ String c1 owner ++ "/")
            ++ String c2 tail)
      by (rewrite !append_assoc; reflexivity).
    rewrite drop_fragment_app by exact Hpre.
    change (drop_fragment (String c2 tail))
      with (if is_ch c2 35 || is_ch c2 63
            then match line_end tail with
                 | Some kept => kept
                 | None => String c2 (drop_fragment tail)
                 end
            else String c2 (drop_fragment tail)).
    rewrite R1, R2. cbn [orb].
    rewrite rstrip_slash_app
      by (rewrite rstrip_slash_cons by exact R3; discriminate).
    rewrite rstrip_slash_cons by exact R3.
    rewrite !append_assoc. reflexivity.
  - apply rstrip_slash_idem.
Qed.

Lemma first_match_head :
  forall p ps s r, match_here p s = Some r -> first_match (p :: ps) s = Some r.
Proof. intros p ps s r H. cbn. now rewrite H. Qed.

Lemma re_search_any_app :
  forall ps pre s r,
    first_match ps s = Some r ->
    exists r', re_search_any ps (pre ++ s) = Some r'.
Proof.
  intros ps pre s r H. induction pre as [|c pre IH].
  - destruct s; cbn; rewrite H; eauto.
  - cbn. destruct (first_match ps (String c (pre ++ s))); eauto.
Qed.

Lemma re_search_any_match :
  forall ps s r,
    re_search_any ps s = Some r ->
    exists p s', In p ps /\ match_here p s' = Some r.
Proof.
  assert (Hfirst : forall ps s r, first_match ps s = Some r ->
                     exists p, In p ps /\ match_here p s = Some r).
  { induction ps as [|p ps IH]; intros s r H; [discriminate|].
    cbn in H. destruct (match_here p s) eqn:Hp.
    - injection H as <-. exists p. split; [now left | exact Hp].
    - destruct (IH _ _ H) as (q & Hq & Hm). exists q. split; [now right | exact Hm]. }
  intros ps s. induction s as [|c s IH]; intros r H; cbn in H.
  - destruct (first_match ps "") eqn:Hf; [|discriminate].
    injection H as <-. destruct (Hfirst _ _ _ Hf) as (p & Hp & Hm). eauto.
  - destruct (first_match ps (String c s)) eqn:Hf.
    + injection H as <-. destruct (Hfirst _ _ _ Hf) as (p & Hp & Hm). eauto.
    + now apply IH.
Qed.

(** The pattern of [get_repo_details] matches a text in which github.com
    is followed by two parts without a slash. *)
Lemma owner_and_repo_accepts :
  forall pre c1 owner c2 tail,
    all_chars (not_char "/") (String c1 owner) = true ->
    not_char "/" c2 = true ->
    exists o r,
      owner_and_repo (pre ++ "github.com/" ++ String c1 owner ++ "/"
                      ++ String c2 tail) = Some (o, r).
Proof.
  intros pre c1 owner c2 tail Ho Hc2.
  cbn in Ho. apply andb_true_iff in Ho. destruct Ho as [Hc1 Ho].
  assert (Htail : exists m ps,
            star (match_here []) (not_char "/") tail = Some (m, ps)).
  { pose proof (star_complete (match_here []) (not_char "/") "" tail []
                  eq_refl eq_refl) as H. exact H. }
  destruct Htail as (mt & pst & Htail).
  assert (Hrest : exists ps,
            match_here [Lit "/"; One (not_char "/"); Star (not_char "/")]
              ("/" ++ String c2 tail) = Some ps).
  { cbn [match_here strip_prefix append Ascii.eqb Bool.eqb].
    cbn. rewrite Hc2. cbn in Htail. rewrite Htail. eauto. }
  destruct Hrest as (psr & Hrest).
  destruct (star_complete _ (not_char "/") owner _ _ Ho Hrest)
    as (mo & pso & Hstar).
  assert (Hm : exists r,
            first_match repo_url_patterns
              ("github.com/" ++ String c1 owner ++ "/" ++ String c2 tail)
            = Some r).
  { eexists. apply first_match_head.
    cbn [dot map app match_here strip_prefix append Ascii.eqb Bool.eqb
         byte_in nat_of_ascii is_ch].
    cbn. rewrite Hc1.
    cbn in Hstar. rewrite Hstar. reflexivity. }
  destruct Hm as (r & Hm).
  destruct (re_search_any_app _ pre _ _ Hm) as (r' & Hr').
  unfold owner_and_repo. rewrite Hr'. eauto.
Qed.

Ltac peel H :=
  repeat first
    [ apply match_here_lit in H; destruct H as (? & ? & -> & H)
    | apply match_here_one in H; destruct H as (? & ? & ? & -> & _ & H)
    | apply match_here_star in H; destruct H as (? & ? & ? & -> & H) ];
  cbn in H; injection H as <-.

(** Both groups of the pattern hold at least one character. *)
Lemma owner_and_repo_nonempty :
  forall s o r, owner_and_repo s = Some (o, r) -> o <> "" /\ r <> "".
Proof.
  intros s o r H. unfold owner_and_repo in H.
  destruct (re_search_any repo_url_patterns s) as [ps|] eqn:Hs; [|discriminate].
  injection H as <- <-.
  destruct (re_search_any_match _ _ _ Hs) as (p & s' & Hin & Hm).
  cbn in Hin.
  destruct Hin as [<- | [<- | [<- | [<- | []]]]]; peel Hm;
    unfold pieces; cbn; split; discriminate.
Qed.

Lemma collect_links_spec :
  forall hrefs acc,
    NoDup acc ->
    NoDup (collect_links acc hrefs) /\
    forall link,
      In link (collect_links acc hrefs) <->
      In link acc \/
      exists href,
        In href hrefs /\ is_repo_link href = true /\ link = clean_url href.
Proof.
  induction hrefs as [|href hrefs IH]; intros acc Hacc.
  - cbn. split; [exact Hacc|]. intros link. split; [auto|].
    intros [H | (href & [] & _)]. exact H.
  - cbn [collect_links].
    destruct (is_repo_link href) eqn:Hlink.
    + destruct (existsb (String.eqb (clean_url href)) acc) eqn:He; cbn [negb].
      * destruct (IH acc Hacc) as [Hnd Hiff]. split; [exact Hnd|].
        intros link. rewrite Hiff. split.
        -- intros [H | (h & Hh & Hl & ->)]; [now left|].
           right. exists h. split; [now right | auto].
        -- intros [H | (h & [<- | Hh] & Hl & ->)]; [now left | |].
           ++ left. apply existsb_exists in He.
              destruct He as (x & Hx & Heq). apply String.eqb_eq in Heq.
              now subst x.
           ++ right. eauto.
      * assert (Hnew : ~ In (clean_url href) acc).
        { exact (proj1 (existsb_eqb_false _ _) He). }
        assert (Hacc' : NoDup (acc ++ [clean_url href])).
        { apply NoDup_app; [exact Hacc | repeat constructor; intros [] |].
          intros x Hx [<- | []]. contradiction. }
        destruct (IH _ Hacc') as [Hnd Hiff]. split; [exact Hnd|].
        intros link. rewrite Hiff, in_app_iff. split.
        -- intros [[H | [<- | []]] | (h & Hh & Hl & ->)].
           ++ now left.
           ++ right. exists href. split; [now left | auto].
           ++ right. exists h. split; [now right | auto].
        -- intros [H | (h & [<- | Hh] & Hl & ->)].
           ++ left. now left.
           ++ left. right. now left.
           ++ right. eauto.
    + destruct (IH acc Hacc) as [Hnd Hiff]. split; [exact Hnd|].
      intros link. rewrite Hiff. split.
      * intros [H | (h & Hh & Hl & ->)]; [now left|].
        right. exists h. split; [now right | auto].
      * intros [H | (h & [<- | Hh] & Hl & ->)]; [now left | congruence |].
        right. eauto.
Qed.

Lemma clean_url_requestable :
  forall href,
    is_repo_link href = true ->
    clean_url href <> "" /\
    rstrip_slash (clean_url href) = clean_url href /\
    exists owner repo,
      owner_and_repo (clean_url href) = Some (owner, repo) /\
      owner <> "" /\ repo <> "".
Proof.
  intros href H.
  destruct (clean_url_shape href H)
    as (scheme & c1 & owner & c2 & tail & Hscheme & -> & Ho & Hc2 & Htail).
  destruct (repo_char_plain _ Hc2) as (_ & _ & R3).
  split; [|split].
  - destruct Hscheme as [-> | ->]; discriminate.
  - replace (scheme ++ "://github.com/" ++ String c1 owner ++ "/"
             ++ String c2 tail)
      with ((scheme ++ "://github.com/" ++ String c1 owner ++ "/")
            ++ String c2 tail)
      by (rewrite !append_assoc; reflexivity).
    rewrite rstrip_slash_app
      by (rewrite rstrip_slash_cons by exact R3; discriminate).
    rewrite rstrip_slash_cons by exact R3. now rewrite Htail.
  - assert (Hacc : exists o r,
              owner_and_repo
                ((scheme ++ "://") ++ "github.com/" ++ String c1 owner ++ "/"
                 ++ String c2 tail) = Some (o, r)).
    { apply owner_and_repo_accepts.
      - eapply all_chars_weaken; [|exact Ho].
        intros c Hc. destruct (owner_char_plain _ Hc) as (_ & _ & O3).
        now rewrite not_slash_spec, O3.
      - now rewrite not_slash_spec, R3. }
    rewrite append_assoc in Hacc.
    destruct Hacc as (o & r & Hacc). exists o, r. split; [exact Hacc|].
    eapply owner_and_repo_nonempty; eauto.
Qed.

(** [extract_github_links] returns each repository link of the page once:
    no link twice and no empty one, and a link is returned exactly when
    the page was served with status 200 and the link is the cleaned form
    of an [href] the pattern accepts. *)
Theorem page_links_once_each :
  forall (page : result (Z * list string)),
    clean_pool (extract_links_of page) /\
    forall link,
      In link (extract_links_of page) <->
      exists hrefs href,
        page = Ok (200%Z, hrefs) /\ In href hrefs /\
        is_repo_link href = true /\ link = clean_url href.
Proof.
  intros page.
  assert (Hiff : forall link,
            In link (extract_links_of page) <->
            exists hrefs href,
              page = Ok (200%Z, hrefs) /\ In href hrefs /\
              is_repo_link href = true /\ link = clean_url href).
  { intros link. destruct page as [[status hrefs]|e]; cbn.
    - destruct (Z.eqb_spec status 200) as [-> | Hne]; cbn [negb].
      + destruct (collect_links_spec hrefs [] (NoDup_nil _)) as [_ Hspec].
        rewrite Hspec. split.
        * intros [[] | (href & Hin & Hl & ->)]. eauto 6.
        * intros (hs & href & Heq & Hin & Hl & ->).
          injection Heq as <-. right. eauto.
      + split; [intros [] |].
        intros (hs & href & Heq & _). injection Heq as Hs _. contradiction.
    - split; [intros [] |]. intros (hs & href & Heq & _). discriminate. }
  split; [|exact Hiff]. split.
  - destruct page as [[status hrefs]|e]; cbn; [|constructor].
    destruct (negb (status =? 200)%Z); [constructor|].
    apply collect_links_spec. constructor.
  - intros Hin. apply Hiff in Hin.
    destruct Hin as (hs & href & _ & _ & Hl & Heq).
    destruct (clean_url_requestable href Hl) as [Hne _]. congruence.
Qed.

(** Every link [extract_github_links] returns is one [get_repo_details]
    can work with: it is not empty, it does not end with a slash, and the
    pattern of [get_repo_details] finds an owner and a repository in it,
    so that the details are asked from the API. *)
Theorem page_links_can_be_requested :
  forall (page : result (Z * list string)) (link : string),
    In link (extract_links_of page) ->
    link <> "" /\ rstrip_slash link = link /\
    exists owner repo,
      api_url (JStr link)
        = Some ("https://api.github.com/repos/" ++ owner ++ "/" ++ repo) /\
      owner <> "" /\ repo <> "".
Proof.
  intros page link Hin.
  assert (Hhref : exists href, is_repo_link href = true /\ link = clean_url href).
  { destruct page as [[status hrefs]|e]; cbn in Hin; [|destruct Hin].
    destruct (negb (status =? 200)%Z); [destruct Hin|].
    apply (collect_links_spec hrefs [] (NoDup_nil _)) in Hin.
    destruct Hin as [[] | (href & _ & Hl & Heq)]. eauto. }
  destruct Hhref as (href & Hl & ->).
  destruct (clean_url_requestable href Hl) as (Hne & Hstrip & o & r & Hor & Ho & Hr).
  split; [exact Hne|]. split; [exact Hstrip|].
  exists o, r. cbn [api_url]. rewrite Hor. auto.
Qed.

(** A page with one repository linked twice, once with a query and a
    fragment. *)
Lemma page_links_can_be_requested_witness :
  let page := Ok (200%Z, ["https://github.com/moby/moby/?tab=readme#top";
                          "https://example.com/about";
                          "http://github.com/moby/moby"]) in
  extract_links_of page
    = ["https://github.com/moby/moby"; "http://github.com/moby/moby"] /\
  exists owner repo,
    api_url (JStr "https://github.com/moby/moby")
      = Some ("https://api.github.com/repos/" ++ owner ++ "/" ++ repo).
Proof.
  intros page. split; [reflexivity|].
  destruct (page_links_can_be_requested page "https://github.com/moby/moby")
    as (_ & _ & owner & repo & Hurl & _).
  - left. reflexivity.
  - exists owner, repo. exact Hurl.
Defined.

(* ------------------------------------------------------------------ *)
(** ** The records of the web search *)

Lemma append_records_shape :
  forall record items results,
    (forall r, web_record (record r)) ->
    Forall web_record results ->
    Forall web_record (fst (append_records record items results)).
Proof.
  intros record items. induction items as [|v items IH]; intros results Hr H.
  - exact H.
  - destruct v; try exact H. cbn. apply IH; [exact Hr|].
    apply Forall_app. split; [exact H | constructor; [apply Hr | constructor]].
Qed.

Lemma records_of_shape :
  forall record key data results,
    (forall r, web_record (record r)) ->
    Forall web_record results ->
    Forall web_record (fst (records_of record key data results)).
Proof.
  intros record key data results Hr H. unfold records_of.
  destruct data as [[| | | | | |d]|e]; try exact H.
  unfold loop_records.
  destruct (dict_get_default d key (JArr [])) as [| | | |s|items|o];
    try exact H.
  - destruct s; exact H.
  - now apply append_records_shape.
  - destruct o; exact H.
Qed.

Lemma search_web_records :
  forall tavily_api_key tavily duckduckgo,
    Forall web_record (search_web_of tavily_api_key tavily duckduckgo).
Proof.
  intros k tavily ddg. unfold search_web_of.
  set (tried := if truthy k then records_of tavily_record "results" tavily []
                else ([], false)).
  assert (Ht : Forall web_record (fst tried)).
  { unfold tried. destruct (truthy k); [|constructor].
    apply records_of_shape; [reflexivity | constructor]. }
  destruct (snd tried && nonempty (fst tried)); [exact Ht|].
  destruct ddg as [[status data]|e]; [|exact Ht].
  destruct (status =? 200)%Z; [|exact Ht].
  apply records_of_shape; [reflexivity | exact Ht].
Qed.

Lemma web_record_has_url : forall r, web_record r -> dict_has r "url" = true.
Proof.
  intros r H. unfold web_record in H.
  destruct r as [|[k1 v1] [|[k2 v2] [|[k3 v3] [|x r]]]]; try discriminate.
  cbn in H. injection H as -> -> ->. reflexivity.
Qed.

Lemma execute_action_web :
  forall w t action params st l,
    execute_action w t action params st = RWeb l ->
    exists query, l = search_web w t query.
Proof.
  intros w t action params st l H. unfold execute_action, execute_body in H.
  destruct (eq_str action "GENERATE_KEYWORDS"); [discriminate|].
  destruct (eq_str action "SEARCH_GITHUB").
  { destruct (py_get params "keywords" _); cbn [bind] in H; [|discriminate].
    destruct (negb (truthy _)); [discriminate|].
    destruct (search_github_repositories _ _ _); discriminate. }
  destruct (eq_str action "GENERATE_WEB_QUERIES"); [discriminate|].
  destruct (eq_str action "SEARCH_WEB").
  { destruct (py_get params "query" _); cbn [bind] in H; [|discriminate].
    injection H as <-. eauto. }
  destruct (eq_str action "EXTRACT_GITHUB_LINKS").
  { destruct (py_get params "url" _); cbn [bind] in H; [|discriminate].
    destruct (negb (truthy _)); discriminate. }
  destruct (eq_str action "GET_REPO_DETAILS").
  { destruct (py_get params "repo_url" _); cbn [bind] in H; [|discriminate].
    destruct (negb (truthy _)); discriminate. }
  destruct (eq_str action "CALCULATE_SCORES"); [discriminate|].
  destruct (eq_str action "GENERATE_REPORT").
  { destruct (negb (nonempty _)); discriminate. }
  destruct (eq_str action "COMPLETE"); discriminate.
Qed.

Lemma update_state_web_records :
  forall w t st action params,
    web_search_as_coded w ->
    Forall web_record (web_search_results st) ->
    Forall web_record
      (web_search_results
         (update_state st action (execute_action w t action params st))).
Proof.
  intros w t st action params Hw H.
  destruct (execute_action w t action params st) as [| l | l | l | [d|] | l | s]
    eqn:He;
    update_cases; try exact H; cbn;
    try (destruct (str_truthy (rd_url d) && _); exact H).
  destruct (execute_action_web _ _ _ _ _ _ He) as [query ->].
  destruct (Hw t query) as (k & tav & ddg & ->). apply search_web_records.
Qed.

(** When the web search answers as [search_web] is written, every web
    result in the state has the keys title, url and snippet, in every
    state the loop passes through and whatever the engine decides; the
    fallback then finds the URL it asks for and decides one of the nine
    actions. *)
Theorem web_results_are_records :
  forall (w : World) (engine : Engine) (dom : string) (ls : LoopState),
    web_search_as_coded w ->
    reachable_with w engine dom ls ->
    Forall web_record (web_search_results (ls_state ls)) /\
    exists d, fallback_decision (ls_state ls) = Some d /\ enumerated d.
Proof.
  intros w engine dom ls Hw Hreach.
  assert (Hrec : Forall web_record (web_search_results (ls_state ls))).
  { induction Hreach as [|ls ls' Hr IH Hlt Hb]; [constructor|].
    destruct (loop_body_continue_state _ _ _ _ Hb)
      as (action & params & _ & _ & -> & _).
    now apply update_state_web_records. }
  split; [exact Hrec|].
  apply fallback_enumerated. unfold first_result_lacks_url.
  destruct (web_search_results (ls_state ls)) as [|first rest];
    [now rewrite andb_false_r|].
  inversion Hrec as [|? ? Hfirst _]; subst.
  rewrite (web_record_has_url _ Hfirst). now rewrite andb_false_r.
Qed.

(** One pass that searches the web, in the scripted world. *)
Lemma web_results_are_records_witness :
  exists ls,
    loop_body dated_world restless_engine (start "containerization")
      = Continue ls /\
    web_search_results (ls_state ls) <> [] /\
    Forall web_record (web_search_results (ls_state ls)).
Proof.
  destruct (loop_body dated_world restless_engine (start "containerization"))
    as [ls | ls | e] eqn:Hb; try (vm_compute in Hb; discriminate).
  exists ls. split; [reflexivity|].
  destruct (web_results_are_records dated_world restless_engine
              "containerization" ls) as [Hrec _].
  - intros t query.
    exists JNull, (Raise (ExternalError "no key")),
      (Ok (200%Z,
           Ok (JObj [("Results",
                      JArr [JObj [("Text", JStr "Best of");
                                  ("FirstURL",
                                   JStr "https://example.com/best")]])]))).
    reflexivity.
  - apply (reach_with_step _ _ _ (start "containerization"));
      [apply reach_with_start | cbn; unfold max_iterations; lia | exact Hb].
  - split; [|exact Hrec].
    vm_compute in Hb. injection Hb as <-. discriminate.
Defined.

(* ------------------------------------------------------------------ *)
(** ** The summaries in front of the model call *)

Lemma join_check_raises :
  forall strs v rest i,
    Forall is_str strs -> ~ is_str v ->
    join_check i (strs ++ v :: rest) = Raise (join_error (i + List.length strs) v).
Proof.
  induction strs as [|s strs IH]; intros v rest i Hs Hv.
  - cbn. rewrite Nat.add_0_r.
    destruct v; try reflexivity. exfalso. apply Hv. eexists. reflexivity.
  - inversion Hs as [|? ? [x ->] Hs']; subst. cbn [app join_check].
    rewrite IH by assumption. cbn [List.length]. now rewrite Nat.add_succ_r.
Qed.

Lemma firstn_app_cons :
  forall (A : Type) (strs : list A) v rest n,
    List.length strs < n ->
    exists rest', firstn n (strs ++ v :: rest) = (strs ++ v :: rest')%list.
Proof.
  intros A strs. induction strs as [|s strs IH]; intros v rest n Hn.
  - destruct n; [lia|]. cbn. eauto.
  - destruct n; [cbn in Hn; lia|]. cbn in Hn.
    destruct (IH v rest n ltac:(lia)) as (rest' & Hr).
    exists rest'. cbn. now rewrite Hr.
Qed.

Lemma update_state_keywords :
  forall st action r,
    eq_str action "GENERATE_KEYWORDS" = false ->
    keywords (update_state st action r) = keywords st.
Proof.
  intros st action r H. unfold update_state. rewrite H. cbn [andb].
  repeat match goal with
  | |- context [if ?c && result_truthy ?r then _ else _] =>
      destruct (c && result_truthy r) eqn:?
  end; try reflexivity;
    destruct r as [| l | l | l | [d|] | l | s]; try reflexivity.
  cbn. now destruct (str_truthy (rd_url d) && _).
Qed.

(** The keywords are joined before the [try] of [_decide_next_action].
    When the first decision is GENERATE_KEYWORDS and one of the first five
    keywords that come back is no string, the second decision raises the
    [TypeError] of [join], and [run] returns the error text with its
    message. *)
Theorem non_string_keyword_ends_run :
  forall (w : World) (dom plan : string) (params : json)
         (strs : list json) (v : json) (rest : list json),
    plan_chain w dom = Ok plan ->
    decide_next_action w 1 dom (initial_state dom) [] None
      = Ok (Some (Decision (JStr "GENERATE_KEYWORDS") params)) ->
    generate_keywords w 1 dom = (strs ++ v :: rest)%list ->
    Forall is_str strs -> ~ is_str v -> List.length strs < 5 ->
    run w dom
      = "搜索过程中出错: " ++ exn_str (join_error (List.length strs) v).
Proof.
  intros w dom plan params strs v rest Hplan Hfirst Hkw Hs Hv Hlen.
  unfold run, run_body. rewrite Hplan. cbn [bind].
  unfold orchestration_loop, max_iterations.
  cbn [while_loop]. unfold loop_body at 1, agent_engine at 1.
  cbn [start ls_state ls_history ls_last_action ls_iterations].
  rewrite Hfirst. cbn [eq_str String.eqb Ascii.eqb Bool.eqb].
  change (execute_action w 1 (JStr "GENERATE_KEYWORDS") params
            (initial_state dom))
    with (RValues (generate_keywords w 1 dom)).
  rewrite Hkw.
  assert (Hst : update_state (initial_state dom) (JStr "GENERATE_KEYWORDS")
                  (RValues (strs ++ v :: rest))
                = set_keywords (initial_state dom) (strs ++ v :: rest)).
  { unfold update_state. cbn [eq_str String.eqb Ascii.eqb Bool.eqb andb
                              result_truthy].
    destruct strs; reflexivity. }
  rewrite Hst.
  unfold loop_body, agent_engine.
  cbn [ls_state ls_history ls_last_action ls_iterations].
  unfold decide_next_action at 1, format_state_summary.
  cbn [keywords set_keywords].
  destruct (firstn_app_cons _ strs v rest 5 Hlen) as (rest' & ->).
  rewrite join_check_raises by assumption. reflexivity.
Qed.

(** The keyword generator passes on an object in second place. *)
Lemma non_string_keyword_ends_run_witness :
  run careless_world "containerization"
    = "搜索过程中出错: sequence item 1: expected str instance, dict found".
Proof.
  apply (non_string_keyword_ends_run careless_world "containerization"
           "1. keywords 2. search 3. rank 4. report" (JObj [])
           [JStr "docker"] (JObj [("keyword", JStr "containers")]) []).
  - reflexivity.
  - vm_compute. reflexivity.
  - reflexivity.
  - repeat constructor. eexists. reflexivity.
  - intros [s Hs]. discriminate.
  - cbn. lia.
Defined.

(** The history is summarized before the [try] as well.  When the first
    decision carries params that are truthy and no mapping (a list, a
    string, a number), for any action but GENERATE_KEYWORDS and COMPLETE,
    the action is dispatched, the second decision raises the
    [AttributeError] of [items], and [run] returns the error text with its
    message. *)
Theorem odd_params_end_run :
  forall (w : World) (dom plan : string) (action params : json),
    plan_chain w dom = Ok plan ->
    decide_next_action w 1 dom (initial_state dom) [] None
      = Ok (Some (Decision action params)) ->
    eq_str action "GENERATE_KEYWORDS" = false ->
    eq_str action "COMPLETE" = false ->
    truthy params = true -> is_mapping params = false ->
    run w dom = "搜索过程中出错: " ++ exn_str (items_error params).
Proof.
  intros w dom plan action params Hplan Hfirst Hgk Hc Ht Hm.
  unfold run, run_body. rewrite Hplan. cbn [bind].
  unfold orchestration_loop, max_iterations.
  cbn [while_loop]. unfold loop_body at 1, agent_engine at 1.
  cbn [start ls_state ls_history ls_last_action ls_iterations].
  rewrite Hfirst, Hc.
  unfold loop_body, agent_engine.
  cbn [ls_state ls_history ls_last_action ls_iterations app].
  unfold decide_next_action at 1, format_state_summary.
  rewrite update_state_keywords by exact Hgk.
  cbn [keywords initial_state firstn join_check bind format_history_summary
       h_params].
  unfold items_check. rewrite Ht.
  destruct params; try reflexivity. discriminate.
Qed.

(** The model sends the query in a list. *)
Lemma odd_params_end_run_witness :
  run (simple_world
         (j "{'action': 'SEARCH_WEB', 'params': ['docker'], 'reasoning': 'search'}"))
      "containerization"
    = "搜索过程中出错: 'list' object has no attribute 'items'".
Proof.
  apply (odd_params_end_run _ "containerization"
           "1. keywords 2. search 3. rank 4. report"
           (JStr "SEARCH_WEB") (JArr [JStr "docker"])).
  - reflexivity.
  - vm_compute. reflexivity.
  - reflexivity.
  - reflexivity.
  - reflexivity.
  - reflexivity.
Defined.
